(** * WordSolversPython: pattern classes, parser and trie matcher

    A shallow embedding of [src/word_objects.py], [src/parsers.py] and the
    trie builder of [src/word_utils.py], followed by the properties stated
    about them.

    Conventions of the embedding:
    - a Python [str] is a [list ascii] (the model is restricted to the ASCII
      range); literals are written [py "..."];
    - a Python [int] is a [Z]; the sentinel [-1] of the source ("no upper
      bound") is kept as the integer [-1];
    - a Python [set] of one-character strings is a [gset ascii]; where the
      source iterates over a set, the model iterates over [elements], one
      fixed enumeration among the orders a Python run may pick;
    - a raised exception is the [Raise] case of [result];
    - general recursion and [while] loops whose termination is not evident
      from the source take a [nat] budget and answer [None] when it runs out. *)

From Stdlib Require Import ZArith Ascii String List Lia Bool.
From stdpp Require Import base option list gmap sets strings sorting.

Import ListNotations.
Local Open Scope Z_scope.

(** ** Python strings *)

Abbreviation str := (list ascii).

Definition py (s : string) : str := list_ascii_of_string s.

Definition ord (c : ascii) : Z := Z.of_N (N_of_ascii c).

Definition chr (z : Z) : ascii := ascii_of_N (Z.to_N z).

(** [lo <= c <= hi] on one-character strings. *)
Definition between (lo c hi : ascii) : bool :=
  (ord lo <=? ord c) && (ord c <=? ord hi).

Definition is_digit (c : ascii) : bool := between "0" c "9".
Definition is_lower (c : ascii) : bool := between "a" c "z".
Definition is_upper (c : ascii) : bool := between "A" c "Z".

Definition ascii_eqb (a b : ascii) : bool := bool_decide (a = b).

(** [str.lower()], on ASCII. *)
Definition lower_char (c : ascii) : ascii :=
  if is_upper c then chr (ord c + 32) else c.

Definition lower (s : str) : str := map lower_char s.

Definition len (s : str) : Z := Z.of_nat (length s).

(** [s[i]]: negative indices count from the end, out of range raises. *)
Definition py_index (s : str) (i : Z) : option ascii :=
  let j := if i <? 0 then i + len s else i in
  if j <? 0 then None else nth_error s (Z.to_nat j).

(** Normalisation of one slice bound, as [slice.indices] does for step 1. *)
Definition slice_bound (n : Z) (default : Z) (b : option Z) : Z :=
  match b with
  | None => default
  | Some i => if i <? 0 then Z.max 0 (i + n) else Z.min i n
  end.

(** [s[lo:hi]]. *)
Definition py_slice (s : str) (lo hi : option Z) : str :=
  let n := len s in
  let a := slice_bound n 0 lo in
  let b := slice_bound n n hi in
  firstn (Z.to_nat (b - a)) (skipn (Z.to_nat a) s).

(** [s.find(c)] for a one-character needle: first position, or [-1]. *)
Fixpoint find_from (c : ascii) (s : str) (i : Z) : Z :=
  match s with
  | [] => -1
  | x :: r => if ascii_eqb x c then i else find_from c r (i + 1)
  end.

Definition find (s : str) (c : ascii) : Z := find_from c s 0.

(** [c in chars] for a one-character [c]. *)
Definition char_in (c : ascii) (chars : str) : bool :=
  existsb (ascii_eqb c) chars.

(** *** Decimal rendering and reading of integers *)

Definition digit_val (c : ascii) : Z := ord c - 48.
Definition digit_char (d : Z) : ascii := chr (48 + d).

Fixpoint render_digits (budget : nat) (n : Z) (acc : str) : str :=
  match budget with
  | O => acc
  | S b =>
      let acc' := digit_char (n mod 10) :: acc in
      if n <? 10 then acc' else render_digits b (n / 10) acc'
  end.

(** [str(n)] for an [int]. *)
Definition str_of_Z (n : Z) : str :=
  if n <? 0 then "-"%char :: render_digits (S (Z.to_nat (- n))) (- n) []
  else render_digits (S (Z.to_nat n)) n [].

(** Whitespace stripped by [int()] (ASCII part). *)
Definition is_space (c : ascii) : bool :=
  let o := ord c in
  ((9 <=? o) && (o <=? 13)) || ((28 <=? o) && (o <=? 32)).

Fixpoint lstrip (s : str) : str :=
  match s with
  | c :: r => if is_space c then lstrip r else s
  | [] => []
  end.

Definition strip (s : str) : str := rev (lstrip (rev (lstrip s))).

(** Digits of a decimal literal; single underscores may separate digits. *)
Fixpoint int_body (s : str) (acc : Z) (after_digit : bool) : option Z :=
  match s with
  | [] => if after_digit then Some acc else None
  | c :: r =>
      if is_digit c then int_body r (acc * 10 + digit_val c) true
      else if ascii_eqb c "_" && after_digit then int_body r acc false
      else None
  end.

(** [int(s)]; [None] stands for the [ValueError] the caller catches. *)
Definition py_int (s : str) : option Z :=
  match strip s with
  | [] => None
  | c :: r =>
      if ascii_eqb c "-" then Z.opp <$> int_body r 0 false
      else if ascii_eqb c "+" then int_body r 0 false
      else int_body (c :: r) 0 false
  end.

(** ** Exceptions *)

Inductive exn : Type :=
| ValueError (msg : str)
| IndexError (msg : str).

Inductive result (A : Type) : Type :=
| Ok (a : A)
| Raise (e : exn).

Arguments Ok {A} a.
Arguments Raise {A} e.

#[global] Instance result_ret : MRet result := fun A a => Ok a.

#[global] Instance result_bind : MBind result := fun A B k r =>
  match r with
  | Ok a => k a
  | Raise e => Raise e
  end.

(** ** [word_objects.py]: BlankSpace *)

Definition ascii_lowercase : str := py "abcdefghijklmnopqrstuvwxyz".

(** [all_character_set()]. *)
Definition all_character_set : gset ascii := list_to_set ascii_lowercase.

(** An argument annotated [Union[str, Collection[str]]]. *)
Inductive chars_arg : Type :=
| Str (s : str)
| Collection (l : list str).

(** [''.join(l)]. *)
Definition join (l : list str) : str := concat l.

(** [chars if isinstance(chars, str) else ''.join(chars)]. *)
Definition chars_text (a : chars_arg) : str :=
  match a with
  | Str s => s
  | Collection l => join l
  end.

(** [chars == '']: only the empty [str] is equal to [''] . *)
Definition is_empty_str (a : chars_arg) : bool :=
  match a with
  | Str [] => true
  | _ => false
  end.

(** A set of one-character strings passed where a collection is expected. *)
Definition of_set (s : gset ascii) : chars_arg :=
  Collection (map (fun c => [c]) (elements s)).

(** Objects are values in the model, so a deep copy is the value itself. *)
Definition deepcopy {A : Type} (x : A) : A := x.

(** Order of one-character strings: by code point. *)
Definition ord_le (a b : ascii) : Prop := ord a <= ord b.

#[global] Instance ord_le_dec : RelDecision ord_le :=
  fun a b => decide (ord a <= ord b).

Module BlankSpace.

Record t : Type := Build {
  possible_characters : gset ascii;
  min_blanks : Z;
  max_blanks : Z;
  _negated : bool;
  bracketed : bool
}.

Definition set_possible_characters (self : t) (s : gset ascii) : t :=
  {| possible_characters := s;
     min_blanks := min_blanks self;
     max_blanks := max_blanks self;
     _negated := _negated self;
     bracketed := bracketed self |}.

Definition negated (self : t) : bool := _negated self.

Definition is_empty (self : t) : bool := max_blanks self =? 0.

Definition is_singular (self : t) : bool :=
  (min_blanks self =? 1) && (max_blanks self =? 1).

Definition is_all_chars (self : t) : bool :=
  bool_decide (possible_characters self = all_character_set).

Definition is_determinant (self : t) : bool :=
  (Z.of_nat (size (possible_characters self)) =? 1)
  && (min_blanks self =? max_blanks self).

Definition remove (self : t) (chars : str) : t :=
  let s : gset ascii := list_to_set chars in
  set_possible_characters self (possible_characters self ∖ s).

Definition add (self : t) (chars : str) : t :=
  let s : gset ascii := list_to_set chars in
  set_possible_characters self (possible_characters self ∪ s).

Definition append (self : t) (chars : str) : t :=
  if negated self then remove self chars else add self chars.

(** [BlankSpace(bracketed, negated, min_blanks, max_blanks, chars)]; the
    defaults of the source are [negated=False], [min_blanks=1],
    [max_blanks=1], [chars='']. *)
Definition __init__ (bracketed negated : bool) (min_blanks max_blanks : Z)
    (chars : chars_arg) : t :=
  let self :=
    {| possible_characters :=
         if (negb bracketed && is_empty_str chars) || negated
         then all_character_set else ∅;
       min_blanks := min_blanks;
       max_blanks := max_blanks;
       _negated := negated;
       bracketed := bracketed |} in
  append self (chars_text chars).

Definition apply_filter (self : t) (filter_chars : chars_arg) (hard : bool) : t :=
  let filter_chars : gset ascii := list_to_set (chars_text filter_chars) in
  if (hard && (bracketed self || (1 <? Z.of_nat (size (possible_characters self)))))
     || (negb hard && negb (bracketed self)
         && (1 <? Z.of_nat (size (possible_characters self))))
  then remove self (join (map (fun c => [c]) (elements (all_character_set ∖ filter_chars))))
  else self.

Definition with_filter (self : t) (filter_chars : chars_arg) (hard : bool) : t :=
  let clone := deepcopy self in
  apply_filter clone filter_chars hard.

(** [clone_minus(sub_min=1, sub_max=None)]. *)
Definition clone_minus (self : t) (sub_min : Z) (sub_max : option Z) : result t :=
  if is_empty self then
    Raise (ValueError (py "Cannot create a new BlankSpace with less spaces than none"))
  else
    let sub_max := match sub_max with None => sub_min | Some m => m end in
    let new_min := Z.max 0 (min_blanks self - sub_max) in
    let new_max := if max_blanks self =? -1 then -1 else max_blanks self - sub_min in
    let clone := __init__ (bracketed self) (negated self) new_min new_max (Str []) in
    Ok (set_possible_characters clone (possible_characters self)).

Definition sorted (l : str) : str := merge_sort ord_le l.

Definition __repr__ (self : t) : str :=
  let n := Z.of_nat (size (possible_characters self)) in
  if negb (bracketed self) && negb (negated self) && (n =? 1) then
    take 1 (elements (possible_characters self))
  else if negb (bracketed self) && negb (negated self) && (n =? 26) then
    py "_"
  else
    let char_str :=
      if negated self then
        py "^" ++ join (map (fun c => [c])
                          (elements (all_character_set ∖ possible_characters self)))
      else if negb (is_all_chars self) then
        join (map (fun c => [c]) (sorted (elements (possible_characters self))))
      else ascii_lowercase in
    if (min_blanks self =? max_blanks self) && (max_blanks self =? 1) then
      py "[" ++ char_str ++ py "]"
    else
      let min_str := if min_blanks self =? 0 then [] else str_of_Z (min_blanks self) in
      let max_str := if max_blanks self =? -1 then [] else str_of_Z (max_blanks self) in
      py "[" ++ min_str ++ py "," ++ max_str
        ++ (if bool_decide (char_str = ascii_lowercase) then [] else char_str)
        ++ py "]".

End BlankSpace.

Abbreviation BlankSpace := BlankSpace.t.


(** ** [word_objects.py]: DictionaryNode *)

Module DictionaryNode.

(** A node owns its children; [_child_map] is a Python [dict], kept here as
    an association list in insertion order.  The back-reference [_parent]
    is used by the source only to spell the word of a node ([__repr__])
    and its [depth]; the model carries that word next to the node instead
    (type [ref] below). *)
#[warnings="-register-all"]
Inductive t : Type :=
| Build (is_word : bool) (_child_map : list (ascii * t)).

Definition is_word (self : t) : bool :=
  match self with Build w _ => w end.

Definition children (self : t) : list (ascii * t) :=
  match self with Build _ m => m end.

(** [DictionaryNode(parent, parent_path, is_word)]: no children yet. *)
Definition __init__ (is_word : bool) : t := Build is_word [].

(** [d.get(key)]. *)
Fixpoint dict_get (key : ascii) (d : list (ascii * t)) : option t :=
  match d with
  | [] => None
  | (k, v) :: d' => if ascii_eqb k key then Some v else dict_get key d'
  end.

(** [d[key] = v]: an existing key keeps its place, a new one goes last. *)
Fixpoint dict_set (key : ascii) (v : t) (d : list (ascii * t)) : list (ascii * t) :=
  match d with
  | [] => [(key, v)]
  | (k, v0) :: d' =>
      if ascii_eqb k key then (k, v) :: d' else (k, v0) :: dict_set key v d'
  end.

(** A node as the program holds it: the word its parent chain spells
    ([str(node)]) and the node. *)
Definition ref : Type := str * t.

Definition max_layers_below : t -> Z :=
  fix go (self : t) : Z :=
    match self with
    | Build _ m =>
        (fix over (cs : list (ascii * t)) (max_layers : Z) : Z :=
           match cs with
           | [] => max_layers
           | (_, c) :: cs' => over cs' (Z.max max_layers (go c))
           end) m (-1) + 1
    end.

(** [make_child(path, is_word)]: the node with the new child stored. *)
Definition make_child (self : t) (path : ascii) (is_word : bool) : t :=
  Build (DictionaryNode.is_word self)
        (dict_set path (__init__ is_word) (children self)).

Fixpoint has_child (self : t) (path : str) : result bool :=
  match path with
  | [] => Raise (IndexError (py "string index out of range"))
  | [c] => Ok (bool_decide (is_Some (dict_get c (children self))))
  | c :: (_ :: _) as rest =>
      match dict_get c (children self) with
      | Some child => has_child child rest
      | None => Ok false
      end
  end.

Fixpoint __getitem__ (self : t) (item : str) : result (option t) :=
  match item with
  | [] => Raise (IndexError (py "string index out of range"))
  | [c] => Ok (dict_get c (children self))
  | c :: (_ :: _) as rest =>
      match dict_get c (children self) with
      | Some child => __getitem__ child rest
      | None => Ok None
      end
  end.

Fixpoint get_child (self : t) (path : str) : option t :=
  match path with
  | [] => Some self
  | c :: rest =>
      match dict_get c (children self) with
      | Some child => get_child child rest
      | None => None
      end
  end.

(** The [for] loop of [get_possible_children] over the characters [cs]
    of the space, where [run] stands for the recursive call.  On a
    one-character path [has_child(c)] and [self[c]] are both the lookup
    of [c] among the children. *)
Fixpoint for_characters (run : ref -> BlankSpace -> option (result (list ref)))
    (self : ref) (space : BlankSpace) (cs : list ascii)
    : option (result (list ref)) :=
  match cs with
  | [] => Some (Ok [])
  | c :: cs' =>
      match dict_get c (children (snd self)) with
      | None => for_characters run self space cs'
      | Some child =>
          match BlankSpace.clone_minus space 1 None with
          | Raise e => Some (Raise e)
          | Ok space' =>
              match run (fst self ++ [c], child) space' with
              | None => None
              | Some (Raise e) => Some (Raise e)
              | Some (Ok found) =>
                  match for_characters run self space cs' with
                  | Some (Ok more) => Some (Ok (found ++ more))
                  | other => other
                  end
              end
          end
      end
  end.

(** [get_possible_children(space)], the generator run to its end.  [depth]
    bounds the number of nested activations; [None] means the bound was
    reached. *)
Fixpoint get_possible_children (depth : nat) (self : ref) (space : BlankSpace)
    : option (result (list ref)) :=
  match depth with
  | O => None
  | S depth' =>
      let here := if BlankSpace.min_blanks space =? 0 then [self] else [] in
      if BlankSpace.max_blanks space =? 0 then Some (Ok here)
      else
        match for_characters (get_possible_children depth') self space
                (elements (BlankSpace.possible_characters space)) with
        | Some (Ok below) => Some (Ok (here ++ below))
        | other => other
        end
  end.

(** [all_words()], the generator run to its end, for the node [self]
    whose word is [word]: the word of a child is the word of its parent
    followed by the letter leading to it. *)
Definition all_words : ref -> list str :=
  fun self =>
    (fix go (word : str) (node : t) : list str :=
       match node with
       | Build w m =>
           (if w then [word] else [])
             ++ (fix over (cs : list (ascii * t)) : list str :=
                   match cs with
                   | [] => []
                   | (k, c) :: cs' => go (word ++ [k]) c ++ over cs'
                   end) m
       end) (fst self) (snd self).

End DictionaryNode.

Abbreviation DictionaryNode := DictionaryNode.t.

(** ** [word_utils.py]: building the trie *)

(** [clean_word]. *)
Definition clean_word (word : str) : str :=
  List.filter is_lower (lower word).

(** The walk of [create_dict_trie] for one cleaned word, from [current]:
    every letter but the last descends into the child (made when missing),
    the last letter marks its child as a word (made when missing).  The
    result is [current] after the in-place updates.  An empty word fails at
    [word[-1]]. *)
Fixpoint add_word (current : DictionaryNode) (word : str) : result DictionaryNode :=
  match word with
  | [] => Raise (IndexError (py "string index out of range"))
  | [last] =>
      match DictionaryNode.dict_get last (DictionaryNode.children current) with
      | Some child =>
          Ok (DictionaryNode.Build (DictionaryNode.is_word current)
                (DictionaryNode.dict_set last
                   (DictionaryNode.Build true (DictionaryNode.children child))
                   (DictionaryNode.children current)))
      | None => Ok (DictionaryNode.make_child current last true)
      end
  | c :: (_ :: _) as rest =>
      let child :=
        match DictionaryNode.dict_get c (DictionaryNode.children current) with
        | Some child => child
        | None => DictionaryNode.__init__ false
        end in
      child' ← add_word child rest;
      Ok (DictionaryNode.Build (DictionaryNode.is_word current)
            (DictionaryNode.dict_set c child' (DictionaryNode.children current)))
  end.

Fixpoint add_words (root : DictionaryNode) (words : list str) : result DictionaryNode :=
  match words with
  | [] => Ok root
  | word :: words' =>
      root' ← add_word root (clean_word word);
      add_words root' words'
  end.

Definition create_dict_trie (words : list str) : result DictionaryNode :=
  add_words (DictionaryNode.__init__ false) words.

(** [is_word(word)], with the loaded trie [_DICT_TRIE] as a parameter. *)
Definition is_word (_DICT_TRIE : DictionaryNode) (word : str) : result bool :=
  DictionaryNode.has_child _DICT_TRIE (clean_word word).


(** ** Python lists *)

(** [l[i]] on a list: negative indices count from the end, out of range
    raises [IndexError]. *)
Definition list_getitem {A : Type} (l : list A) (i : Z) : result A :=
  let n := Z.of_nat (length l) in
  let j := if i <? 0 then i + n else i in
  if j <? 0 then Raise (IndexError (py "list index out of range"))
  else
    match nth_error l (Z.to_nat j) with
    | Some x => Ok x
    | None => Raise (IndexError (py "list index out of range"))
    end.

(** [l[lo:hi]] on a list. *)
Definition list_slice {A : Type} (l : list A) (lo hi : option Z) : list A :=
  let n := Z.of_nat (length l) in
  let a := slice_bound n 0 lo in
  let b := slice_bound n n hi in
  firstn (Z.to_nat (b - a)) (skipn (Z.to_nat a) l).


(** ** [word_objects.py]: UnknownWord *)

Module UnknownWord.

Record t : Type := Build {
  spaces : list BlankSpace;
  filter : option BlankSpace;
  hard_filter : bool
}.

(** [UnknownWord(spaces, filter=None, hard_filter=False)]. *)
Definition __init__ (spaces : list BlankSpace) (filter : option BlankSpace)
    (hard_filter : bool) : result t :=
  let spaces := map deepcopy spaces in
  let filter := match filter with None => None | Some f => Some (deepcopy f) end in
  match filter with
  | Some f =>
      if negb (BlankSpace.bracketed f) then
        Raise (ValueError (py "A filter must be bracketed"))
      else Ok (Build spaces filter hard_filter)
  | None => Ok (Build spaces filter hard_filter)
  end.

Definition has_filter (self : t) : bool :=
  match filter self with Some _ => true | None => false end.

Definition is_determinant (self : t) : bool :=
  forallb BlankSpace.is_determinant (spaces self).

(** One turn of the loop of [_calc_length_bounds]. *)
Definition length_bounds_step (acc : Z * Z) (space : BlankSpace) : Z * Z :=
  let '(calc_min, calc_max) := acc in
  (calc_min + BlankSpace.min_blanks space,
   if (calc_max =? -1) || (BlankSpace.max_blanks space =? -1) then -1
   else calc_max + BlankSpace.max_blanks space).

Definition _calc_length_bounds (self : t) : Z * Z :=
  fold_left length_bounds_step (spaces self) (0, 0).

Definition min_letters (self : t) : Z :=
  let calc_min := fst (_calc_length_bounds self) in
  match filter self with
  | None => calc_min
  | Some f => Z.max calc_min (BlankSpace.min_blanks f)
  end.

Definition max_letters (self : t) : Z :=
  let calc_max := snd (_calc_length_bounds self) in
  match filter self with
  | None => calc_max
  | Some f =>
      if (calc_max =? -1) || (BlankSpace.max_blanks f =? -1)
      then Z.max calc_max (BlankSpace.max_blanks f)
      else Z.min calc_max (BlankSpace.max_blanks f)
  end.

Definition is_possible (self : t) : bool :=
  let '(calc_min, calc_max) := _calc_length_bounds self in
  match filter self with
  | None => true
  | Some f =>
      ((BlankSpace.min_blanks f <=? calc_min) && (calc_min <=? BlankSpace.max_blanks f))
      || ((BlankSpace.min_blanks f <=? calc_max) && (calc_max <=? BlankSpace.max_blanks f))
  end.

Definition get_effective_spaces (self : t) : list BlankSpace :=
  match filter self with
  | None => spaces self
  | Some f =>
      map (fun s => BlankSpace.with_filter s
                      (of_set (BlankSpace.possible_characters f))
                      (hard_filter self))
          (spaces self)
  end.

(** [self[item]] for an integer [item]. *)
Definition __getitem__ (self : t) (item : Z) : result BlankSpace :=
  list_getitem (spaces self) item.

Definition __len__ (self : t) : Z := Z.of_nat (length (spaces self)).

Definition get_effective_space (self : t) (index : Z) : result BlankSpace :=
  match filter self with
  | None => __getitem__ self index
  | Some f =>
      s ← __getitem__ self index;
      Ok (BlankSpace.with_filter s (of_set (BlankSpace.possible_characters f))
            (hard_filter self))
  end.

Definition without_space (self : t) (index : Z) : result t :=
  cut ← __getitem__ self index;
  new_filter ←
    match filter self with
    | Some f =>
        f' ← BlankSpace.clone_minus f (BlankSpace.min_blanks cut)
               (Some (BlankSpace.max_blanks cut));
        Ok (Some f')
    | None => Ok None
    end;
  __init__ (list_slice (spaces self) None (Some index)
              ++ list_slice (spaces self) (Some (index + 1)) None)
    new_filter (hard_filter self).

(** [self.filter.clone_minus() if self.has_filter else None]. *)
Definition filter_minus_one (self : t) : result (option BlankSpace) :=
  match filter self with
  | Some f => f' ← BlankSpace.clone_minus f 1 None; Ok (Some f')
  | None => Ok None
  end.

Definition without_first_letter (self : t) : result (option t) :=
  let '(calc_min, calc_max) := _calc_length_bounds self in
  if calc_max =? 0 then Ok None
  else if calc_max =? 1 then
    new_filter ← filter_minus_one self;
    w ← __init__ [] new_filter (hard_filter self);
    Ok (Some w)
  else
    first ← __getitem__ self 0;
    let skip_first := map deepcopy (list_slice (spaces self) (Some 1) None) in
    filter_minus_one ← filter_minus_one self;
    if BlankSpace.max_blanks first =? 0 then
      w ← __init__ skip_first (filter self) (hard_filter self);
      Ok (Some w)
    else if BlankSpace.max_blanks first =? 1 then
      w ← __init__ skip_first filter_minus_one (hard_filter self);
      Ok (Some w)
    else
      first' ← BlankSpace.clone_minus first 1 None;
      w ← __init__ ([first'] ++ skip_first) filter_minus_one (hard_filter self);
      Ok (Some w).

Definition __repr__ (self : t) : str :=
  let res := join (map BlankSpace.__repr__ (spaces self)) in
  match filter self with
  | None => res
  | Some f =>
      let filter_str := BlankSpace.__repr__ f in
      let open_bracket := if hard_filter self then py "{" else py "(" in
      let close_bracket := if hard_filter self then py "}" else py ")" in
      res ++ open_bracket ++ py_slice filter_str (Some 1) (Some (-1)) ++ close_bracket
  end.

End UnknownWord.

Abbreviation UnknownWord := UnknownWord.t.


(** ** [parsers.py] *)

Definition _BRACKET_MATCHES (c : ascii) : option ascii :=
  if ascii_eqb c "[" then Some "]"%char
  else if ascii_eqb c "{" then Some "}"%char
  else if ascii_eqb c "(" then Some ")"%char
  else None.

(** The text of the [ValueError] raised by [_raise_parse_error]: it carries
    the class name, the input, the message and the index. *)
Definition parse_error_message (class_name unknown msg : str) (index : Z) : str :=
  py "Could not parse " ++ class_name ++ py " from " ++ unknown ++ py ": "
    ++ msg ++ py " (index " ++ str_of_Z index ++ py ")".

Definition _raise_parse_error {A : Type} (class_name unknown msg : str) (index : Z)
    : result A :=
  Raise (ValueError (parse_error_message class_name unknown msg index)).

(** [s[i]] as a statement that may raise. *)
Definition getitem (s : str) (i : Z) : result ascii :=
  match py_index s i with
  | Some c => Ok c
  | None => Raise (IndexError (py "string index out of range"))
  end.

(** The loop reading the digits of the maximum, entered at a digit: [rest]
    is [unknown[index:]]. *)
Fixpoint scan_max (rest : str) (maxlen index : Z) : Z * Z :=
  match rest with
  | [] => (maxlen, index)
  | c :: rest' =>
      if is_digit c then scan_max rest' (maxlen * 10 + digit_val c) (index + 1)
      else (maxlen, index)
  end.

(** The loop appending letters to [res]: [rest] is [unknown[index:]]; the
    loop returns [res] at the end of the text and stops with a parse error
    at the first character that is not a letter. *)
Fixpoint scan_letters (string rest : str) (res : BlankSpace) (index : Z)
    : result BlankSpace :=
  match rest with
  | [] => Ok res
  | c :: rest' =>
      if is_lower c then
        scan_letters string rest' (BlankSpace.append res [c]) (index + 1)
      else
        _raise_parse_error (py "BlankSpace") string
          (py "Unexpected character: " ++ [c]) (index + 1)
  end.

(** [parse_blank_space], lines 36-46: the minimum.  Answers [minlen],
    [index] and the current character [c]. *)
Definition parse_min (string unknown : str) : result (Z * Z * ascii) :=
  let index := 0 in
  let minlen := 1 in
  c ← getitem unknown index;
  if is_digit c then
    let index := find unknown "," in
    if index =? -1 then
      _raise_parse_error (py "BlankSpace") string
        (py "Missing comma in length bounds") (len unknown + 1)
    else
      match py_int (py_slice unknown None (Some index)) with
      | None =>
          _raise_parse_error (py "BlankSpace") string
            (py "Could not parse a minimum bound from "
               ++ py_slice unknown None (Some index))
            (index + 1)
      | Some minlen => c ← getitem unknown index; Ok (minlen, index, c)
      end
  else Ok (minlen, index, c).

(** [parse_blank_space], lines 47-65: the comma and the maximum.  Answers
    [minlen], [maxlen] and [index]. *)
Definition parse_max (unknown : str) (minlen maxlen index : Z) (c : ascii)
    : result (Z * Z * Z) :=
  if ascii_eqb c "," then
    let minlen := if index =? 0 then 0 else minlen in
    let index := index + 1 in
    if index <? len unknown then
      c ← getitem unknown index;
      if is_digit c then
        let '(maxlen, index) :=
          scan_max (py_slice unknown (Some index) None) 0 index in
        Ok (minlen, maxlen, index)
      else Ok (minlen, -1, index)
    else Ok (minlen, -1, index)
  else Ok (minlen, maxlen, index).

(** [parse_blank_space], lines 66-89: the bounds check and the characters. *)
Definition parse_chars (string unknown : str) (minlen maxlen index : Z)
    : result (option BlankSpace) :=
  if (-1 <? maxlen) && (maxlen <? minlen) then
    _raise_parse_error (py "BlankSpace") string
      (py "Lower bound (" ++ str_of_Z minlen
         ++ py ") cannot be more than upper bound (" ++ str_of_Z maxlen ++ py ")")
      (index + 1)
  else if index <? len unknown then
    c ← getitem unknown index;
    let '(negated, index) :=
      if char_in c (py "^!") then (true, index + 1) else (false, index) in
    if index <? len unknown then
      let res := BlankSpace.__init__ true negated minlen maxlen (Str []) in
      res ← scan_letters string (py_slice unknown (Some index) None) res index;
      Ok (Some res)
    else
      Ok (Some (BlankSpace.__init__ true negated minlen maxlen (Str [])))
  else
    Ok (Some (BlankSpace.__init__ true false minlen maxlen (of_set all_character_set))).

(** [parse_blank_space], lines 31-89: what is read between the brackets. *)
Definition parse_inner (string unknown : str) (is_filter : bool)
    : result (option BlankSpace) :=
  let maxlen := if is_filter then -1 else 1 in
  '(minlen, index, c) ← parse_min string unknown;
  '(minlen, maxlen, index) ← parse_max unknown minlen maxlen index c;
  parse_chars string unknown minlen maxlen index.

Definition parse_blank_space (string : option str) : result (option BlankSpace) :=
  match string with
  | None => Ok None
  | Some string =>
      if len string =? 0 then Ok None else
      let unknown := lower string in
      if len unknown =? 1 then
        if bool_decide (unknown = py "_") then
          Ok (Some (BlankSpace.__init__ false false 1 1 (Str [])))
        else if forallb is_lower unknown then
          Ok (Some (BlankSpace.__init__ false false 1 1 (Str unknown)))
        else
          _raise_parse_error (py "BlankSpace") string
            (py "Single-character BlankSpace must be a letter or underscore") 0
      else
        bracket ← getitem unknown 0;
        match _BRACKET_MATCHES bracket with
        | None =>
            _raise_parse_error (py "BlankSpace") string
              (py "Multiple character BlankSpace must start with [, {, or (") 0
        | Some closing =>
            end_bracket ← getitem unknown (-1);
            if negb (ascii_eqb end_bracket closing) then
              _raise_parse_error (py "BlankSpace") string
                (py "Last character must match the starting bracket") (len unknown - 1)
            else
              let unknown := py_slice unknown (Some 1) (Some (-1)) in
              if len unknown =? 0 then
                _raise_parse_error (py "BlankSpace") string
                  (py "Missing characters inside bracket") 1
              else parse_inner string unknown (negb (ascii_eqb bracket "["))
        end
  end.

(** [UnknownWord(spaces, filter, hard_filter)] at the end of
    [parse_unknown_word].  The local list holds what [parse_blank_space]
    returned, which is optional; the loop never ends with a missing entry
    (lemma [parse_loop_spaces] below), and the model answers a [ValueError]
    in that unreachable case. *)
Definition build_unknown_word (spaces : list (option BlankSpace))
    (filter : option BlankSpace) (hard_filter : bool) : result (option UnknownWord) :=
  match mapM id spaces with
  | Some spaces => w ← UnknownWord.__init__ spaces filter hard_filter; Ok (Some w)
  | None => Raise (ValueError (py "a space is None"))
  end.

(** The [while] loop of [parse_unknown_word]; [budget] bounds the number of
    turns and [None] means the bound was reached. *)
Fixpoint parse_loop (budget : nat) (string unknown : str)
    (spaces : list (option BlankSpace)) (filter : option BlankSpace)
    (hard_filter : bool) (index : Z) : option (result (option UnknownWord)) :=
  match budget with
  | O => None
  | S budget' =>
      if index <? len unknown then
        match getitem unknown index with
        | Raise e => Some (Raise e)
        | Ok c =>
            if ascii_eqb c "_" || is_lower c then
              match parse_blank_space (Some [c]) with
              | Raise e => Some (Raise e)
              | Ok space =>
                  parse_loop budget' string unknown (spaces ++ [space])
                    filter hard_filter (index + 1)
              end
            else
              match _BRACKET_MATCHES c with
              | Some end_bracket =>
                  let end_index :=
                    find (py_slice unknown (Some index) None) end_bracket + index in
                  match parse_blank_space
                          (Some (py_slice unknown (Some index) (Some (end_index + 1)))) with
                  | Raise e => Some (Raise e)
                  | Ok space =>
                      let index := end_index in
                      if ascii_eqb c "[" then
                        parse_loop budget' string unknown (spaces ++ [space])
                          filter hard_filter (index + 1)
                      else
                        let filter := space in
                        let hard_filter := ascii_eqb c "{" in
                        if negb (index =? len unknown - 1) then
                          Some (_raise_parse_error (py "UnknownWord") string
                                  (py "Filter must be at the end of the word") index)
                        else
                          parse_loop budget' string unknown spaces
                            filter hard_filter (index + 1)
                  end
              | None =>
                  Some (_raise_parse_error (py "UnknownWord") string
                          (py "Unexpected character: " ++ [c]) index)
              end
        end
      else Some (build_unknown_word spaces filter hard_filter)
  end.

Definition parse_unknown_word (budget : nat) (string : option str)
    : option (result (option UnknownWord)) :=
  match string with
  | None => Some (Ok None)
  | Some string =>
      if len string =? 0 then Some (Ok None)
      else parse_loop budget string (lower string) [] None false 0
  end.

(** ** Matching a word pattern against a trie *)

(** Modelled from the spec: the repository has no function that runs a whole
    pattern; section 4.4 of the specification composes
    [get_possible_children] over the effective spaces in sequence, threading
    the current nodes through each space, and keeps the final nodes that
    are words.  [match_space] runs one space from every current node. *)
Fixpoint match_space (depth : nat) (space : BlankSpace)
    (nodes : list DictionaryNode.ref) : option (result (list DictionaryNode.ref)) :=
  match nodes with
  | [] => Some (Ok [])
  | n :: nodes' =>
      match DictionaryNode.get_possible_children depth n space with
      | Some (Ok found) =>
          match match_space depth space nodes' with
          | Some (Ok more) => Some (Ok (found ++ more))
          | other => other
          end
      | other => other
      end
  end.

(** Modelled from the spec: the spaces of a pattern, one after the other. *)
Fixpoint match_spaces (depth : nat) (spaces : list BlankSpace)
    (nodes : list DictionaryNode.ref) : option (result (list DictionaryNode.ref)) :=
  match spaces with
  | [] => Some (Ok nodes)
  | space :: spaces' =>
      match match_space depth space nodes with
      | Some (Ok nodes') => match_spaces depth spaces' nodes'
      | other => other
      end
  end.

(** Modelled from the spec: [match_pattern(pattern, trie_root)], the words
    of the final nodes marked [is_word]. *)
Definition match_pattern (depth : nat) (pattern : UnknownWord) (root : DictionaryNode)
    : option (result (list str)) :=
  match match_spaces depth (UnknownWord.get_effective_spaces pattern) [([], root)] with
  | Some (Ok nodes) =>
      Some (Ok (map fst (List.filter (fun n => DictionaryNode.is_word (snd n)) nodes)))
  | Some (Raise e) => Some (Raise e)
  | None => None
  end.


(** ** Predicates used in the statements *)

(** The bounds invariant of the data model. *)
Definition bounds_ok (s : BlankSpace) : Prop :=
  BlankSpace.max_blanks s = -1 \/ BlankSpace.min_blanks s <= BlankSpace.max_blanks s.

(** The condition under which [apply_filter] narrows the class. *)
Definition filter_applies (self : BlankSpace) (hard : bool) : bool :=
  (hard && (BlankSpace.bracketed self
            || (1 <? Z.of_nat (size (BlankSpace.possible_characters self)))))
  || (negb hard && negb (BlankSpace.bracketed self)
      && (1 <? Z.of_nat (size (BlankSpace.possible_characters self)))).

(** The errors raised through [_raise_parse_error]. *)
Definition is_parse_error (e : exn) : Prop :=
  exists class_name unknown msg index,
    e = ValueError (parse_error_message class_name unknown msg index).

(** What a run of the parser may end with: a value satisfying [P], a parse
    error, or an [IndexError] of a subscript. *)
Definition parser_outcome {A : Type} (P : A -> Prop) (r : result A) : Prop :=
  match r with
  | Ok a => P a
  | Raise e => is_parse_error e \/ exists msg, e = IndexError msg
  end.

(** The words of the example trie and the example pattern. *)
Definition example_words : list str := [py "cat"; py "ca"; py "caat"; py "cab"].
Definition example_pattern : str := py "c[1,2a]t".

(** The bound on the recursion depth of [get_possible_children]: the depth
    of the trie below the node, and [max_blanks] as well when it is a
    number of repetitions. *)
Definition depth_bound (self : DictionaryNode) (space : BlankSpace) : Z :=
  if 0 <=? BlankSpace.max_blanks space
  then Z.min (BlankSpace.max_blanks space) (DictionaryNode.max_layers_below self)
  else DictionaryNode.max_layers_below self.

(** The loop of [max_layers_below] over the children, as a fold. *)
Definition max_over (cs : list (ascii * DictionaryNode)) (max_layers : Z) : Z :=
  fold_left (fun acc kc => Z.max acc (DictionaryNode.max_layers_below (snd kc)))
    cs max_layers.

(** The number read from the decimal digits [ds] after [acc]. *)
Definition decimal_value (ds : str) (acc : Z) : Z :=
  fold_left (fun a c => a * 10 + digit_val c) ds acc.

(** A class in canonical form: its characters are letters of the alphabet,
    its bounds satisfy the invariants of the data model, it allows at least
    one character unless it is written by exclusion, and when it is
    rendered bare (unbracketed, one letter or the whole alphabet) it stands
    for exactly one repetition, as a bare letter or underscore does. *)
Definition canonical (s : BlankSpace) : Prop :=
  BlankSpace.possible_characters s ⊆ all_character_set
  /\ 0 <= BlankSpace.min_blanks s
  /\ (BlankSpace.max_blanks s = -1
      \/ BlankSpace.min_blanks s <= BlankSpace.max_blanks s)
  /\ (BlankSpace.negated s = false -> BlankSpace.possible_characters s <> ∅)
  /\ (BlankSpace.bracketed s = false -> BlankSpace.negated s = false ->
      (size (BlankSpace.possible_characters s) = 1
       \/ size (BlankSpace.possible_characters s) = 26)%nat ->
      BlankSpace.min_blanks s = 1 /\ BlankSpace.max_blanks s = 1).

(** Two classes are equivalent when they allow the same characters, have
    the same bounds and the same negation flag. *)
Definition equivalent (s1 s2 : BlankSpace) : Prop :=
  BlankSpace.possible_characters s1 = BlankSpace.possible_characters s2
  /\ BlankSpace.min_blanks s1 = BlankSpace.min_blanks s2
  /\ BlankSpace.max_blanks s1 = BlankSpace.max_blanks s2
  /\ BlankSpace.negated s1 = BlankSpace.negated s2.

(** A text made of decimal digits. *)
Definition all_digits (ds : str) : Prop := Forall (fun c => is_digit c = true) ds.

(** A text made of letters of the alphabet. *)
Definition all_letters (ls : str) : Prop := Forall (fun c => c ∈ all_character_set) ls.

(** The characters part of the bracketed rendering, as [__repr__] computes
    it ([char_str]). *)
Definition char_str (self : BlankSpace) : str :=
  if BlankSpace.negated self then
    py "^" ++ join (map (fun c => [c])
                      (elements (all_character_set ∖ BlankSpace.possible_characters self)))
  else if negb (BlankSpace.is_all_chars self) then
    join (map (fun c => [c])
            (BlankSpace.sorted (elements (BlankSpace.possible_characters self))))
  else ascii_lowercase.

(** The bracketed rendering: [__repr__] from its line [if self.negated] on. *)
Definition bracket_repr (self : BlankSpace) : str :=
  if (BlankSpace.min_blanks self =? BlankSpace.max_blanks self)
     && (BlankSpace.max_blanks self =? 1)
  then py "[" ++ char_str self ++ py "]"
  else
    py "["
      ++ (if BlankSpace.min_blanks self =? 0 then []
          else str_of_Z (BlankSpace.min_blanks self))
      ++ py ","
      ++ (if BlankSpace.max_blanks self =? -1 then []
          else str_of_Z (BlankSpace.max_blanks self))
      ++ (if bool_decide (char_str self = ascii_lowercase) then [] else char_str self)
      ++ py "]".

(** The shape of a characters part: letters, or [^] and letters. *)
Definition chars_shape (negated : bool) (cs : str) (chars : gset ascii) : Prop :=
  if negated then
    exists ls, cs = "^"%char :: ls /\ all_letters ls
               /\ all_character_set ∖ list_to_set ls = chars
  else all_letters cs /\ cs <> [] /\ list_to_set cs = chars.

(** The rendering of one bound and the number it stands for: nothing for
    the default, decimal digits otherwise. *)
Definition bound_text (text : str) (value default : Z) : Prop :=
  (text = [] /\ value = default)
  \/ (all_digits text /\ text <> [] /\ decimal_value text 0 = value).

(** A computation that, when it returns, returns a value satisfying [P]. *)
Definition returns {A : Type} (P : A -> Prop) (r : result A) : Prop :=
  match r with
  | Ok a => P a
  | Raise _ => True
  end.

(** Whether the node reached from [self] along [path] exists and is marked
    as a word. *)
Definition word_at (self : DictionaryNode) (path : str) : bool :=
  match DictionaryNode.get_child self path with
  | Some n => DictionaryNode.is_word n
  | None => false
  end.

(** No node stores two children under the same letter, as in a [dict]. *)
Fixpoint unique_keys (self : DictionaryNode) : Prop :=
  match self with
  | DictionaryNode.Build _ m =>
      NoDup (map fst m)
      /\ (fix all (cs : list (ascii * DictionaryNode)) : Prop :=
            match cs with
            | [] => True
            | (_, c) :: cs' => unique_keys c /\ all cs'
            end) m
  end.

(** The texts a space stands for: letters of its set, in a number between
    its bounds; a negative [max_blanks] never stops the descent. *)
Definition path_matches (space : BlankSpace) (p : str) : Prop :=
  Forall (fun c => c ∈ BlankSpace.possible_characters space) p
  /\ BlankSpace.min_blanks space <= len p
  /\ (BlankSpace.max_blanks space < 0 \/ len p <= BlankSpace.max_blanks space).

(** The sums of the bounds of a list of spaces, and whether one of them has
    no upper bound. *)
Definition sum_min (spaces : list BlankSpace) : Z :=
  fold_right (fun s acc => BlankSpace.min_blanks s + acc) 0 spaces.

Definition sum_max (spaces : list BlankSpace) : Z :=
  fold_right (fun s acc => BlankSpace.max_blanks s + acc) 0 spaces.

Definition has_unbounded (spaces : list BlankSpace) : bool :=
  existsb (fun s => BlankSpace.max_blanks s =? -1) spaces.

(** A length [k] within a maximum that is a number or the sentinel [-1]. *)
Definition within_max (k maximum : Z) : Prop := maximum = -1 \/ k <= maximum.

(** A space that can take a letter: its minimum is not negative and its
    maximum is [-1] or a number from 1 on, not below the minimum. *)
Definition takes_a_letter (s : BlankSpace) : Prop :=
  0 <= BlankSpace.min_blanks s
  /\ (BlankSpace.max_blanks s = -1
      \/ (1 <= BlankSpace.max_blanks s
          /\ BlankSpace.min_blanks s <= BlankSpace.max_blanks s)).

(** The position a list index stands for. *)
Definition position {A : Type} (l : list A) (index : Z) : nat :=
  Z.to_nat (if index <? 0 then index + Z.of_nat (length l) else index).

(** A space with the invariants of the data model: a minimum that is not
    negative and a maximum that is [-1] or not below the minimum. *)
Definition well_formed (s : BlankSpace) : Prop :=
  0 <= BlankSpace.min_blanks s /\ bounds_ok s.

(** [s'] is [s] with one letter less: the same characters, the minimum
    lowered by one but not below 0, the maximum lowered by one unless it is
    the sentinel [-1]. *)
Definition one_less (s s' : BlankSpace) : Prop :=
  BlankSpace.possible_characters s' = BlankSpace.possible_characters s
  /\ BlankSpace.min_blanks s' = Z.max 0 (BlankSpace.min_blanks s - 1)
  /\ BlankSpace.max_blanks s'
     = (if BlankSpace.max_blanks s =? -1 then -1 else BlankSpace.max_blanks s - 1).

(** A filter that [clone_minus] and the constructor of [UnknownWord]
    accept: bracketed, with a maximum other than 0. *)
Definition usable_filter (f : BlankSpace) : Prop :=
  BlankSpace.bracketed f = true /\ BlankSpace.max_blanks f <> 0.

(** What a run of the parser ends with when no subscript fails: a value
    satisfying [P], or a parse error. *)
Definition parse_result {A : Type} (P : A -> Prop) (r : result A) : Prop :=
  match r with
  | Ok a => P a
  | Raise e => is_parse_error e
  end.

(** A word as the parser builds it: canonical spaces and, when there is a
    filter, a canonical and bracketed one. *)
Definition parsed_word (w : UnknownWord) : Prop :=
  Forall canonical (UnknownWord.spaces w)
  /\ match UnknownWord.filter w with
     | Some f => canonical f /\ BlankSpace.bracketed f = true
     | None => True
     end.

(** The characters [parse_unknown_word] reads as a space of their own: the
    underscore and the letters of the alphabet. *)
Definition plain_char (c : ascii) : bool := ascii_eqb c "_" || is_lower c.

(** The space a plain character stands for: any letter once for the
    underscore, the letter itself once otherwise. *)
Definition bare_space (c : ascii) : BlankSpace :=
  BlankSpace.Build (if ascii_eqb c "_" then all_character_set else {[ c ]})
    1 1 false false.

(** * Properties *)

(** ** Sanity checks of the string helpers *)

Example str_of_Z_120 : str_of_Z 120 = py "120".
Proof. reflexivity. Qed.

Example str_of_Z_neg : str_of_Z (-7) = py "-7".
Proof. reflexivity. Qed.

Example py_int_ok : py_int (py " 1_0 ") = Some 10.
Proof. reflexivity. Qed.

Example py_slice_example : py_slice (py "[abc]") (Some 1) (Some (-1)) = py "abc".
Proof. reflexivity. Qed.

Example repr_a : BlankSpace.__repr__ (BlankSpace.__init__ true false 3 5 (Str (py "cab"))) = py "[3,5abc]".
Proof. vm_compute. reflexivity. Qed.

Example repr_neg : BlankSpace.__repr__ (BlankSpace.__init__ true true 0 (-1) (Str (py "ab"))) = py "[,^ab]".
Proof. vm_compute. reflexivity. Qed.

Example repr_us : BlankSpace.__repr__ (BlankSpace.__init__ false false 1 1 (Str [])) = py "_".
Proof. vm_compute. reflexivity. Qed.

Example parse_3_5_abc :
  parse_blank_space (Some (py "[3,5abc]"))
  = Ok (Some (BlankSpace.Build (list_to_set (py "abc")) 3 5 false true)).
Proof. vm_compute. reflexivity. Qed.

Example parse_word_example :
  parse_unknown_word 10 (Some (py "c[1,2a]t"))
  = Some (Ok (Some (UnknownWord.Build
       [BlankSpace.Build {["c"%char]} 1 1 false false;
        BlankSpace.Build {["a"%char]} 1 2 false true;
        BlankSpace.Build {["t"%char]} 1 1 false false] None false))).
Proof. vm_compute. reflexivity. Qed.

Example parse_filter_example :
  parse_unknown_word 10 (Some (py "ab_{abc}"))
  = Some (Ok (Some (UnknownWord.Build
       [BlankSpace.Build {["a"%char]} 1 1 false false;
        BlankSpace.Build {["b"%char]} 1 1 false false;
        BlankSpace.Build all_character_set 1 1 false false]
       (Some (BlankSpace.Build (list_to_set (py "abc")) 1 (-1) false true)) true))).
Proof. vm_compute. reflexivity. Qed.

Example parse_bounds_only :
  parse_blank_space (Some (py "[2,]"))
  = Ok (Some (BlankSpace.Build all_character_set 2 (-1) false true)).
Proof. vm_compute. reflexivity. Qed.

Example parse_min_above_max :
  parse_blank_space (Some (py "[5,2a]"))
  = _raise_parse_error (py "BlankSpace") (py "[5,2a]")
      (py "Lower bound (5) cannot be more than upper bound (2)") 4.
Proof. vm_compute. reflexivity. Qed.

Example trie_example :
  create_dict_trie [py "cat"; py "ca"; py "caat"; py "cab"]
  = Ok (DictionaryNode.Build false
      [("c"%char, DictionaryNode.Build false
        [("a"%char, DictionaryNode.Build true
          [("t"%char, DictionaryNode.Build true []);
           ("a"%char, DictionaryNode.Build false
             [("t"%char, DictionaryNode.Build true [])]);
           ("b"%char, DictionaryNode.Build true [])])])]).
Proof. vm_compute. reflexivity. Qed.


(** ** BlankSpace: construction, [clone_minus], filters *)

Section BlankSpaceFacts.

Import BlankSpace.

Lemma join_singletons (l : str) : join (map (fun c => [c]) l) = l.
Proof.
  unfold join. induction l as [|c l IH]; simpl; [reflexivity|].
  now rewrite IH.
Qed.

Lemma chars_text_of_set (s : gset ascii) :
  (list_to_set (chars_text (of_set s)) : gset ascii) = s.
Proof.
  unfold of_set. simpl. rewrite join_singletons.
  apply list_to_set_elements_L.
Qed.

Lemma init_min b n mn mx cs : min_blanks (__init__ b n mn mx cs) = mn.
Proof. unfold __init__, append, negated, remove, add. simpl. now destruct n. Qed.

Lemma init_max b n mn mx cs : max_blanks (__init__ b n mn mx cs) = mx.
Proof. unfold __init__, append, negated, remove, add. simpl. now destruct n. Qed.

Lemma init_negated b n mn mx cs : negated (__init__ b n mn mx cs) = n.
Proof. unfold __init__, append, negated, remove, add. simpl. now destruct n. Qed.

Lemma init_bracketed b n mn mx cs : bracketed (__init__ b n mn mx cs) = b.
Proof. unfold __init__, append, negated, remove, add. simpl. now destruct n. Qed.

Lemma init_eq b n mn mx cs :
  __init__ b n mn mx cs
  = Build (if n
           then (if (negb b && is_empty_str cs) || n then all_character_set else ∅)
                ∖ list_to_set (chars_text cs)
           else (if (negb b && is_empty_str cs) || n then all_character_set else ∅)
                ∪ list_to_set (chars_text cs))
      mn mx n b.
Proof.
  unfold __init__, append, negated, remove, add, set_possible_characters.
  cbn [_negated min_blanks max_blanks bracketed possible_characters].
  now destruct n.
Qed.

Lemma init_no_chars b n mn mx :
  __init__ b n mn mx (Str [])
  = Build (if negb b || n then all_character_set else ∅) mn mx n b.
Proof.
  unfold __init__, append, negated, remove, add, set_possible_characters.
  simpl. rewrite andb_true_r.
  destruct n; simpl; f_equal.
  - rewrite orb_true_r. set_solver.
  - rewrite orb_false_r. destruct b; simpl; set_solver.
Qed.

Lemma clone_minus_eq (self : BlankSpace) (sub_min : Z) (sub_max : option Z) :
  clone_minus self sub_min sub_max
  = if max_blanks self =? 0
    then Raise (ValueError (py "Cannot create a new BlankSpace with less spaces than none"))
    else Ok (Build (possible_characters self)
               (Z.max 0 (min_blanks self - default sub_min sub_max))
               (if max_blanks self =? -1 then -1 else max_blanks self - sub_min)
               (negated self) (bracketed self)).
Proof.
  unfold clone_minus, is_empty.
  destruct (max_blanks self =? 0); [reflexivity|].
  rewrite init_no_chars. unfold set_possible_characters. simpl.
  now destruct sub_max.
Qed.

End BlankSpaceFacts.

(** C3, the claim as stated fails: the constructor accepts a finite maximum
    below the minimum and returns an instance that breaks the bounds
    invariant. *)
Lemma C3_constructor_accepts_max_below_min :
  exists s : BlankSpace,
    BlankSpace.__init__ true false 5 2 (Str []) = s
    /\ ~ bounds_ok s.
Proof.
  eexists. split; [reflexivity|].
  unfold bounds_ok. rewrite init_min, init_max. lia.
Qed.

(** C3, amended: the constructor makes no bounds check.  For every
    combination of flags, every character argument and every
    [min_blanks > max_blanks >= 0] it returns an instance that stores the
    two bounds as given, hence one that breaks the bounds invariant. *)
Theorem C3_constructor_stores_bounds
    (bracketed negated : bool) (min_blanks max_blanks : Z) (chars : chars_arg)
    (Hmax : 0 <= max_blanks) (Hlt : max_blanks < min_blanks) :
  let s := BlankSpace.__init__ bracketed negated min_blanks max_blanks chars in
  BlankSpace.min_blanks s = min_blanks
  /\ BlankSpace.max_blanks s = max_blanks
  /\ BlankSpace.bracketed s = bracketed
  /\ BlankSpace.negated s = negated
  /\ ~ bounds_ok s.
Proof.
  intros s. subst s. unfold bounds_ok.
  rewrite init_min, init_max, init_bracketed, init_negated.
  repeat split; lia.
Qed.

Lemma C3_constructor_stores_bounds_witness :
  let s := BlankSpace.__init__ true false 5 2 (Str (py "ab")) in
  BlankSpace.min_blanks s = 5
  /\ BlankSpace.max_blanks s = 2
  /\ BlankSpace.bracketed s = true
  /\ BlankSpace.negated s = false
  /\ ~ bounds_ok s.
Proof.
  apply (C3_constructor_stores_bounds true false 5 2 (Str (py "ab"))); lia.
Defined.

(** C5, the claim as stated fails: [clone_minus(3, 6)] on a class with
    bounds 5 and 10 does not give the bounds 0 and 4. *)
Lemma C5_clone_minus_3_6_not_0_4 :
  ~ (exists r : BlankSpace,
       BlankSpace.clone_minus
         (BlankSpace.__init__ true false 5 10 (Str (py "abc"))) 3 (Some 6) = Ok r
       /\ BlankSpace.min_blanks r = 0 /\ BlankSpace.max_blanks r = 4).
Proof.
  intros (r & Hr & _ & Hmax).
  rewrite clone_minus_eq, init_max in Hr. simpl in Hr.
  inversion Hr; subst r. simpl in Hmax. lia.
Qed.

(** C5, amended: [clone_minus(3, 6)] applied to a class with [min_blanks = 5]
    and [max_blanks = 10] yields a class with [min_blanks = 0] and
    [max_blanks = 7] (the maximum loses [sub_min], the minimum loses
    [sub_max]), with the same characters and flags. *)
Theorem C5_clone_minus_3_6 (chars : gset ascii) (negated bracketed : bool) :
  BlankSpace.clone_minus (BlankSpace.Build chars 5 10 negated bracketed) 3 (Some 6)
  = Ok (BlankSpace.Build chars 0 7 negated bracketed).
Proof. rewrite clone_minus_eq. reflexivity. Qed.

(** C6: [clone_minus] raises when [max_blanks = 0]; otherwise it returns a
    class with [new_min = max(0, min_blanks - sub_max)], with
    [new_max = -1] when [max_blanks = -1] and [max_blanks - sub_min]
    otherwise, and with the same character set; [sub_max] left out stands
    for [sub_min].  A class with bounds 3 and 5 reduced by (1, 1) has
    bounds 2 and 4. *)
Theorem C6_clone_minus_spec (self : BlankSpace) (sub_min : Z) (sub_max : option Z) :
  BlankSpace.clone_minus self sub_min sub_max
  = (if BlankSpace.max_blanks self =? 0
     then Raise (ValueError (py "Cannot create a new BlankSpace with less spaces than none"))
     else Ok (BlankSpace.Build
                (BlankSpace.possible_characters self)
                (Z.max 0 (BlankSpace.min_blanks self - default sub_min sub_max))
                (if BlankSpace.max_blanks self =? -1 then -1
                 else BlankSpace.max_blanks self - sub_min)
                (BlankSpace.negated self) (BlankSpace.bracketed self)))
  /\ (forall chars negated bracketed,
        BlankSpace.clone_minus (BlankSpace.Build chars 3 5 negated bracketed) 1 (Some 1)
        = Ok (BlankSpace.Build chars 2 4 negated bracketed)).
Proof.
  split; [apply clone_minus_eq|].
  intros. rewrite clone_minus_eq. reflexivity.
Qed.

Lemma apply_filter_chars (self : BlankSpace) (filter_chars : chars_arg) (hard : bool) :
  BlankSpace.possible_characters (BlankSpace.apply_filter self filter_chars hard)
  = if filter_applies self hard
    then BlankSpace.possible_characters self
         ∖ (all_character_set ∖ list_to_set (chars_text filter_chars))
    else BlankSpace.possible_characters self.
Proof.
  unfold BlankSpace.apply_filter, filter_applies.
  match goal with |- context [if ?c then BlankSpace.remove _ _ else _] => destruct c end;
    [|reflexivity].
  unfold BlankSpace.remove. simpl. rewrite join_singletons.
  now rewrite list_to_set_elements_L.
Qed.

(** C7: on a class whose characters are letters of the alphabet,
    [apply_filter] (and [with_filter], on a copy) replaces the character
    set by its intersection with the filter set exactly when the filter is
    hard and the class is bracketed or allows more than one character, or
    the filter is soft and the class is unbracketed and allows more than one
    character; otherwise the set is unchanged; the other fields never
    change.  A soft filter leaves the bracketed class [[ab]] at {a, b}; the
    hard filter {b, c} narrows it to {b}. *)
Theorem C7_apply_filter_spec
    (self : BlankSpace) (filter_chars : chars_arg) (hard : bool)
    (Halpha : BlankSpace.possible_characters self ⊆ all_character_set) :
  let filter_set : gset ascii := list_to_set (chars_text filter_chars) in
  let applies :=
    (hard && (BlankSpace.bracketed self
              || (1 <? Z.of_nat (size (BlankSpace.possible_characters self)))))
    || (negb hard && negb (BlankSpace.bracketed self)
        && (1 <? Z.of_nat (size (BlankSpace.possible_characters self)))) in
  BlankSpace.apply_filter self filter_chars hard
  = BlankSpace.Build
      (if applies then BlankSpace.possible_characters self ∩ filter_set
       else BlankSpace.possible_characters self)
      (BlankSpace.min_blanks self) (BlankSpace.max_blanks self)
      (BlankSpace.negated self) (BlankSpace.bracketed self)
  /\ BlankSpace.with_filter self filter_chars hard
     = BlankSpace.apply_filter self filter_chars hard
  /\ (forall soft_chars,
        BlankSpace.possible_characters
          (BlankSpace.apply_filter
             (BlankSpace.__init__ true false 1 1 (Str (py "ab"))) soft_chars false)
        = {[ "a"%char; "b"%char ]})
  /\ BlankSpace.possible_characters
       (BlankSpace.apply_filter
          (BlankSpace.__init__ true false 1 1 (Str (py "ab"))) (Str (py "bc")) true)
     = {[ "b"%char ]}.
Proof.
  intros filter_set applies. split; [|split; [reflexivity|split]].
  - pose proof (apply_filter_chars self filter_chars hard) as Hc.
    fold (filter_applies self hard) in applies. fold applies in Hc. fold filter_set in Hc.
    assert (Hrest :
      BlankSpace.min_blanks (BlankSpace.apply_filter self filter_chars hard)
        = BlankSpace.min_blanks self
      /\ BlankSpace.max_blanks (BlankSpace.apply_filter self filter_chars hard)
        = BlankSpace.max_blanks self
      /\ BlankSpace.negated (BlankSpace.apply_filter self filter_chars hard)
        = BlankSpace.negated self
      /\ BlankSpace.bracketed (BlankSpace.apply_filter self filter_chars hard)
        = BlankSpace.bracketed self).
    { unfold BlankSpace.apply_filter.
      match goal with |- context [if ?c then BlankSpace.remove _ _ else _] => destruct c end;
        repeat split; reflexivity. }
    destruct Hrest as (H1 & H2 & H3 & H4).
    destruct (BlankSpace.apply_filter self filter_chars hard) as [pc mn mx ng br].
    unfold BlankSpace.negated in *. simpl in *. subst mn mx ng br. f_equal.
    rewrite Hc. destruct applies; [|reflexivity].
    clear Hc. subst filter_set.
    generalize dependent (list_to_set (chars_text filter_chars) : gset ascii).
    intros fs. apply set_eq. intros x.
    rewrite elem_of_intersection, !elem_of_difference.
    split; [intros [Hx Hn]|intros [Hx Hf]].
    + split; [exact Hx|]. destruct (decide (x ∈ fs)) as [|Hnf]; [assumption|].
      exfalso. apply Hn. split; [apply Halpha, Hx|exact Hnf].
    + split; [exact Hx|]. intros [_ Hnf]. exact (Hnf Hf).
  - intros soft_chars. rewrite apply_filter_chars.
    unfold filter_applies. rewrite init_bracketed. simpl.
    vm_compute. reflexivity.
  - vm_compute. reflexivity.
Qed.

Lemma C7_apply_filter_spec_witness :
  BlankSpace.possible_characters
    (BlankSpace.apply_filter
       (BlankSpace.__init__ true false 1 1 (Str (py "ab"))) (Str (py "bc")) true)
  = {[ "b"%char ]}.
Proof.
  assert (H : BlankSpace.possible_characters
                (BlankSpace.__init__ true false 1 1 (Str (py "ab")))
              ⊆ all_character_set)
    by (apply (bool_decide_eq_true_1 _); vm_compute; reflexivity).
  exact (proj2 (proj2 (proj2
    (C7_apply_filter_spec (BlankSpace.__init__ true false 1 1 (Str (py "ab")))
       (Str (py "bc")) true H)))).
Defined.


(** ** Empty input, feasibility, and one pattern run end to end *)

(** C10: on [None] and on the empty string both parsers return [None];
    no error is raised and no object is built, whatever the loop budget. *)
Theorem C10_empty_input_is_none :
  parse_blank_space None = Ok None
  /\ parse_blank_space (Some []) = Ok None
  /\ (forall budget, parse_unknown_word budget None = Some (Ok None))
  /\ (forall budget, parse_unknown_word budget (Some []) = Some (Ok None)).
Proof. repeat split. Qed.

(** C4, the code at the failing input: the pattern [ab_{abc}] has summed
    bounds 3 and 3 and a filter with bounds 1 and [-1] (no upper bound), so
    3 lies within the filter's interval, and yet [is_possible] is false:
    the comparison [calc <= max_blanks] is made against the sentinel [-1]. *)
Theorem C4_is_possible_unbounded_filter :
  exists (w : UnknownWord) (f : BlankSpace),
    parse_unknown_word 5 (Some (py "ab_{abc}")) = Some (Ok (Some w))
    /\ UnknownWord.filter w = Some f
    /\ BlankSpace.min_blanks f = 1
    /\ BlankSpace.max_blanks f = -1
    /\ UnknownWord._calc_length_bounds w = (3, 3)
    /\ UnknownWord.max_letters w = 3
    /\ UnknownWord.is_possible w = false.
Proof.
  exists (UnknownWord.Build
            [BlankSpace.Build {["a"%char]} 1 1 false false;
             BlankSpace.Build {["b"%char]} 1 1 false false;
             BlankSpace.Build all_character_set 1 1 false false]
            (Some (BlankSpace.Build (list_to_set (py "abc")) 1 (-1) false true)) true).
  exists (BlankSpace.Build (list_to_set (py "abc")) 1 (-1) false true).
  repeat (split; [vm_compute; reflexivity|]). vm_compute. reflexivity.
Qed.

(** Where the filter's maximum is a number, [is_possible] is the endpoint
    test of the claim. *)
Lemma is_possible_spec (w : UnknownWord) :
  UnknownWord.is_possible w = true <->
  match UnknownWord.filter w with
  | None => True
  | Some f =>
      let '(calc_min, calc_max) := UnknownWord._calc_length_bounds w in
      (BlankSpace.min_blanks f <= calc_min <= BlankSpace.max_blanks f)
      \/ (BlankSpace.min_blanks f <= calc_max <= BlankSpace.max_blanks f)
  end.
Proof.
  unfold UnknownWord.is_possible.
  destruct (UnknownWord._calc_length_bounds w) as [calc_min calc_max].
  destruct (UnknownWord.filter w) as [f|]; [|tauto].
  rewrite orb_true_iff, !andb_true_iff, !Z.leb_le. tauto.
Qed.

(** C1, the claim as stated fails: whatever the budgets, the run never
    yields the word set {"cat"}. *)
Lemma C1_example_not_only_cat :
  ~ (exists (budget depth : nat) (root : DictionaryNode) (w : UnknownWord)
            (ws : list str),
       create_dict_trie example_words = Ok root
       /\ parse_unknown_word budget (Some example_pattern) = Some (Ok (Some w))
       /\ match_pattern depth w root = Some (Ok ws)
       /\ (list_to_set ws : gset str) = {[ py "cat" ]}).
Proof.
  intros (budget & depth & root & w & ws & Hroot & Hw & Hws & Hset).
  vm_compute in Hroot. injection Hroot as <-.
  destruct budget as [|[|[|[|budget]]]]; try (vm_compute in Hw; discriminate Hw).
  vm_compute in Hw. injection Hw as <-.
  destruct depth as [|[|[|depth]]]; try (vm_compute in Hws; discriminate Hws).
  vm_compute in Hws. injection Hws as <-.
  assert (Hin : py "caat" ∈ ({[ py "cat" ]} : gset str)).
  { rewrite <- Hset. rewrite elem_of_list_to_set. apply list_elem_of_In.
    right. left. reflexivity. }
  apply elem_of_singleton in Hin. discriminate Hin.
Qed.

(** C1, amended: for the trie built from "cat", "ca", "caat", "cab", the
    pattern [c[1,2a]t], run space after space from the root with the final
    nodes filtered by [is_word], yields exactly the words "cat" and "caat"
    (the middle space takes one or two letters [a]). *)
Theorem C1_example_match (budget depth : nat) :
  exists (root : DictionaryNode) (w : UnknownWord) (ws : list str),
    create_dict_trie example_words = Ok root
    /\ parse_unknown_word (4 + budget) (Some example_pattern) = Some (Ok (Some w))
    /\ UnknownWord.get_effective_spaces w = UnknownWord.spaces w
    /\ match_pattern (3 + depth) w root = Some (Ok ws)
    /\ ws = [py "cat"; py "caat"]
    /\ (list_to_set ws : gset str) = {[ py "cat"; py "caat" ]}.
Proof.
  eexists. eexists. eexists.
  split; [vm_compute; reflexivity|].
  split; [vm_compute; reflexivity|].
  split; [reflexivity|].
  split; [vm_compute; reflexivity|].
  split; [reflexivity|].
  simpl. set_solver.
Qed.


(** ** Strings: indexing, slicing, searching *)

Section StringFacts.

Implicit Types (s t : str) (c : ascii) (i : Z).

Lemma len_nonneg s : 0 <= len s.
Proof. unfold len. lia. Qed.

Lemma len_app s t : len (s ++ t) = len s + len t.
Proof. unfold len. rewrite length_app. lia. Qed.

Lemma len_cons c s : len (c :: s) = 1 + len s.
Proof. unfold len. simpl. lia. Qed.

Lemma len_nil : len [] = 0.
Proof. reflexivity. Qed.

Lemma len_zero s : len s = 0 -> s = [].
Proof. unfold len. destruct s; simpl; [reflexivity|lia]. Qed.

Lemma nth_error_at s c t : nth_error (s ++ c :: t) (length s) = Some c.
Proof. induction s; simpl; auto. Qed.

Lemma py_index_nonneg s i : 0 <= i -> py_index s i = nth_error s (Z.to_nat i).
Proof.
  intros Hi. unfold py_index.
  destruct (Z.ltb_spec i 0); [lia|]. destruct (Z.ltb_spec i 0); [lia|reflexivity].
Qed.

Lemma py_index_neg s i :
  i < 0 -> 0 <= i + len s -> py_index s i = nth_error s (Z.to_nat (i + len s)).
Proof.
  intros Hi Hl. unfold py_index.
  destruct (Z.ltb_spec i 0); [|lia].
  destruct (Z.ltb_spec (i + len s) 0); [lia|reflexivity].
Qed.

Lemma getitem_app s c t : getitem (s ++ c :: t) (len s) = Ok c.
Proof.
  unfold getitem. rewrite py_index_nonneg by apply len_nonneg.
  unfold len. rewrite Nat2Z.id. now rewrite nth_error_at.
Qed.

Lemma getitem_head c t : getitem (c :: t) 0 = Ok c.
Proof. apply (getitem_app [] c t). Qed.

Lemma getitem_last s c : getitem (s ++ [c]) (-1) = Ok c.
Proof.
  unfold getitem. pose proof (len_nonneg s) as Hs.
  rewrite py_index_neg by (rewrite ?len_app, ?len_cons, ?len_nil; lia).
  rewrite len_app, len_cons, len_nil.
  replace (Z.to_nat (-1 + (len s + (1 + 0)))) with (length s) by (unfold len; lia).
  now rewrite nth_error_at.
Qed.

Lemma slice_bound_nonneg n d i : 0 <= i -> slice_bound n d (Some i) = Z.min i n.
Proof. intros Hi. unfold slice_bound. destruct (Z.ltb_spec i 0); [lia|reflexivity]. Qed.

Lemma slice_bound_neg n d i : i < 0 -> slice_bound n d (Some i) = Z.max 0 (i + n).
Proof. intros Hi. unfold slice_bound. destruct (Z.ltb_spec i 0); [reflexivity|lia]. Qed.

Lemma py_slice_from s t :
  py_slice (s ++ t) (Some (len s)) None = t.
Proof.
  pose proof (len_nonneg s) as Hs. pose proof (len_nonneg t) as Ht.
  unfold py_slice. rewrite slice_bound_nonneg by assumption.
  unfold slice_bound. rewrite len_app.
  replace (Z.min (len s) (len s + len t)) with (len s) by lia.
  replace (Z.to_nat (len s + len t - len s)) with (length t) by (unfold len; lia).
  unfold len. rewrite Nat2Z.id.
  rewrite drop_app_length. apply firstn_all.
Qed.

Lemma py_slice_upto s t :
  py_slice (s ++ t) None (Some (len s)) = s.
Proof.
  pose proof (len_nonneg s) as Hs. pose proof (len_nonneg t) as Ht.
  unfold py_slice. rewrite slice_bound_nonneg by assumption.
  unfold slice_bound. rewrite len_app.
  replace (Z.min (len s) (len s + len t)) with (len s) by lia.
  rewrite Z.sub_0_r. change (Z.to_nat 0) with 0%nat.
  unfold len. rewrite Nat2Z.id. simpl. apply take_app_length.
Qed.

Lemma py_slice_inner c s d :
  py_slice (c :: s ++ [d]) (Some 1) (Some (-1)) = s.
Proof.
  pose proof (len_nonneg s) as Hs.
  unfold py_slice. rewrite (slice_bound_nonneg _ _ 1), (slice_bound_neg _ _ (-1)) by lia.
  rewrite len_cons, len_app, len_cons, len_nil.
  replace (Z.min 1 (1 + (len s + (1 + 0)))) with 1 by lia.
  replace (Z.max 0 (-1 + (1 + (len s + (1 + 0))))) with (1 + len s) by lia.
  replace (Z.to_nat (1 + len s - 1)) with (length s) by (unfold len; lia).
  change (Z.to_nat 1) with 1%nat. simpl. apply take_app_length.
Qed.

(** An empty slice: the upper bound is not above the lower one. *)
Lemma py_slice_empty s i j :
  0 <= j -> j <= i -> py_slice s (Some i) (Some j) = [].
Proof.
  intros Hj Hi. unfold py_slice. rewrite !slice_bound_nonneg by lia.
  replace (Z.to_nat (Z.min j (len s) - Z.min i (len s))) with 0%nat by lia.
  reflexivity.
Qed.

Lemma py_slice_nonempty s i j :
  0 <= i < len s -> i < j -> py_slice s (Some i) (Some j) <> [].
Proof.
  intros Hi Hj. unfold py_slice. rewrite !slice_bound_nonneg by lia.
  intros H. apply (f_equal (@length ascii)) in H.
  rewrite length_firstn, length_skipn in H. simpl in H. unfold len in *. lia.
Qed.

Lemma find_from_range c s i :
  find_from c s i = -1 \/ i <= find_from c s i.
Proof.
  revert i. induction s as [|x s IH]; intros i; simpl; [now left|].
  destruct (ascii_eqb x c); [right; lia|].
  destruct (IH (i + 1)) as [H|H]; [now left|right; lia].
Qed.

Lemma find_range s c : -1 <= find s c.
Proof. unfold find. destruct (find_from_range c s 0); lia. Qed.

Lemma find_from_app c s t i :
  Forall (fun x => x <> c) s ->
  find_from c (s ++ c :: t) i = i + len s.
Proof.
  intros H. revert i. induction H as [|x s Hx Hs IH]; intros i; simpl.
  - unfold ascii_eqb. rewrite bool_decide_eq_true_2 by reflexivity.
    rewrite len_nil. lia.
  - unfold ascii_eqb at 1. rewrite bool_decide_eq_false_2 by exact Hx.
    rewrite IH, len_cons. lia.
Qed.

Lemma find_app s c t :
  Forall (fun x => x <> c) s -> find (s ++ c :: t) c = len s.
Proof. intros H. unfold find. now rewrite find_from_app. Qed.

Lemma lower_id s : Forall (fun x => is_upper x = false) s -> lower s = s.
Proof.
  unfold lower. induction 1 as [|x s Hx Hs IH]; simpl; [reflexivity|].
  rewrite IH. unfold lower_char. now rewrite Hx.
Qed.

Lemma len_lower s : len (lower s) = len s.
Proof. unfold len, lower. now rewrite length_map. Qed.

End StringFacts.


(** ** [parse_unknown_word]: a bracket that is never closed *)

Lemma bracket_step (c : ascii) :
  c = "["%char ->
  (ascii_eqb c "_" || is_lower c) = false
  /\ _BRACKET_MATCHES c = Some "]"%char
  /\ ascii_eqb c "[" = true.
Proof. intros ->. repeat split. Qed.

(** From a turn that stands on a ['['] with no [']'] after it, the loop
    comes back to the same index with one more entry in [spaces], for ever:
    no budget is enough. *)
Lemma parse_loop_diverges (budget : nat) (string unknown : str)
    (spaces : list (option BlankSpace)) (filter : option BlankSpace)
    (hard_filter : bool) (index : Z) :
  0 <= index < len unknown ->
  getitem unknown index = Ok "["%char ->
  find (py_slice unknown (Some index) None) "]" = -1 ->
  parse_loop budget string unknown spaces filter hard_filter index = None.
Proof.
  intros Hi Hc Hf. revert spaces.
  induction budget as [|budget IH]; intros spaces; [reflexivity|].
  cbn [parse_loop].
  destruct (Z.ltb_spec index (len unknown)) as [_|]; [|lia].
  rewrite Hc.
  destruct (bracket_step "[" eq_refl) as (-> & -> & ->).
  rewrite Hf.
  rewrite py_slice_empty by lia.
  change (parse_blank_space (Some [])) with (@Ok (option BlankSpace) None).
  cbv iota beta.
  replace (-1 + index + 1) with index by lia.
  apply IH.
Qed.

(** C2, the code at the failing input: on ["[abc"] the loop of
    [parse_unknown_word] never ends.  Whatever the budget, the run neither
    returns nor raises: the search for [']'] answers [-1], the empty slice
    parses to [None], and the index is set back to where it was. *)
Theorem C2_unclosed_bracket_never_returns (budget : nat) :
  parse_unknown_word budget (Some (py "[abc")) = None.
Proof.
  unfold parse_unknown_word.
  change (len (py "[abc") =? 0) with false. cbv iota.
  apply parse_loop_diverges; [vm_compute; split; [discriminate|reflexivity]|reflexivity|reflexivity].
Qed.

(** An unclosed ['{'] or ['('] does raise, with the message of a misplaced
    filter. *)
Example unclosed_filter_raises :
  parse_unknown_word 3 (Some (py "a{bc"))
  = Some (_raise_parse_error (py "UnknownWord") (py "a{bc")
            (py "Filter must be at the end of the word") 0).
Proof. vm_compute. reflexivity. Qed.


(** ** What the parsers can answer *)

Lemma parser_outcome_raise {A : Type} (P : A -> Prop) cn u m i :
  parser_outcome P (@_raise_parse_error A cn u m i).
Proof. left. now exists cn, u, m, i. Qed.

Lemma parser_outcome_getitem {A : Type} (P : A -> Prop) s i (k : ascii -> result A) :
  (forall c, parser_outcome P (k c)) ->
  parser_outcome P (getitem s i ≫= k).
Proof.
  intros Hk. unfold getitem. destruct (py_index s i); simpl; [apply Hk|].
  right. eauto.
Qed.

Lemma parser_outcome_bind {A B : Type} (P : B -> Prop) (r : result A) (k : A -> result B) :
  parser_outcome (fun _ => True) r ->
  (forall a, parser_outcome P (k a)) ->
  parser_outcome P (r ≫= k).
Proof. intros Hr Hk. destruct r; simpl; [apply Hk|exact Hr]. Qed.

Lemma scan_letters_outcome string rest res index :
  parser_outcome (fun _ => True) (scan_letters string rest res index).
Proof.
  revert res index. induction rest as [|c rest IH]; intros res index; simpl; [exact I|].
  destruct (is_lower c); [apply IH|apply parser_outcome_raise].
Qed.

Lemma parse_min_outcome string unknown :
  parser_outcome (fun _ => True) (parse_min string unknown).
Proof.
  unfold parse_min. apply parser_outcome_getitem. intros c.
  destruct (is_digit c); [|exact I].
  destruct (find unknown "," =? -1); [apply parser_outcome_raise|].
  destruct (py_int _); [|apply parser_outcome_raise].
  apply parser_outcome_getitem. intros c'. exact I.
Qed.

Lemma parse_max_outcome unknown minlen maxlen index c :
  parser_outcome (fun _ => True) (parse_max unknown minlen maxlen index c).
Proof.
  unfold parse_max. destruct (ascii_eqb c ","); [|exact I].
  destruct (index + 1 <? len unknown); [|exact I].
  apply parser_outcome_getitem. intros c'.
  destruct (is_digit c'); [|exact I].
  now destruct (scan_max _ _ _).
Qed.

Lemma parse_chars_outcome string unknown minlen maxlen index :
  parser_outcome is_Some (parse_chars string unknown minlen maxlen index).
Proof.
  unfold parse_chars.
  destruct ((-1 <? maxlen) && (maxlen <? minlen)); [apply parser_outcome_raise|].
  destruct (index <? len unknown); [|simpl; eauto].
  apply parser_outcome_getitem. intros c.
  destruct (char_in c (py "^!")).
  - destruct (index + 1 <? len unknown); [|simpl; eauto].
    apply parser_outcome_bind; [apply scan_letters_outcome|]. intros; simpl; eauto.
  - destruct (index <? len unknown); [|simpl; eauto].
    apply parser_outcome_bind; [apply scan_letters_outcome|]. intros; simpl; eauto.
Qed.

Lemma parse_inner_outcome string unknown is_filter :
  parser_outcome is_Some (parse_inner string unknown is_filter).
Proof.
  unfold parse_inner.
  apply parser_outcome_bind; [apply parse_min_outcome|]. intros [[minlen index] c].
  apply parser_outcome_bind; [apply parse_max_outcome|]. intros [[minlen' maxlen] index'].
  apply parse_chars_outcome.
Qed.

(** A text that is not empty parses to a class or raises; it never parses
    to [None]. *)
Lemma parse_blank_space_outcome (string : str) :
  string <> [] ->
  parser_outcome is_Some (parse_blank_space (Some string)).
Proof.
  intros Hne. unfold parse_blank_space.
  destruct (Z.eqb_spec (len string) 0) as [H0|_]; [now apply len_zero in H0|].
  destruct (len (lower string) =? 1).
  - destruct (bool_decide _); [simpl; eauto|].
    destruct (forallb _ _); [simpl; eauto|apply parser_outcome_raise].
  - apply parser_outcome_getitem. intros bracket.
    destruct (_BRACKET_MATCHES bracket); [|apply parser_outcome_raise].
    apply parser_outcome_getitem. intros end_bracket.
    destruct (negb _); [apply parser_outcome_raise|].
    destruct (_ =? 0); [apply parser_outcome_raise|].
    apply parse_inner_outcome.
Qed.

Lemma parse_error_not_placeholder (e : exn) :
  is_parse_error e \/ (exists msg, e = IndexError msg) ->
  e <> ValueError (py "a space is None").
Proof.
  intros [(cn & u & m & i & ->)|(msg & ->)]; [|discriminate].
  unfold parse_error_message. simpl. discriminate.
Qed.

Lemma raise_not_placeholder {A : Type} cn u m i :
  @_raise_parse_error A cn u m i <> Raise (ValueError (py "a space is None")).
Proof. unfold _raise_parse_error, parse_error_message. simpl. discriminate. Qed.

Lemma mapM_id_is_Some {A : Type} (l : list (option A)) :
  Forall is_Some l -> is_Some (mapM id l).
Proof.
  induction 1 as [|x l [a ->] Hl [l' IH]]; simpl; [eauto|].
  rewrite IH. simpl. eauto.
Qed.

(** The loop of [parse_unknown_word] never ends with a missing entry in
    [spaces]: the placeholder error of [build_unknown_word] is never the
    answer. *)
Lemma parse_loop_spaces (budget : nat) (string unknown : str)
    (spaces : list (option BlankSpace)) (filter : option BlankSpace)
    (hard_filter : bool) (index : Z) (r : result (option UnknownWord)) :
  Forall is_Some spaces ->
  0 <= index ->
  parse_loop budget string unknown spaces filter hard_filter index = Some r ->
  r <> Raise (ValueError (py "a space is None")).
Proof.
  revert spaces filter hard_filter index r.
  induction budget as [|budget IH]; intros spaces filter hard_filter index r Hsp Hi;
    [discriminate|].
  cbn [parse_loop].
  destruct (Z.ltb_spec index (len unknown)) as [Hlt|_].
  - destruct (getitem unknown index) as [c|e] eqn:Hc.
    2:{ intros [= <-]. unfold getitem in Hc. destruct (py_index _ _); congruence. }
    destruct (ascii_eqb c "_" || is_lower c).
    { pose proof (parse_blank_space_outcome [c] ltac:(discriminate)) as Ho.
      destruct (parse_blank_space (Some [c])) as [space|e]; simpl in Ho.
      - apply IH; [|lia]. apply Forall_app. split; [exact Hsp|]. now constructor.
      - intros [= <-] [= ->]. now apply parse_error_not_placeholder in Ho. }
    destruct (_BRACKET_MATCHES c) as [end_bracket|] eqn:Hm.
    2:{ intros [= <-]. apply raise_not_placeholder. }
    set (f := find (py_slice unknown (Some index) None) end_bracket).
    pose proof (find_range (py_slice unknown (Some index) None) end_bracket) as Hf.
    fold f in Hf.
    destruct (Z.eq_dec f (-1)) as [Hf1|Hf1].
    + (* the closing bracket is missing *)
      rewrite Hf1. rewrite py_slice_empty by lia.
      change (parse_blank_space (Some [])) with (@Ok (option BlankSpace) None).
      cbv iota beta.
      destruct (ascii_eqb c "[") eqn:Hb.
      * apply bool_decide_eq_true_1 in Hb. subst c.
        assert (end_bracket = "]"%char) as Hend by (vm_compute in Hm; congruence).
        replace (-1 + index + 1) with index by lia.
        rewrite parse_loop_diverges; [discriminate|lia|exact Hc|].
        rewrite <- Hend. exact Hf1.
      * destruct (negb (-1 + index =? len unknown - 1)) eqn:Hn.
        -- intros [= <-]. apply raise_not_placeholder.
        -- apply negb_false_iff, Z.eqb_eq in Hn. lia.
    + pose proof (parse_blank_space_outcome
                    (py_slice unknown (Some index) (Some (f + index + 1)))
                    ltac:(apply py_slice_nonempty; lia)) as Ho.
      destruct (parse_blank_space _) as [space|e]; simpl in Ho.
      * destruct (ascii_eqb c "[").
        -- apply IH; [|lia]. apply Forall_app. split; [exact Hsp|]. now constructor.
        -- destruct (negb _).
           ++ intros [= <-]. apply raise_not_placeholder.
           ++ apply IH; [exact Hsp|lia].
      * intros [= <-] [= ->]. now apply parse_error_not_placeholder in Ho.
  - intros [= <-]. unfold build_unknown_word.
    destruct (mapM_id_is_Some spaces Hsp) as [l ->].
    unfold UnknownWord.__init__.
    destruct filter as [f|]; simpl; [destruct (negb _); simpl|]; discriminate.
Qed.

Corollary parse_unknown_word_spaces (budget : nat) (string : option str)
    (r : result (option UnknownWord)) :
  parse_unknown_word budget string = Some r ->
  r <> Raise (ValueError (py "a space is None")).
Proof.
  unfold parse_unknown_word. destruct string as [string|]; [|intros [= <-]; discriminate].
  destruct (len string =? 0); [intros [= <-]; discriminate|].
  apply parse_loop_spaces; [constructor|lia].
Qed.


(** ** [get_possible_children]: termination and recursion depth *)

Section TrieDepth.

Import DictionaryNode.

Lemma max_layers_below_eq (w : bool) (m : list (ascii * DictionaryNode)) :
  max_layers_below (Build w m) = max_over m (-1) + 1.
Proof.
  unfold max_over. simpl. f_equal.
  generalize (-1). induction m as [|[k c] m IH]; intros z; simpl; [reflexivity|].
  apply IH.
Qed.

Lemma max_over_ge cs z : z <= max_over cs z.
Proof.
  unfold max_over. revert z. induction cs as [|kc cs IH]; intros z; simpl; [lia|].
  specialize (IH (Z.max z (max_layers_below (snd kc)))). lia.
Qed.

Lemma max_over_child cs z key child :
  dict_get key cs = Some child -> max_layers_below child <= max_over cs z.
Proof.
  unfold max_over. revert z. induction cs as [|[k c] cs IH]; intros z; simpl; [discriminate|].
  destruct (ascii_eqb k key).
  - intros [= ->].
    pose proof (max_over_ge cs (Z.max z (max_layers_below child))) as H.
    unfold max_over in H. lia.
  - intros H. now apply IH.
Qed.

Lemma max_layers_below_child (self child : DictionaryNode) key :
  dict_get key (children self) = Some child ->
  max_layers_below child + 1 <= max_layers_below self.
Proof.
  destruct self as [w m]. rewrite max_layers_below_eq. simpl. intros H.
  pose proof (max_over_child m (-1) key child H). lia.
Qed.

Lemma max_layers_below_nonneg (self : DictionaryNode) : 0 <= max_layers_below self.
Proof.
  destruct self as [w m]. rewrite max_layers_below_eq.
  pose proof (max_over_ge m (-1)). lia.
Qed.

(** A budget of [S d] activations is enough when the trie below the node
    has at most [d] layers, or when [max_blanks] is a number of at most
    [d]; a larger budget gives the same nodes. *)
Lemma get_possible_children_enough (d : nat) :
  forall (self : ref) (space : BlankSpace),
    max_layers_below (snd self) <= Z.of_nat d
    \/ 0 <= BlankSpace.max_blanks space <= Z.of_nat d ->
    exists found, forall extra : nat,
      get_possible_children (S d + extra) self space = Some (Ok found).
Proof.
  induction d as [|d IH]; intros self space Hd.
  - (* no descent is possible *)
    destruct (Z.eqb_spec (BlankSpace.max_blanks space) 0) as [H0|H0].
    { eexists. intros extra. cbn [get_possible_children Nat.add].
      rewrite H0. reflexivity. }
    assert (Hleaf : forall c, dict_get c (children (snd self)) = None).
    { intros c. destruct (dict_get c (children (snd self))) as [child|] eqn:Hc;
        [|reflexivity].
      apply max_layers_below_child in Hc.
      pose proof (max_layers_below_nonneg child). lia. }
    exists (if BlankSpace.min_blanks space =? 0 then [self] else []).
    intros extra. cbn [get_possible_children Nat.add].
    destruct (Z.eqb_spec (BlankSpace.max_blanks space) 0) as [|_]; [contradiction|].
    assert (Hloop : forall run cs, for_characters run self space cs = Some (Ok [])).
    { intros run cs. induction cs as [|c cs IHcs]; simpl; [reflexivity|].
      now rewrite Hleaf. }
    rewrite Hloop. now rewrite app_nil_r.
  - destruct (Z.eqb_spec (BlankSpace.max_blanks space) 0) as [H0|H0].
    { eexists. intros extra. cbn [get_possible_children Nat.add].
      rewrite H0. reflexivity. }
    assert (Hloop : forall cs, exists below, forall extra : nat,
              for_characters (get_possible_children (S d + extra)) self space cs
              = Some (Ok below)).
    { induction cs as [|c cs [more Hmore]]; [exists []; reflexivity|].
      destruct (dict_get c (children (snd self))) as [child|] eqn:Hc.
      2:{ exists more. intros extra. cbn [for_characters]. rewrite Hc. apply Hmore. }
      pose proof (clone_minus_eq space 1 None) as Hclone.
      destruct (Z.eqb_spec (BlankSpace.max_blanks space) 0) as [|_]; [contradiction|].
      match type of Hclone with _ = Ok ?sp => set (space' := sp) in * end.
      destruct (IH (fst self ++ [c], child) space') as [found Hfound].
      { apply max_layers_below_child in Hc. subst space'. simpl.
        destruct (Z.eqb_spec (BlankSpace.max_blanks space) (-1)); lia. }
      exists (found ++ more). intros extra. cbn [for_characters].
      now rewrite Hc, Hclone, Hfound, Hmore. }
    destruct (Hloop (elements (BlankSpace.possible_characters space))) as [below Hbelow].
    eexists. intros extra.
    change (S (S d) + extra)%nat with (S (S d + extra)).
    cbn [get_possible_children].
    destruct (Z.eqb_spec (BlankSpace.max_blanks space) 0) as [|_]; [contradiction|].
    rewrite Hbelow. reflexivity.
Qed.

End TrieDepth.

(** C8: on every node of a trie and for every space, also one without an
    upper bound, [get_possible_children] ends and yields a finite list of
    nodes without raising.  Its recursion depth is at most the depth of
    the trie below the node and, when [max_blanks] is a number of
    repetitions, at most [max_blanks]: one more activation than that bound
    is enough, and a larger budget yields the same nodes. *)
Theorem C8_get_possible_children_terminates
    (self : DictionaryNode.ref) (space : BlankSpace) :
  exists found : list DictionaryNode.ref,
    forall extra : nat,
      DictionaryNode.get_possible_children
        (S (Z.to_nat (depth_bound (snd self) space)) + extra) self space
      = Some (Ok found).
Proof.
  apply get_possible_children_enough.
  pose proof (max_layers_below_nonneg (snd self)) as Hn.
  unfold depth_bound.
  destruct (Z.leb_spec 0 (BlankSpace.max_blanks space)) as [Hm|Hm].
  - destruct (Z.le_ge_cases (BlankSpace.max_blanks space)
                (DictionaryNode.max_layers_below (snd self))) as [Hle|Hle].
    + right. rewrite Z.min_l by lia. lia.
    + left. rewrite Z.min_r by lia. lia.
  - left. lia.
Qed.


(** ** Letters and decimal digits *)

Section Characters.

Implicit Types (c : ascii) (s : str).

Lemma ord_chr (z : Z) : 0 <= z < 256 -> ord (chr z) = z.
Proof.
  intros Hz. unfold ord, chr. rewrite N_ascii_embedding; lia.
Qed.

Lemma ord_inj c1 c2 : ord c1 = ord c2 -> c1 = c2.
Proof.
  unfold ord. intros H. apply N2Z.inj in H.
  rewrite <- (ascii_N_embedding c1), <- (ascii_N_embedding c2). now rewrite H.
Qed.

Lemma between_spec lo c hi :
  between lo c hi = true <-> ord lo <= ord c <= ord hi.
Proof. unfold between. rewrite andb_true_iff, !Z.leb_le. tauto. Qed.

Lemma is_lower_spec c : is_lower c = true <-> 97 <= ord c <= 122.
Proof. unfold is_lower. rewrite between_spec. reflexivity. Qed.

Lemma is_digit_spec c : is_digit c = true <-> 48 <= ord c <= 57.
Proof. unfold is_digit. rewrite between_spec. reflexivity. Qed.

Lemma is_upper_spec c : is_upper c = true <-> 65 <= ord c <= 90.
Proof. unfold is_upper. rewrite between_spec. reflexivity. Qed.

Lemma ascii_eqb_ord c1 c2 : ord c1 <> ord c2 -> ascii_eqb c1 c2 = false.
Proof.
  intros H. unfold ascii_eqb. apply bool_decide_eq_false_2. now intros ->.
Qed.

Lemma not_true_false (b : bool) : ~ b = true -> b = false.
Proof. now destruct b. Qed.

(** The members of [all_character_set] are the lower-case letters. *)
Lemma letter_spec c : c ∈ all_character_set <-> is_lower c = true.
Proof.
  unfold all_character_set. rewrite elem_of_list_to_set. split.
  - intros H. apply list_elem_of_In in H. simpl in H.
    repeat (destruct H as [<-|H]; [reflexivity|]). contradiction.
  - intros H. apply list_elem_of_In.
    destruct c as [[] [] [] [] [] [] [] []]; try discriminate H;
      simpl; tauto.
Qed.

Lemma lower_not_upper c : is_lower c = true -> is_upper c = false.
Proof.
  rewrite is_lower_spec. intros H. apply not_true_false.
  rewrite is_upper_spec. lia.
Qed.

Lemma lower_not_digit c : is_lower c = true -> is_digit c = false.
Proof.
  rewrite is_lower_spec. intros H. apply not_true_false.
  rewrite is_digit_spec. lia.
Qed.

Lemma digit_not_upper c : is_digit c = true -> is_upper c = false.
Proof.
  rewrite is_digit_spec. intros H. apply not_true_false.
  rewrite is_upper_spec. lia.
Qed.

Lemma digit_not_space c : is_digit c = true -> is_space c = false.
Proof.
  rewrite is_digit_spec. intros H. unfold is_space. cbv zeta.
  apply not_true_false. rewrite orb_true_iff, !andb_true_iff, !Z.leb_le. lia.
Qed.

Lemma digit_char_val (d : Z) : 0 <= d < 10 -> digit_val (digit_char d) = d.
Proof. intros H. unfold digit_val, digit_char. rewrite ord_chr; lia. Qed.

Lemma digit_char_is_digit (d : Z) : 0 <= d < 10 -> is_digit (digit_char d) = true.
Proof.
  intros H. rewrite is_digit_spec. unfold digit_char. rewrite ord_chr; lia.
Qed.

End Characters.

Section Digits.

Implicit Types (ds : str) (n acc : Z).

Lemma decimal_value_snoc ds c acc :
  decimal_value (ds ++ [c]) acc = decimal_value ds acc * 10 + digit_val c.
Proof. unfold decimal_value. now rewrite fold_left_app. Qed.

Lemma render_digits_acc (budget : nat) n (text : str) :
  render_digits budget n text = render_digits budget n [] ++ text.
Proof.
  revert n text. induction budget as [|b IH]; intros n text; simpl; [reflexivity|].
  destruct (n <? 10); [reflexivity|].
  rewrite IH, (IH _ [_]). now rewrite <- app_assoc.
Qed.

Lemma render_digits_spec (budget : nat) n :
  0 <= n -> (Z.to_nat n < budget)%nat ->
  render_digits budget n [] <> []
  /\ all_digits (render_digits budget n [])
  /\ decimal_value (render_digits budget n []) 0 = n.
Proof.
  revert n. induction budget as [|b IH]; intros n Hn Hb; [lia|].
  simpl. destruct (Z.ltb_spec n 10) as [Hlt|Hge].
  - rewrite Z.mod_small by lia. repeat split; [discriminate| |].
    + constructor; [|constructor]. apply digit_char_is_digit. lia.
    + unfold decimal_value. simpl. rewrite digit_char_val; lia.
  - rewrite render_digits_acc.
    assert (Hdiv : 0 <= n / 10 < n).
    { split; [apply Z.div_pos; lia|apply Z.div_lt; lia]. }
    destruct (IH (n / 10)) as (Hne & Hall & Hval); [lia|lia|].
    pose proof (Z.mod_pos_bound n 10 ltac:(lia)) as Hmod.
    repeat split.
    + intros H. apply app_eq_nil in H. destruct H as [_ H]. discriminate H.
    + apply Forall_app. split; [exact Hall|].
      constructor; [|constructor]. now apply digit_char_is_digit.
    + rewrite decimal_value_snoc, Hval, digit_char_val by lia.
      pose proof (Z.div_mod n 10 ltac:(lia)). lia.
Qed.

(** [str(n)] for a natural number: digits that read back as [n]. *)
Lemma str_of_Z_spec n :
  0 <= n ->
  str_of_Z n <> [] /\ all_digits (str_of_Z n) /\ decimal_value (str_of_Z n) 0 = n.
Proof.
  intros Hn. unfold str_of_Z. destruct (Z.ltb_spec n 0); [lia|].
  apply render_digits_spec; lia.
Qed.

Lemma scan_max_digits ds (tail : str) (maxlen index : Z) :
  all_digits ds ->
  match tail with [] => True | c :: _ => is_digit c = false end ->
  scan_max (ds ++ tail) maxlen index = (decimal_value ds maxlen, index + len ds).
Proof.
  intros Hds Htail. revert maxlen index.
  induction Hds as [|d ds Hd Hds IH]; intros maxlen index.
  - simpl. rewrite len_nil, Z.add_0_r.
    destruct tail as [|c tail]; simpl; [reflexivity|]. now rewrite Htail.
  - simpl. rewrite Hd, IH, len_cons. f_equal. lia.
Qed.

Lemma int_body_digits ds acc (after_digit : bool) :
  all_digits ds -> ds <> [] \/ after_digit = true ->
  int_body ds acc after_digit = Some (decimal_value ds acc).
Proof.
  intros Hds. revert acc after_digit.
  induction Hds as [|d ds Hd Hds IH]; intros acc after_digit Hne.
  - destruct Hne as [Hne| ->]; [contradiction|reflexivity].
  - simpl. rewrite Hd. apply IH. now right.
Qed.

Lemma lstrip_digits ds : all_digits ds -> lstrip ds = ds.
Proof.
  intros Hds. destruct Hds as [|d ds Hd Hds]; simpl; [reflexivity|].
  now rewrite (digit_not_space d Hd).
Qed.

Lemma strip_digits ds : all_digits ds -> strip ds = ds.
Proof.
  intros Hds. unfold strip. rewrite (lstrip_digits ds Hds).
  rewrite lstrip_digits; [apply rev_involutive|].
  now apply Forall_rev.
Qed.

Lemma py_int_digits ds :
  all_digits ds -> ds <> [] -> py_int ds = Some (decimal_value ds 0).
Proof.
  intros Hds Hne. unfold py_int. rewrite (strip_digits ds Hds).
  destruct ds as [|d ds]; [contradiction|].
  pose proof (Forall_inv Hds) as Hd. simpl in Hd. apply is_digit_spec in Hd.
  rewrite !ascii_eqb_ord by (change (ord "-") with 45; change (ord "+") with 43; lia).
  now apply int_body_digits; [|left].
Qed.

Lemma digits_no_comma ds : all_digits ds -> Forall (fun x => x <> ","%char) ds.
Proof.
  intros H. eapply Forall_impl; [exact H|]. intros c Hc ->. discriminate Hc.
Qed.

Lemma digits_no_upper ds : all_digits ds -> Forall (fun x => is_upper x = false) ds.
Proof. intros H. eapply Forall_impl; [exact H|]. intros c. apply digit_not_upper. Qed.

End Digits.


(** ** The stages of [parse_blank_space] on a rendered text *)

Section ParseStages.

Implicit Types (ds ls pre tail rest inner : str) (c : ascii).

Lemma letter_lower c : c ∈ all_character_set -> is_lower c = true.
Proof. apply letter_spec. Qed.

Lemma letters_no_upper ls : all_letters ls -> Forall (fun x => is_upper x = false) ls.
Proof.
  intros H. eapply Forall_impl; [exact H|]. intros c Hc.
  now apply lower_not_upper, letter_lower.
Qed.

Lemma scan_letters_all string ls (res : BlankSpace) (index : Z) :
  all_letters ls ->
  scan_letters string ls res index
  = Ok (BlankSpace.Build
          (if BlankSpace.negated res
           then BlankSpace.possible_characters res ∖ list_to_set ls
           else BlankSpace.possible_characters res ∪ list_to_set ls)
          (BlankSpace.min_blanks res) (BlankSpace.max_blanks res)
          (BlankSpace.negated res) (BlankSpace.bracketed res)).
Proof.
  intros Hls. revert res index.
  induction Hls as [|c ls Hc Hls IH]; intros res index.
  - destruct res as [pc mn mx ng br]. unfold BlankSpace.negated. simpl.
    f_equal. f_equal. destruct ng; set_solver.
  - simpl. rewrite (letter_lower c Hc), IH.
    destruct res as [pc mn mx ng br].
    unfold BlankSpace.append, BlankSpace.negated, BlankSpace.remove, BlankSpace.add,
      BlankSpace.set_possible_characters. simpl.
    destruct ng; simpl; f_equal; f_equal; set_solver.
Qed.

Lemma bind_ok {A B : Type} (a : A) (k : A -> result B) : Ok a ≫= k = k a.
Proof. reflexivity. Qed.

Lemma getitem_head_app c ds rest : getitem ((c :: ds) ++ rest) 0 = Ok c.
Proof. apply getitem_head. Qed.

Lemma parse_min_plain string c rest :
  is_digit c = false ->
  parse_min string (c :: rest) = Ok (1, 0, c).
Proof.
  intros Hc. unfold parse_min. rewrite getitem_head, bind_ok. now rewrite Hc.
Qed.

Lemma parse_min_digits string ds rest :
  all_digits ds -> ds <> [] ->
  parse_min string (ds ++ ","%char :: rest) = Ok (decimal_value ds 0, len ds, ","%char).
Proof.
  intros Hds Hne. unfold parse_min.
  destruct ds as [|d ds']; [contradiction|].
  rewrite getitem_head_app. rewrite bind_ok.
  rewrite (Forall_inv Hds).
  rewrite find_app by now apply digits_no_comma.
  pose proof (len_nonneg (d :: ds')) as Hlen.
  destruct (Z.eqb_spec (len (d :: ds')) (-1)); [lia|].
  rewrite py_slice_upto, py_int_digits by (assumption || discriminate).
  now rewrite getitem_app.
Qed.

Lemma parse_max_plain unknown (minlen maxlen index : Z) c :
  c <> ","%char ->
  parse_max unknown minlen maxlen index c = Ok (minlen, maxlen, index).
Proof.
  intros Hc. unfold parse_max, ascii_eqb.
  now rewrite bool_decide_eq_false_2.
Qed.

Lemma parse_max_text pre ds tail (minlen maxlen : Z) :
  all_digits ds ->
  match tail with [] => True | c :: _ => is_digit c = false end ->
  parse_max (pre ++ ","%char :: ds ++ tail) minlen maxlen (len pre) ","
  = Ok (if len pre =? 0 then 0 else minlen,
        match ds with [] => -1 | _ => decimal_value ds 0 end,
        len pre + 1 + len ds).
Proof.
  intros Hds Htail. unfold parse_max.
  change (ascii_eqb "," ",") with true. cbv iota.
  pose proof (len_nonneg pre) as Hpre.
  assert (Hsplit : pre ++ ","%char :: ds ++ tail = (pre ++ [","%char]) ++ (ds ++ tail))
    by now rewrite <- app_assoc.
  assert (Hlen1 : len (pre ++ [","%char]) = len pre + 1)
    by (rewrite len_app, len_cons, len_nil; lia).
  destruct (ds ++ tail) as [|x xs] eqn:Hx.
  - apply app_eq_nil in Hx. destruct Hx as [-> ->].
    rewrite len_app, len_cons, len_nil.
    destruct (Z.ltb_spec (len pre + 1) (len pre + (1 + 0))); [lia|].
    rewrite Z.add_0_r. reflexivity.
  - rewrite Hsplit. set (u := pre ++ [","%char]) in *.
    replace (len pre + 1) with (len u) by exact Hlen1.
    assert (Hlt : len u < len (u ++ x :: xs))
      by (pose proof (len_nonneg xs); rewrite len_app, len_cons; lia).
    destruct (Z.ltb_spec (len u) (len (u ++ x :: xs))); [|lia].
    rewrite getitem_app, bind_ok.
    destruct ds as [|d ds'].
    + simpl in Hx. subst tail. rewrite Htail.
      rewrite len_nil, Z.add_0_r. reflexivity.
    + injection Hx as <- <-.
      rewrite (Forall_inv Hds).
      rewrite py_slice_from.
      change (d :: ds' ++ tail) with ((d :: ds') ++ tail).
      rewrite scan_max_digits by assumption. reflexivity.
Qed.

Lemma bounds_check_passes (minlen maxlen : Z) :
  maxlen = -1 \/ minlen <= maxlen ->
  (-1 <? maxlen) && (maxlen <? minlen) = false.
Proof.
  intros H. apply not_true_false. rewrite andb_true_iff, !Z.ltb_lt. lia.
Qed.

Lemma parse_chars_none string pre (minlen maxlen : Z) :
  maxlen = -1 \/ minlen <= maxlen ->
  parse_chars string pre minlen maxlen (len pre)
  = Ok (Some (BlankSpace.Build all_character_set minlen maxlen false true)).
Proof.
  intros Hb. unfold parse_chars. rewrite (bounds_check_passes _ _ Hb).
  rewrite Z.ltb_irrefl, init_eq, chars_text_of_set.
  cbn [negb andb orb]. now rewrite (left_id_L ∅ (∪)).
Qed.

Lemma parse_chars_letters string pre ls (minlen maxlen : Z) :
  maxlen = -1 \/ minlen <= maxlen ->
  all_letters ls -> ls <> [] ->
  parse_chars string (pre ++ ls) minlen maxlen (len pre)
  = Ok (Some (BlankSpace.Build (list_to_set ls) minlen maxlen false true)).
Proof.
  intros Hb Hls Hne. unfold parse_chars. rewrite (bounds_check_passes _ _ Hb).
  destruct ls as [|c ls']; [contradiction|].
  pose proof (len_nonneg pre). pose proof (len_nonneg ls').
  rewrite len_app, len_cons.
  destruct (Z.ltb_spec (len pre) (len pre + (1 + len ls'))); [|lia].
  rewrite getitem_app. rewrite bind_ok.
  pose proof (letter_lower c (Forall_inv Hls)) as Hc. apply is_lower_spec in Hc.
  assert (Hnot : char_in c (py "^!") = false).
  { unfold char_in. simpl.
    rewrite !ascii_eqb_ord
      by (change (ord "^") with 94; change (ord "!") with 33; lia).
    reflexivity. }
  rewrite Hnot.
  destruct (Z.ltb_spec (len pre) (len pre + (1 + len ls'))); [|lia].
  rewrite py_slice_from, init_no_chars, scan_letters_all by assumption.
  unfold BlankSpace.negated. simpl. do 3 f_equal; set_solver.
Qed.

Lemma parse_chars_negated string pre ls (minlen maxlen : Z) :
  maxlen = -1 \/ minlen <= maxlen ->
  all_letters ls ->
  parse_chars string (pre ++ "^"%char :: ls) minlen maxlen (len pre)
  = Ok (Some (BlankSpace.Build (all_character_set ∖ list_to_set ls)
                minlen maxlen true true)).
Proof.
  intros Hb Hls. unfold parse_chars. rewrite (bounds_check_passes _ _ Hb).
  pose proof (len_nonneg pre). pose proof (len_nonneg ls).
  rewrite len_app, len_cons.
  destruct (Z.ltb_spec (len pre) (len pre + (1 + len ls))); [|lia].
  rewrite getitem_app. rewrite bind_ok.
  change (char_in "^" (py "^!")) with true. cbv iota.
  rewrite init_no_chars. simpl.
  destruct ls as [|c ls'].
  - rewrite len_nil. destruct (Z.ltb_spec (len pre + 1) (len pre + (1 + 0))); [lia|].
    do 3 f_equal; set_solver.
  - pose proof (len_nonneg ls').
    destruct (Z.ltb_spec (len pre + 1) (len pre + (1 + len (c :: ls'))));
      [|rewrite len_cons in *; lia].
    replace (pre ++ "^"%char :: c :: ls') with ((pre ++ ["^"%char]) ++ c :: ls')
      by now rewrite <- app_assoc.
    replace (len pre + 1) with (len (pre ++ ["^"%char]))
      by (rewrite len_app, len_cons, len_nil; lia).
    rewrite py_slice_from, scan_letters_all by assumption.
    reflexivity.
Qed.

(** A bracketed text whose inside is not empty and has no capital letter
    is parsed from its inside. *)
Lemma parse_bracket_text inner :
  inner <> [] ->
  Forall (fun x => is_upper x = false) inner ->
  parse_blank_space (Some ("["%char :: inner ++ ["]"%char]))
  = parse_inner ("["%char :: inner ++ ["]"%char]) inner false.
Proof.
  intros Hne Hup. unfold parse_blank_space.
  pose proof (len_nonneg inner) as Hlen.
  assert (Hl : len ("["%char :: inner ++ ["]"%char]) = len inner + 2)
    by (rewrite len_cons, len_app, len_cons, len_nil; lia).
  rewrite lower_id.
  2:{ constructor; [reflexivity|]. apply Forall_app. split; [exact Hup|].
      constructor; [reflexivity|constructor]. }
  rewrite Hl.
  destruct (Z.eqb_spec (len inner + 2) 0); [lia|].
  destruct (Z.eqb_spec (len inner + 2) 1); [lia|].
  rewrite getitem_head. rewrite bind_ok.
  change (_BRACKET_MATCHES "[") with (Some "]"%char). cbv iota.
  rewrite (getitem_last ("["%char :: inner) "]" : getitem ("["%char :: inner ++ ["]"%char]) (-1) = _), bind_ok.
  change (ascii_eqb "]" "]") with true. simpl negb. cbv iota.
  rewrite py_slice_inner.
  destruct (Z.eqb_spec (len inner) 0) as [H0|_]; [now apply len_zero in H0|].
  reflexivity.
Qed.

End ParseStages.


(** ** Rendering a class and parsing the text back *)

Section RoundTrip.

Implicit Types (s : BlankSpace) (ds ls tail : str).

Lemma repr_eq s :
  BlankSpace.__repr__ s
  = let n := Z.of_nat (size (BlankSpace.possible_characters s)) in
    if negb (BlankSpace.bracketed s) && negb (BlankSpace.negated s) && (n =? 1)
    then take 1 (elements (BlankSpace.possible_characters s))
    else if negb (BlankSpace.bracketed s) && negb (BlankSpace.negated s) && (n =? 26)
    then py "_"
    else bracket_repr s.
Proof. reflexivity. Qed.

Lemma all_letters_elements (X : gset ascii) :
  X ⊆ all_character_set -> all_letters (elements X).
Proof.
  intros HX. apply Forall_forall. intros c Hc. apply HX. now apply elem_of_elements.
Qed.

Lemma all_letters_lowercase : all_letters ascii_lowercase.
Proof.
  apply Forall_forall. intros c Hc. unfold all_character_set.
  now apply elem_of_list_to_set.
Qed.

Lemma sorted_perm (l : str) : BlankSpace.sorted l ≡ₚ l.
Proof. apply merge_sort_Permutation. Qed.

(** What [char_str] looks like for a class of letters that allows at
    least one character unless negated. *)
Lemma char_str_shape s :
  BlankSpace.possible_characters s ⊆ all_character_set ->
  (BlankSpace.negated s = false -> BlankSpace.possible_characters s <> ∅) ->
  chars_shape (BlankSpace.negated s) (char_str s) (BlankSpace.possible_characters s).
Proof.
  intros Hsub Hne. unfold chars_shape, char_str.
  destruct (BlankSpace.negated s) eqn:Hneg.
  - rewrite join_singletons.
    exists (elements (all_character_set ∖ BlankSpace.possible_characters s)).
    split; [reflexivity|]. split.
    + apply all_letters_elements. set_solver.
    + rewrite list_to_set_elements_L. apply set_eq. intros x.
      rewrite !elem_of_difference. split; [|intros Hx; split; [auto|tauto]].
      intros [Hx Hn]. destruct (decide (x ∈ BlankSpace.possible_characters s)); tauto.
  - specialize (Hne eq_refl). unfold BlankSpace.is_all_chars.
    destruct (bool_decide_reflect
                (BlankSpace.possible_characters s = all_character_set)) as [Hall|Hall];
      simpl.
    + split; [apply all_letters_lowercase|]. split; [discriminate|].
      now rewrite Hall.
    + rewrite join_singletons.
      pose proof (sorted_perm (elements (BlankSpace.possible_characters s))) as Hp.
      split; [|split].
      * unfold all_letters. rewrite Hp. now apply all_letters_elements.
      * intros Hnil. rewrite Hnil in Hp. symmetry in Hp.
        apply Permutation_nil_r in Hp. apply elements_empty_inv in Hp.
        apply leibniz_equiv in Hp. contradiction.
      * rewrite <- (list_to_set_elements_L (BlankSpace.possible_characters s)) at 2.
        apply list_to_set_perm_L. exact Hp.
Qed.

Lemma shape_head_not_digit (negated : bool) cs chars :
  chars_shape negated cs chars ->
  match cs with [] => True | c :: _ => is_digit c = false /\ c <> ","%char end.
Proof.
  unfold chars_shape. destruct negated.
  - intros (ls & -> & _ & _). split; [reflexivity|discriminate].
  - intros (Hls & Hne & _). destruct cs as [|c cs]; [exact I|].
    pose proof (letter_lower c (Forall_inv Hls)) as Hc. split.
    + now apply lower_not_digit.
    + intros ->. discriminate Hc.
Qed.

Lemma shape_no_upper (negated : bool) cs chars :
  chars_shape negated cs chars -> Forall (fun x => is_upper x = false) cs.
Proof.
  unfold chars_shape. destruct negated.
  - intros (ls & -> & Hls & _). constructor; [reflexivity|].
    now apply letters_no_upper.
  - intros (Hls & _ & _). now apply letters_no_upper.
Qed.

(** The characters stage on a text of that shape. *)
Lemma parse_chars_shape string pre (negated : bool) cs chars (minlen maxlen : Z) :
  maxlen = -1 \/ minlen <= maxlen ->
  chars_shape negated cs chars ->
  parse_chars string (pre ++ cs) minlen maxlen (len pre)
  = Ok (Some (BlankSpace.Build chars minlen maxlen negated true)).
Proof.
  intros Hb. unfold chars_shape. destruct negated.
  - intros (ls & -> & Hls & <-). now apply parse_chars_negated.
  - intros (Hls & Hne & <-). now apply parse_chars_letters.
Qed.

(** The same with the characters left out when they are the whole
    alphabet, as [__repr__] writes them after bounds. *)
Lemma parse_chars_tail string pre (negated : bool) cs chars (minlen maxlen : Z) :
  maxlen = -1 \/ minlen <= maxlen ->
  chars_shape negated cs chars ->
  parse_chars string
    (pre ++ (if bool_decide (cs = ascii_lowercase) then [] else cs))
    minlen maxlen (len pre)
  = Ok (Some (BlankSpace.Build chars minlen maxlen negated true)).
Proof.
  intros Hb Hshape.
  destruct (bool_decide_reflect (cs = ascii_lowercase)) as [Heq|_];
    [|now apply parse_chars_shape].
  rewrite app_nil_r, parse_chars_none by assumption.
  unfold chars_shape in Hshape. destruct negated.
  - destruct Hshape as (ls & Hcs & _). rewrite Heq in Hcs. discriminate Hcs.
  - destruct Hshape as (_ & _ & <-). now rewrite Heq.
Qed.

Lemma bound_text_digits text value default :
  bound_text text value default -> all_digits text.
Proof. intros [[-> _]|[H _]]; [constructor|exact H]. Qed.

Lemma bound_text_of (value default : Z) :
  0 <= value \/ value = default ->
  bound_text (if value =? default then [] else str_of_Z value) value default.
Proof.
  intros Hv. destruct (Z.eqb_spec value default) as [->|Hne]; [now left|].
  destruct (str_of_Z_spec value) as (H1 & H2 & H3); [lia|]. right. auto.
Qed.

Lemma parse_inner_bounds string min_str ds tail (mn mx : Z) :
  bound_text min_str mn 0 ->
  bound_text ds mx (-1) ->
  match tail with [] => True | c :: _ => is_digit c = false /\ c <> ","%char end ->
  parse_inner string (min_str ++ ","%char :: ds ++ tail) false
  = parse_chars string ((min_str ++ ","%char :: ds) ++ tail) mn mx
      (len (min_str ++ ","%char :: ds)).
Proof.
  intros Hmin Hmax Htail. unfold parse_inner.
  assert (Htail' : match tail with [] => True | c :: _ => is_digit c = false end)
    by (destruct tail; tauto).
  assert (Hlen : len (min_str ++ ","%char :: ds) = len min_str + 1 + len ds)
    by (rewrite len_app, len_cons; lia).
  assert (Hmx : match ds with [] => -1 | _ :: _ => decimal_value ds 0 end = mx).
  { destruct Hmax as [[-> ->]|(_ & Hne & <-)]; [reflexivity|].
    now destruct ds. }
  assert (Hassoc : (min_str ++ ","%char :: ds) ++ tail = min_str ++ ","%char :: ds ++ tail)
    by now rewrite <- app_assoc.
  rewrite Hassoc, Hlen.
  destruct Hmin as [[-> ->]|(Hds & Hne & <-)].
  - change ([] ++ ","%char :: ds ++ tail) with (","%char :: ds ++ tail).
    rewrite parse_min_plain, bind_ok by reflexivity.
    pose proof (parse_max_text [] ds tail 1 1 (bound_text_digits _ _ _ Hmax) Htail')
      as Hpm.
    change ([] ++ ","%char :: ds ++ tail) with (","%char :: ds ++ tail) in Hpm.
    change (len []) with 0 in *.
    rewrite Hpm, bind_ok, Hmx. reflexivity.
  - rewrite parse_min_digits, bind_ok by assumption.
    rewrite parse_max_text, bind_ok, Hmx
      by (assumption || exact (bound_text_digits _ _ _ Hmax)).
    pose proof (len_nonneg min_str).
    destruct (Z.eqb_spec (len min_str) 0) as [H0|_]; [|reflexivity].
    now apply len_zero in H0.
Qed.

Lemma parse_inner_plain string c rest :
  is_digit c = false -> c <> ","%char ->
  parse_inner string (c :: rest) false
  = parse_chars string ([] ++ c :: rest) 1 1 (len []).
Proof.
  intros Hd Hc. unfold parse_inner.
  rewrite parse_min_plain, bind_ok by assumption.
  rewrite parse_max_plain, bind_ok by assumption. reflexivity.
Qed.

(** The bracketed rendering parses back to the class. *)
Lemma bracket_repr_roundtrip s :
  BlankSpace.possible_characters s ⊆ all_character_set ->
  0 <= BlankSpace.min_blanks s ->
  BlankSpace.max_blanks s = -1 \/ BlankSpace.min_blanks s <= BlankSpace.max_blanks s ->
  (BlankSpace.negated s = false -> BlankSpace.possible_characters s <> ∅) ->
  parse_blank_space (Some (bracket_repr s))
  = Ok (Some (BlankSpace.Build (BlankSpace.possible_characters s)
                (BlankSpace.min_blanks s) (BlankSpace.max_blanks s)
                (BlankSpace.negated s) true)).
Proof.
  intros Hsub Hmin Hb Hne.
  pose proof (char_str_shape s Hsub Hne) as Hshape.
  pose proof (shape_head_not_digit _ _ _ Hshape) as Hhead.
  pose proof (shape_no_upper _ _ _ Hshape) as Hup.
  unfold bracket_repr.
  destruct ((BlankSpace.min_blanks s =? BlankSpace.max_blanks s)
            && (BlankSpace.max_blanks s =? 1)) eqn:Hone.
  - apply andb_true_iff in Hone. destruct Hone as [H1 H2].
    apply Z.eqb_eq in H1, H2. rewrite H1, H2.
    change (py "[" ++ char_str s ++ py "]") with ("["%char :: char_str s ++ ["]"%char]).
    destruct (char_str s) as [|c rest] eqn:Hcs.
    { exfalso. unfold chars_shape in Hshape.
      destruct (BlankSpace.negated s); [destruct Hshape as (? & ? & _)|]; [discriminate|].
      destruct Hshape as (_ & ? & _). contradiction. }
    rewrite parse_bracket_text by (assumption || discriminate).
    destruct Hhead as [Hd Hc].
    rewrite parse_inner_plain by assumption.
    apply parse_chars_shape; [right; lia|exact Hshape].
  - set (min_str := if BlankSpace.min_blanks s =? 0 then []
                    else str_of_Z (BlankSpace.min_blanks s)).
    set (max_str := if BlankSpace.max_blanks s =? -1 then []
                    else str_of_Z (BlankSpace.max_blanks s)).
    set (tail := if bool_decide (char_str s = ascii_lowercase) then [] else char_str s).
    assert (Hmin_text : bound_text min_str (BlankSpace.min_blanks s) 0)
      by (apply bound_text_of; lia).
    assert (Hmax_text : bound_text max_str (BlankSpace.max_blanks s) (-1))
      by (apply bound_text_of; lia).
    assert (Htail : match tail with
                    | [] => True
                    | c :: _ => is_digit c = false /\ c <> ","%char
                    end).
    { subst tail. now destruct (bool_decide _). }
    assert (Htext : py "[" ++ min_str ++ py "," ++ max_str ++ tail ++ py "]"
                    = "["%char :: (min_str ++ ","%char :: max_str ++ tail) ++ ["]"%char]).
    { simpl. f_equal. rewrite <- !app_assoc. simpl. f_equal. f_equal.
      now rewrite <- app_assoc. }
    rewrite Htext.
    rewrite parse_bracket_text.
    + rewrite (parse_inner_bounds _ _ _ _ _ _ Hmin_text Hmax_text Htail).
      subst tail. now apply parse_chars_tail.
    + destruct min_str; discriminate.
    + apply Forall_app. split; [apply digits_no_upper, (bound_text_digits _ _ _ Hmin_text)|].
      constructor; [reflexivity|].
      apply Forall_app. split; [apply digits_no_upper, (bound_text_digits _ _ _ Hmax_text)|].
      subst tail. destruct (bool_decide _); [constructor|exact Hup].
Qed.

Lemma bare_letter_roundtrip c :
  c ∈ all_character_set ->
  parse_blank_space (Some [c])
  = Ok (Some (BlankSpace.Build {[ c ]} 1 1 false false)).
Proof.
  intros Hc. apply letter_lower in Hc.
  unfold parse_blank_space. change (len [c] =? 0) with false. cbv iota.
  rewrite lower_id by (constructor; [now apply lower_not_upper|constructor]).
  change (len [c] =? 1) with true. cbv iota.
  rewrite bool_decide_eq_false_2 by (intros [= ->]; discriminate Hc).
  simpl forallb. rewrite Hc. simpl andb. cbv iota.
  rewrite init_eq. simpl. do 3 f_equal. set_solver.
Qed.

Lemma bare_underscore_roundtrip :
  parse_blank_space (Some (py "_"))
  = Ok (Some (BlankSpace.Build all_character_set 1 1 false false)).
Proof. vm_compute. reflexivity. Qed.

End RoundTrip.

(** C9: for every class in canonical form, the text [__repr__] gives parses
    back, with [parse_blank_space], to a class with the same possible
    characters, the same minimum and maximum and the same negation flag. *)
Theorem C9_repr_parse_roundtrip (s : BlankSpace) (Hcanon : canonical s) :
  exists s' : BlankSpace,
    parse_blank_space (Some (BlankSpace.__repr__ s)) = Ok (Some s')
    /\ BlankSpace.possible_characters s' = BlankSpace.possible_characters s
    /\ BlankSpace.min_blanks s' = BlankSpace.min_blanks s
    /\ BlankSpace.max_blanks s' = BlankSpace.max_blanks s
    /\ BlankSpace.negated s' = BlankSpace.negated s.
Proof.
  destruct Hcanon as (Hsub & Hmin & Hb & Hne & Hbare).
  rewrite repr_eq. cbv zeta.
  destruct (negb (BlankSpace.bracketed s) && negb (BlankSpace.negated s)) eqn:Hplain.
  - apply andb_true_iff in Hplain. destruct Hplain as [Hbr Hneg].
    apply negb_true_iff in Hbr, Hneg.
    rewrite !andb_true_l.
    destruct (Z.eqb_spec (Z.of_nat (size (BlankSpace.possible_characters s))) 1) as [H1|H1].
    + destruct (Hbare Hbr Hneg) as [Hmn Hmx]; [left; lia|].
      assert (Hsize : size (BlankSpace.possible_characters s) = 1%nat) by lia.
      apply size_1_elem_of in Hsize. destruct Hsize as [c Hc].
      apply leibniz_equiv in Hc.
      rewrite Hc, elements_singleton. simpl take.
      rewrite bare_letter_roundtrip by (apply Hsub; rewrite Hc; set_solver).
      eexists. split; [reflexivity|]. simpl. rewrite Hmn, Hmx, Hneg. auto.
    + destruct (Z.eqb_spec (Z.of_nat (size (BlankSpace.possible_characters s))) 26)
        as [H26|H26].
      * destruct (Hbare Hbr Hneg) as [Hmn Hmx]; [right; lia|].
        assert (Hall : BlankSpace.possible_characters s = all_character_set).
        { apply set_subseteq_size_eq; [exact Hsub|].
          change (size all_character_set) with 26%nat. lia. }
        rewrite bare_underscore_roundtrip.
        eexists. split; [reflexivity|].
        rewrite Hall, Hmn, Hmx, Hneg. repeat split.
      * rewrite bracket_repr_roundtrip by assumption.
        eexists. split; [reflexivity|]. repeat split.
  - rewrite !andb_false_l.
    rewrite bracket_repr_roundtrip by assumption.
    eexists. split; [reflexivity|]. repeat split.
Qed.

Lemma C9_repr_parse_roundtrip_witness :
  exists s' : BlankSpace,
    parse_blank_space
      (Some (BlankSpace.__repr__
               (BlankSpace.Build (list_to_set (py "abc")) 3 5 false true))) = Ok (Some s')
    /\ BlankSpace.possible_characters s' = list_to_set (py "abc")
    /\ BlankSpace.min_blanks s' = 3
    /\ BlankSpace.max_blanks s' = 5
    /\ BlankSpace.negated s' = false.
Proof.
  apply (C9_repr_parse_roundtrip
           (BlankSpace.Build (list_to_set (py "abc")) 3 5 false true)).
  unfold canonical. simpl.
  split; [apply (bool_decide_eq_true_1 _); vm_compute; reflexivity|].
  split; [lia|]. split; [right; lia|].
  split; [intros _; apply (bool_decide_eq_true_1 _); vm_compute; reflexivity|].
  intros H; discriminate H.
Defined.

(** Outside the canonical form the text need not parse back: a bracketed
    class left without characters renders as [[]], which is rejected, and a
    bare letter whose repetitions were used up still renders as the
    letter, which stands for one repetition. *)
Example repr_no_characters :
  BlankSpace.__repr__ (BlankSpace.Build ∅ 1 1 false true) = py "[]"
  /\ parse_blank_space (Some (py "[]"))
     = _raise_parse_error (py "BlankSpace") (py "[]")
         (py "Missing characters inside bracket") 1.
Proof. split; vm_compute; reflexivity. Qed.

Example repr_spent_letter :
  BlankSpace.clone_minus (BlankSpace.__init__ false false 1 1 (Str (py "a"))) 1 None
  = Ok (BlankSpace.Build {[ "a"%char ]} 0 0 false false)
  /\ BlankSpace.__repr__ (BlankSpace.Build {[ "a"%char ]} 0 0 false false) = py "a"
  /\ parse_blank_space (Some (py "a"))
     = Ok (Some (BlankSpace.Build {[ "a"%char ]} 1 1 false false)).
Proof. repeat split; vm_compute; reflexivity. Qed.


(** ** Every class the parser returns is in canonical form *)

Section ParserCanonical.

Implicit Types (s t : str) (c : ascii).

Lemma returns_bind {A B : Type} (Q : A -> Prop) (P : B -> Prop)
    (r : result A) (k : A -> result B) :
  returns Q r -> (forall a, Q a -> returns P (k a)) -> returns P (r ≫= k).
Proof. intros Hr Hk. destruct r; simpl; [now apply Hk|exact I]. Qed.

Lemma returns_raise {A : Type} (P : A -> Prop) cn u m i :
  returns P (@_raise_parse_error A cn u m i).
Proof. exact I. Qed.

Lemma returns_getitem s i :
  returns (fun c => 0 <= i -> exists pre rest, s = pre ++ c :: rest /\ len pre = i)
    (getitem s i).
Proof.
  unfold getitem. destruct (py_index s i) as [c|] eqn:Hc; simpl; [|exact I].
  intros Hi. rewrite py_index_nonneg in Hc by assumption.
  apply nth_error_split in Hc. destruct Hc as (pre & rest & -> & Hlen).
  exists pre, rest. split; [reflexivity|]. unfold len. lia.
Qed.

Lemma lstrip_snoc s c :
  is_space c = false -> exists x, lstrip (s ++ [c]) = x ++ [c].
Proof.
  intros Hc. induction s as [|d s IH]; simpl.
  - rewrite Hc. now exists [].
  - destruct (is_space d); [exact IH|]. now exists (d :: s).
Qed.

Lemma strip_head c t :
  is_space c = false -> exists t', strip (c :: t) = c :: t'.
Proof.
  intros Hc. unfold strip. simpl lstrip at 2. rewrite Hc. simpl rev at 2.
  destruct (lstrip_snoc (rev t) c Hc) as [x ->].
  rewrite rev_app_distr. simpl. eauto.
Qed.

Lemma int_body_nonneg s (acc : Z) (after_digit : bool) (v : Z) :
  0 <= acc -> int_body s acc after_digit = Some v -> 0 <= v.
Proof.
  revert acc after_digit. induction s as [|c s IH]; intros acc after_digit Hacc; simpl.
  - destruct after_digit; [intros [= <-]; exact Hacc|discriminate].
  - destruct (is_digit c) eqn:Hc.
    + apply IH. apply is_digit_spec in Hc. unfold digit_val. lia.
    + destruct (ascii_eqb c "_" && after_digit); [now apply IH|discriminate].
Qed.

Lemma py_int_nonneg c t (v : Z) :
  is_digit c = true -> py_int (c :: t) = Some v -> 0 <= v.
Proof.
  intros Hc. unfold py_int.
  destruct (strip_head c t (digit_not_space c Hc)) as [t' ->].
  apply is_digit_spec in Hc.
  rewrite !ascii_eqb_ord by (change (ord "-") with 45; change (ord "+") with 43; lia).
  now apply int_body_nonneg.
Qed.

Lemma py_slice_upto_head c rest (i : Z) :
  1 <= i -> exists t, py_slice (c :: rest) None (Some i) = c :: t.
Proof.
  intros Hi. unfold py_slice. rewrite slice_bound_nonneg by lia.
  cbn [slice_bound]. pose proof (len_nonneg rest). rewrite len_cons.
  destruct (Z.to_nat (Z.min i (1 + len rest) - 0)) as [|k] eqn:Hk; [lia|].
  simpl. eauto.
Qed.

Lemma py_slice_from_nonempty s (i : Z) :
  0 <= i < len s -> py_slice s (Some i) None <> [].
Proof.
  intros Hi. unfold py_slice. rewrite slice_bound_nonneg by lia. cbn [slice_bound].
  intros H. apply (f_equal (@length ascii)) in H.
  rewrite length_firstn, length_skipn in H. simpl in H. unfold len in *. lia.
Qed.

Lemma scan_max_nonneg s (maxlen index : Z) :
  0 <= maxlen -> 0 <= index ->
  0 <= fst (scan_max s maxlen index) /\ 0 <= snd (scan_max s maxlen index).
Proof.
  revert maxlen index. induction s as [|c s IH]; intros maxlen index Hm Hi; simpl;
    [lia|].
  destruct (is_digit c) eqn:Hc; [|simpl; lia].
  apply IH; [|lia]. apply is_digit_spec in Hc. unfold digit_val. lia.
Qed.

Lemma parse_min_returns string unknown :
  returns (fun r => 0 <= fst (fst r) /\ 0 <= snd (fst r)) (parse_min string unknown).
Proof.
  unfold parse_min.
  eapply returns_bind; [apply returns_getitem|]. intros c Hc.
  destruct (Hc ltac:(lia)) as (pre & rest & -> & Hpre).
  apply len_zero in Hpre. subst pre. simpl app.
  destruct (is_digit c) eqn:Hd; [|simpl; lia].
  assert (Hfind : find (c :: rest) "," = -1 \/ 1 <= find (c :: rest) ",").
  { unfold find. simpl. rewrite ascii_eqb_ord.
    - destruct (find_from_range "," rest (0 + 1)); [now left|right; lia].
    - apply is_digit_spec in Hd. change (ord ",") with 44. lia. }
  destruct (Z.eqb_spec (find (c :: rest) ",") (-1)) as [|Hne]; [exact I|].
  destruct Hfind as [|Hfind]; [contradiction|].
  destruct (py_slice_upto_head c rest _ Hfind) as [t ->].
  destruct (py_int (c :: t)) as [minlen|] eqn:Hint; [|exact I].
  apply py_int_nonneg in Hint; [|exact Hd].
  destruct (getitem _ _); simpl; [lia|exact I].
Qed.

Lemma parse_max_returns unknown (minlen maxlen index : Z) c :
  0 <= minlen -> -1 <= maxlen -> 0 <= index ->
  returns (fun r => 0 <= fst (fst r) /\ -1 <= snd (fst r) /\ 0 <= snd r)
    (parse_max unknown minlen maxlen index c).
Proof.
  intros Hmn Hmx Hi. unfold parse_max.
  destruct (ascii_eqb c ","); [|simpl; lia].
  assert (Hmn' : 0 <= (if index =? 0 then 0 else minlen)) by (destruct (index =? 0); lia).
  destruct (index + 1 <? len unknown); [|simpl; lia].
  destruct (getitem unknown (index + 1)) as [c'|]; [|exact I]. simpl.
  destruct (is_digit c'); [|simpl; lia].
  pose proof (scan_max_nonneg (py_slice unknown (Some (index + 1)) None) 0 (index + 1)
                ltac:(lia) ltac:(lia)) as Hs.
  destruct (scan_max _ _ _) as [mx idx]. simpl in *. lia.
Qed.

Lemma scan_letters_returns string rest (res : BlankSpace) (index : Z) :
  returns (fun r => all_letters rest
                    /\ scan_letters string rest res index = Ok r)
    (scan_letters string rest res index).
Proof.
  destruct (scan_letters string rest res index) as [r|e] eqn:Hscan; [|exact I].
  simpl. split; [|reflexivity].
  revert res index Hscan. induction rest as [|c rest IH]; intros res index; simpl;
    [constructor|].
  destruct (is_lower c) eqn:Hc; [|discriminate].
  intros H. constructor; [now apply letter_spec|]. eapply IH, H.
Qed.

Lemma canonical_bracketed (chars : gset ascii) (mn mx : Z) (negated : bool) :
  chars ⊆ all_character_set ->
  0 <= mn -> mx = -1 \/ mn <= mx ->
  (negated = false -> chars <> ∅) ->
  canonical (BlankSpace.Build chars mn mx negated true).
Proof.
  intros Hsub Hmn Hb Hne. unfold canonical, BlankSpace.negated. simpl.
  repeat split; try assumption; discriminate.
Qed.

Lemma all_character_set_nonempty : all_character_set <> ∅.
Proof.
  intros H. assert (Ha : "a"%char ∈ all_character_set) by now apply letter_spec.
  rewrite H in Ha. now apply not_elem_of_empty in Ha.
Qed.

Lemma parse_chars_returns string unknown (minlen maxlen index : Z) :
  0 <= minlen -> -1 <= maxlen -> 0 <= index ->
  returns (fun o => forall r, o = Some r -> canonical r)
    (parse_chars string unknown minlen maxlen index).
Proof.
  intros Hmn Hmx Hi. unfold parse_chars.
  destruct ((-1 <? maxlen) && (maxlen <? minlen)) eqn:Hcheck; [exact I|].
  assert (Hb : maxlen = -1 \/ minlen <= maxlen).
  { apply andb_false_iff in Hcheck. rewrite !Z.ltb_ge in Hcheck. lia. }
  destruct (Z.ltb_spec index (len unknown)) as [Hlt|Hge].
  2:{ simpl. intros r [= <-]. rewrite init_eq, chars_text_of_set.
      cbn [negb andb orb]. rewrite (left_id_L ∅ (∪)).
      apply canonical_bracketed;
        [reflexivity|exact Hmn|exact Hb|intros _; apply all_character_set_nonempty]. }
  destruct (getitem unknown index) as [c|]; [|exact I]. rewrite bind_ok.
  assert (Hinit : forall (negated : bool),
            BlankSpace.__init__ true negated minlen maxlen (Str [])
            = BlankSpace.Build (if negated then all_character_set else ∅)
                minlen maxlen negated true).
  { intros negated. rewrite init_no_chars. now destruct negated. }
  destruct (char_in c (py "^!")).
  - destruct (Z.ltb_spec (index + 1) (len unknown)) as [Hlt'|Hge'].
    + eapply returns_bind; [apply scan_letters_returns|].
      intros r [Hls Hr] r' [= <-].
      rewrite Hinit, scan_letters_all in Hr by exact Hls. injection Hr as <-.
      unfold BlankSpace.negated. simpl.
      apply canonical_bracketed; [set_solver|exact Hmn|exact Hb|discriminate].
    + simpl. intros r [= <-]. rewrite Hinit.
      apply canonical_bracketed; [reflexivity|exact Hmn|exact Hb|discriminate].
  - destruct (Z.ltb_spec index (len unknown)) as [_|]; [|lia].
    eapply returns_bind; [apply scan_letters_returns|].
    intros r [Hls Hr] r' [= <-].
    rewrite Hinit, scan_letters_all in Hr by exact Hls. injection Hr as <-.
    unfold BlankSpace.negated. simpl.
    pose proof (py_slice_from_nonempty unknown index ltac:(lia)) as Hne.
    destruct (py_slice unknown (Some index) None) as [|x xs]; [contradiction|].
    apply canonical_bracketed; [|exact Hmn|exact Hb|].
    + rewrite (left_id_L ∅ (∪)). intros y Hy. apply elem_of_list_to_set in Hy.
      unfold all_letters in Hls. rewrite Forall_forall in Hls. now apply Hls.
    + intros _ Hempty.
      assert (Hx : x ∈ (∅ ∪ list_to_set (x :: xs) : gset ascii)) by set_solver.
      rewrite Hempty in Hx. now apply not_elem_of_empty in Hx.
Qed.

Lemma parse_inner_returns string unknown (is_filter : bool) :
  returns (fun o => forall r, o = Some r -> canonical r)
    (parse_inner string unknown is_filter).
Proof.
  unfold parse_inner.
  eapply returns_bind; [apply parse_min_returns|]. intros [[minlen index] c] [Hmn Hi].
  simpl in Hmn, Hi.
  eapply returns_bind.
  { apply (parse_max_returns unknown minlen (if is_filter then -1 else 1) index c);
      [assumption|destruct is_filter; lia|assumption]. }
  intros [[minlen' maxlen] index'] (Hmn' & Hmx' & Hi'). simpl in *.
  now apply parse_chars_returns.
Qed.

(** Whatever the text, a class that [parse_blank_space] returns is in
    canonical form. *)
Lemma parse_blank_space_canonical (string : option str) (r : BlankSpace) :
  parse_blank_space string = Ok (Some r) -> canonical r.
Proof.
  destruct string as [string|]; [|discriminate].
  unfold parse_blank_space.
  destruct (len string =? 0); [discriminate|].
  destruct (Z.eqb_spec (len (lower string)) 1) as [H1|_].
  - destruct (lower string) as [|c [|c' t]] eqn:Hl;
      try (unfold len in H1; simpl in H1; lia).
    destruct (bool_decide _).
    + intros [= <-]. rewrite init_eq. simpl.
      rewrite (right_id_L ∅ (∪)).
      unfold canonical, BlankSpace.negated. simpl.
      repeat split; try lia; auto using all_character_set_nonempty.
    + simpl forallb. destruct (is_lower c) eqn:Hc; simpl; [|discriminate].
      intros [= <-]. rewrite init_eq. simpl. rewrite (left_id_L ∅ (∪)).
      unfold canonical, BlankSpace.negated. simpl.
      repeat split; try lia.
      * intros x Hx. apply elem_of_union in Hx. destruct Hx as [Hx|Hx].
        -- apply elem_of_singleton in Hx. subst x. now apply letter_spec.
        -- now apply not_elem_of_empty in Hx.
      * intros _ Hempty.
        assert (Hx : c ∈ ({[c]} ∪ ∅ : gset ascii)) by set_solver.
        rewrite Hempty in Hx. now apply not_elem_of_empty in Hx.
  - destruct (getitem (lower string) 0) as [bracket|]; [|discriminate].
    rewrite bind_ok.
    destruct (_BRACKET_MATCHES bracket); [|discriminate].
    destruct (getitem (lower string) (-1)) as [end_bracket|]; [|discriminate].
    rewrite bind_ok.
    destruct (negb _); [discriminate|].
    destruct (_ =? 0); [discriminate|].
    intros H.
    pose proof (parse_inner_returns string
                  (py_slice (lower string) (Some 1) (Some (-1)))
                  (negb (ascii_eqb bracket "["))) as Hr.
    rewrite H in Hr. simpl in Hr. now apply Hr.
Qed.

End ParserCanonical.


(** ** The trie: paths, insertion, enumeration *)

Section TrieFacts.

Import DictionaryNode.

Implicit Types (self child : DictionaryNode) (p w : str) (k c : ascii)
  (d : list (ascii * DictionaryNode)).

(** Induction on a node with the property known for all its children. *)
Lemma node_induction (P : DictionaryNode -> Prop) :
  (forall b d, Forall (fun kc => P (snd kc)) d -> P (Build b d)) ->
  forall self, P self.
Proof.
  intros H. fix IH 1. intros [b d]. apply H.
  induction d as [|[k c] d IHd]; constructor; [apply IH|exact IHd].
Qed.

Lemma ascii_eqb_refl c : ascii_eqb c c = true.
Proof. unfold ascii_eqb. now apply bool_decide_eq_true_2. Qed.

Lemma ascii_eqb_neq c1 c2 : c1 <> c2 -> ascii_eqb c1 c2 = false.
Proof. intros H. unfold ascii_eqb. now apply bool_decide_eq_false_2. Qed.

Lemma dict_get_set_eq k (v : DictionaryNode) d : dict_get k (dict_set k v d) = Some v.
Proof.
  induction d as [|[k0 v0] d IH]; simpl.
  - now rewrite ascii_eqb_refl.
  - destruct (ascii_eqb k0 k) eqn:E; simpl; rewrite E; [reflexivity|exact IH].
Qed.

Lemma dict_get_set_ne k k' (v : DictionaryNode) d :
  k <> k' -> dict_get k' (dict_set k v d) = dict_get k' d.
Proof.
  intros Hne. induction d as [|[k0 v0] d IH]; simpl.
  - now rewrite ascii_eqb_neq.
  - destruct (ascii_eqb k0 k) eqn:E; simpl.
    + apply bool_decide_eq_true_1 in E. subst k0.
      now rewrite (ascii_eqb_neq k k' Hne).
    + destruct (ascii_eqb k0 k'); [reflexivity|exact IH].
Qed.

Lemma dict_get_In k (v : DictionaryNode) d : dict_get k d = Some v -> In (k, v) d.
Proof.
  induction d as [|[k0 v0] d IH]; simpl; [discriminate|].
  destruct (ascii_eqb k0 k) eqn:E.
  - apply bool_decide_eq_true_1 in E. intros [= ->]. left. now subst.
  - intros H. right. now apply IH.
Qed.

Lemma dict_get_unique k (v : DictionaryNode) d :
  NoDup (map fst d) -> In (k, v) d -> dict_get k d = Some v.
Proof.
  induction d as [|[k0 v0] d IH]; simpl; [contradiction|].
  intros Hnd [Hin|Hin].
  - injection Hin as -> ->. now rewrite ascii_eqb_refl.
  - apply NoDup_cons in Hnd. destruct Hnd as [Hnotin Hd].
    rewrite ascii_eqb_neq; [now apply IH|].
    intros ->. apply Hnotin. apply list_elem_of_In.
    change k with (fst (k, v)). now apply in_map.
Qed.

Lemma keys_dict_set k (v : DictionaryNode) d :
  map fst (dict_set k v d)
  = if bool_decide (is_Some (dict_get k d)) then map fst d else map fst d ++ [k].
Proof.
  induction d as [|[k0 v0] d IH]; simpl; [reflexivity|].
  destruct (ascii_eqb k0 k) eqn:E; simpl.
  - reflexivity.
  - rewrite IH. now destruct (bool_decide _).
Qed.

Lemma dict_get_keys k d : dict_get k d = None -> ~ In k (map fst d).
Proof.
  induction d as [|[k0 v0] d IH]; simpl; [tauto|].
  destruct (ascii_eqb k0 k) eqn:E; [discriminate|].
  intros H [->|Hin]; [|now apply IH].
  now rewrite ascii_eqb_refl in E.
Qed.

(** *** [has_child], [get_child], [__getitem__] *)

Lemma has_child_get_child self p :
  p <> [] -> has_child self p = Ok (bool_decide (is_Some (get_child self p))).
Proof.
  intros Hp. revert self. induction p as [|c p IH]; intros self; [contradiction|].
  destruct p as [|c' p'].
  - simpl. destruct (dict_get c (children self)); reflexivity.
  - cbn [has_child get_child].
    destruct (dict_get c (children self)) as [child|].
    + apply IH. discriminate.
    + reflexivity.
Qed.

Lemma getitem_get_child self p :
  p <> [] -> __getitem__ self p = Ok (get_child self p).
Proof.
  intros Hp. revert self. induction p as [|c p IH]; intros self; [contradiction|].
  destruct p as [|c' p'].
  - simpl. destruct (dict_get c (children self)); reflexivity.
  - cbn [__getitem__ get_child].
    destruct (dict_get c (children self)) as [child|]; [|reflexivity].
    apply IH. discriminate.
Qed.

Lemma get_child_app self p q :
  get_child self (p ++ q) = get_child self p ≫= fun n => get_child n q.
Proof.
  revert self. induction p as [|c p IH]; intros self; simpl; [reflexivity|].
  destruct (dict_get c (children self)); [apply IH|reflexivity].
Qed.

End TrieFacts.


(** ** [create_dict_trie]: what the built trie holds *)

Section TrieBuild.

Import DictionaryNode.

Implicit Types (root self child : DictionaryNode) (p q w : str) (k c : ascii)
  (d : list (ascii * DictionaryNode)).

Lemma word_at_fresh (b : bool) p :
  word_at (__init__ b) p = match p with [] => b | _ => false end.
Proof. destruct p; reflexivity. Qed.

Lemma word_at_cons self c p :
  word_at self (c :: p)
  = match dict_get c (children self) with
    | Some child => word_at child p
    | None => false
    end.
Proof. unfold word_at. simpl. now destruct (dict_get c (children self)). Qed.

Lemma word_at_same_children self (b : bool) p :
  p <> [] -> word_at (Build b (children self)) p = word_at self p.
Proof. intros Hp. destruct p as [|c p]; [contradiction|]. now rewrite !word_at_cons. Qed.

Lemma add_word_inner root c c' w' :
  add_word root (c :: c' :: w')
  = add_word (match dict_get c (children root) with
              | Some child => child
              | None => __init__ false
              end) (c' :: w')
    ≫= fun child' =>
         Ok (Build (is_word root) (dict_set c child' (children root))).
Proof. reflexivity. Qed.

Lemma add_word_ok root w : w <> [] -> exists root', add_word root w = Ok root'.
Proof.
  revert root. induction w as [|c w IH]; intros root Hw; [contradiction|].
  destruct w as [|c' w'].
  - simpl. destruct (dict_get c (children root)); eauto.
  - rewrite add_word_inner.
    destruct (IH (match dict_get c (children root) with
                  | Some child => child
                  | None => __init__ false
                  end) ltac:(discriminate)) as [child' ->].
    rewrite bind_ok. eauto.
Qed.

(** After [add_word], the marked paths are the old ones and the word. *)
Lemma add_word_word_at root w root' :
  add_word root w = Ok root' ->
  forall p, word_at root' p = bool_decide (p = w) || word_at root p.
Proof.
  revert root root'. induction w as [|c w IH]; intros root root'; [discriminate|].
  destruct w as [|c' w'].
  - (* the last letter *)
    simpl. intros Hadd p.
    assert (Hroot' : exists child',
              root' = Build (is_word root) (dict_set c child' (children root))
              /\ is_word child' = true
              /\ forall q, q <> [] ->
                   word_at child' q
                   = match dict_get c (children root) with
                     | Some child => word_at child q
                     | None => false
                     end).
    { destruct (dict_get c (children root)) as [child|] eqn:Hc.
      - injection Hadd as <-. eexists. split; [reflexivity|]. split; [reflexivity|].
        intros q Hq. now apply word_at_same_children.
      - injection Hadd as <-. unfold make_child. eexists. split; [reflexivity|].
        split; [reflexivity|]. intros q Hq. rewrite word_at_fresh. now destruct q. }
    destruct Hroot' as (child' & -> & Hw & Hq).
    destruct p as [|c0 p].
    + rewrite bool_decide_eq_false_2 by discriminate. reflexivity.
    + rewrite !word_at_cons. cbn [children].
      destruct (decide (c = c0)) as [<-|Hne].
      * rewrite dict_get_set_eq.
        destruct p as [|c1 p].
        -- rewrite bool_decide_eq_true_2 by reflexivity. exact Hw.
        -- rewrite bool_decide_eq_false_2 by discriminate.
           rewrite Hq by discriminate. reflexivity.
      * rewrite dict_get_set_ne by exact Hne.
        rewrite bool_decide_eq_false_2 by congruence. reflexivity.
  - (* an inner letter *)
    rewrite add_word_inner. intros Hadd p.
    set (child := match dict_get c (children root) with
                  | Some child => child
                  | None => __init__ false
                  end) in *.
    destruct (add_word child (c' :: w')) as [child'|] eqn:Hchild; [|discriminate].
    rewrite bind_ok in Hadd. injection Hadd as <-.
    specialize (IH child child' Hchild).
    destruct p as [|c0 p].
    + rewrite bool_decide_eq_false_2 by discriminate. reflexivity.
    + rewrite !word_at_cons. cbn [children].
      destruct (decide (c = c0)) as [<-|Hne].
      * rewrite dict_get_set_eq, IH.
        assert (Hold : word_at child p
                       = match dict_get c (children root) with
                         | Some child => word_at child p
                         | None => false
                         end).
        { subst child. destruct (dict_get c (children root)); [reflexivity|].
          rewrite word_at_fresh. now destruct p. }
        rewrite Hold. f_equal.
        apply bool_decide_ext. split; [now intros ->|now intros [= ->]].
      * rewrite dict_get_set_ne by exact Hne.
        rewrite bool_decide_eq_false_2 by congruence. reflexivity.
Qed.

Lemma add_words_word_at words root root' :
  add_words root words = Ok root' ->
  forall p, word_at root' p = true
            <-> In p (map clean_word words) \/ word_at root p = true.
Proof.
  revert root. induction words as [|w words IH]; intros root; simpl.
  - intros [= <-] p. tauto.
  - destruct (add_word root (clean_word w)) as [root1|] eqn:H1; [|discriminate].
    rewrite bind_ok. intros H p.
    rewrite (IH root1 H p), (add_word_word_at _ _ _ H1 p).
    rewrite orb_true_iff, bool_decide_eq_true. intuition congruence.
Qed.

Lemma add_words_ok words root :
  Forall (fun w => clean_word w <> []) words ->
  exists root', add_words root words = Ok root'.
Proof.
  intros H. revert root. induction H as [|w words Hw Hws IH]; intros root; simpl;
    [eauto|].
  destruct (add_word_ok root (clean_word w) Hw) as [root1 ->].
  rewrite bind_ok. apply IH.
Qed.

Lemma add_words_raise words root :
  Exists (fun w => clean_word w = []) words ->
  add_words root words = Raise (IndexError (py "string index out of range")).
Proof.
  intros H. revert root. induction words as [|w words IH]; intros root.
  - inversion H.
  - simpl. destruct (clean_word w) as [|c cw] eqn:Hw; [reflexivity|].
    destruct (add_word_ok root (c :: cw) ltac:(discriminate)) as [root1 ->].
    rewrite bind_ok. apply IH.
    apply Exists_cons in H. destruct H as [H|H]; [congruence|exact H].
Qed.

(** The marked paths of a built trie are the cleaned words. *)
Lemma built_trie_word_at words root :
  create_dict_trie words = Ok root ->
  forall p, word_at root p = true <-> In p (map clean_word words).
Proof.
  intros Hbuilt p.
  rewrite (add_words_word_at words _ root Hbuilt p), word_at_fresh.
  destruct p; intuition discriminate.
Qed.

End TrieBuild.

(** X1: the trie built from a list of words holds exactly these words,
    cleaned: a path from the root ends on a node marked [is_word] if and
    only if it is the cleaned form of a word of the list. *)
Theorem X1_create_dict_trie_words (words : list str) (root : DictionaryNode)
    (Hbuilt : create_dict_trie words = Ok root) (p : str) :
  (exists n, DictionaryNode.get_child root p = Some n
             /\ DictionaryNode.is_word n = true)
  <-> In p (map clean_word words).
Proof.
  pose proof (add_words_word_at words _ root Hbuilt p) as H.
  rewrite word_at_fresh in H.
  assert (Hw : word_at root p = true
               <-> exists n, DictionaryNode.get_child root p = Some n
                             /\ DictionaryNode.is_word n = true).
  { unfold word_at. destruct (DictionaryNode.get_child root p) as [n|].
    - split; [eauto|]. now intros (n' & [= <-] & Hn).
    - split; [discriminate|]. now intros (n' & Hn & _). }
  rewrite <- Hw, H. destruct p; intuition discriminate.
Qed.

Lemma X1_create_dict_trie_words_witness :
  (exists n, DictionaryNode.get_child
               (DictionaryNode.Build false
                  [("a"%char, DictionaryNode.Build false
                     [("b"%char, DictionaryNode.Build true [])])]) (py "ab") = Some n
             /\ DictionaryNode.is_word n = true)
  <-> In (py "ab") (map clean_word [py "A-b"]).
Proof.
  apply (X1_create_dict_trie_words [py "A-b"]).
  vm_compute. reflexivity.
Defined.

(** X2: [create_dict_trie] returns a trie exactly when every word has a
    letter left after cleaning, and fails with the [IndexError] of
    [word[-1]] exactly when some word cleans to the empty string. *)
Theorem X2_create_dict_trie_empty_word (words : list str) :
  ((exists root, create_dict_trie words = Ok root)
   <-> Forall (fun w => clean_word w <> []) words)
  /\ (create_dict_trie words = Raise (IndexError (py "string index out of range"))
      <-> Exists (fun w => clean_word w = []) words).
Proof.
  assert (Hdec : {Forall (fun w => clean_word w <> []) words}
                 + {Exists (fun w => clean_word w = []) words}).
  { apply Forall_Exists_dec. intros w.
    destruct (clean_word w); [right; reflexivity|left; discriminate]. }
  unfold create_dict_trie. split; split.
  - intros [root Hroot]. destruct Hdec as [H|H]; [exact H|].
    rewrite (add_words_raise words _ H) in Hroot. discriminate.
  - apply add_words_ok.
  - intros Hraise. destruct Hdec as [H|H]; [|exact H].
    destruct (add_words_ok words (DictionaryNode.__init__ false) H) as [root Hroot].
    rewrite Hroot in Hraise. discriminate.
  - apply add_words_raise.
Qed.


(** ** [all_words] and [is_word] on a built trie *)

Section TrieEnumeration.

Import DictionaryNode.

Implicit Types (root self child : DictionaryNode) (p q w word : str) (k c : ascii)
  (d : list (ascii * DictionaryNode)).

Lemma unique_keys_eq (b : bool) d :
  unique_keys (Build b d)
  <-> NoDup (map fst d) /\ Forall (fun kc => unique_keys (snd kc)) d.
Proof.
  simpl. apply and_iff_compat_l.
  induction d as [|[k c] d IH]; simpl.
  - split; [constructor|trivial].
  - rewrite IH, Forall_cons. reflexivity.
Qed.

Lemma unique_keys_fresh (b : bool) : unique_keys (__init__ b).
Proof. apply unique_keys_eq. split; constructor. Qed.

Lemma Forall_dict_set (P : DictionaryNode -> Prop) k (v : DictionaryNode) d :
  Forall (fun kc => P (snd kc)) d -> P v ->
  Forall (fun kc => P (snd kc)) (dict_set k v d).
Proof.
  intros Hd Hv. induction Hd as [|[k0 v0] d H0 Hd IH]; simpl.
  - now repeat constructor.
  - destruct (ascii_eqb k0 k); constructor; assumption.
Qed.

Lemma NoDup_dict_set k (v : DictionaryNode) d :
  NoDup (map fst d) -> NoDup (map fst (dict_set k v d)).
Proof.
  intros Hd. rewrite keys_dict_set.
  destruct (dict_get k d) as [x|] eqn:Hk.
  - now rewrite bool_decide_eq_true_2 by eauto.
  - rewrite bool_decide_eq_false_2 by (intros [x Hx]; discriminate).
    apply NoDup_app. split; [exact Hd|]. split.
    + intros x Hx Hx'. apply list_elem_of_In in Hx.
      apply list_elem_of_singleton in Hx'. subst x.
      now apply dict_get_keys in Hk.
    + apply NoDup_singleton.
Qed.

Lemma unique_keys_children self c child :
  unique_keys self -> dict_get c (children self) = Some child -> unique_keys child.
Proof.
  destruct self as [b d]. rewrite unique_keys_eq. intros [_ Hd] Hc.
  apply dict_get_In in Hc. rewrite Forall_forall in Hd.
  apply list_elem_of_In in Hc. now apply (Hd _ Hc).
Qed.

Lemma unique_keys_set self (b : bool) c child :
  unique_keys self -> unique_keys child ->
  unique_keys (Build b (dict_set c child (children self))).
Proof.
  destruct self as [b0 d]. rewrite !unique_keys_eq. simpl. intros [Hn Hd] Hc.
  split; [now apply NoDup_dict_set|now apply Forall_dict_set].
Qed.

Lemma add_word_unique_keys w :
  forall root root', unique_keys root -> add_word root w = Ok root' -> unique_keys root'.
Proof.
  induction w as [|c w IH]; intros root root' Hroot; [discriminate|].
  destruct w as [|c' w'].
  - simpl. destruct (dict_get c (children root)) as [child|] eqn:Hc.
    + intros [= <-]. apply unique_keys_set; [exact Hroot|].
      pose proof (unique_keys_children _ _ _ Hroot Hc) as Hchild.
      destruct child as [b d]. apply unique_keys_eq. now apply unique_keys_eq in Hchild.
    + intros [= <-]. unfold make_child.
      apply unique_keys_set; [exact Hroot|apply unique_keys_fresh].
  - rewrite add_word_inner.
    destruct (add_word _ (c' :: w')) as [child'|] eqn:Hchild; [|discriminate].
    rewrite bind_ok. intros [= <-].
    apply unique_keys_set; [exact Hroot|].
    eapply IH; [|exact Hchild].
    destruct (dict_get c (children root)) as [child|] eqn:Hc;
      [now apply (unique_keys_children _ _ _ Hroot Hc)|apply unique_keys_fresh].
Qed.

Lemma create_dict_trie_unique_keys words root :
  create_dict_trie words = Ok root -> unique_keys root.
Proof.
  unfold create_dict_trie. generalize (unique_keys_fresh false).
  generalize (__init__ false). induction words as [|w words IH]; intros r Hr; simpl.
  - now intros [= <-].
  - destruct (add_word r (clean_word w)) as [r1|] eqn:H1; [|discriminate].
    rewrite bind_ok. apply IH. now apply (add_word_unique_keys _ _ _ Hr H1).
Qed.

Lemma all_words_eq word (b : bool) d :
  all_words (word, Build b d)
  = (if b then [word] else [])
      ++ concat (map (fun kc => all_words (word ++ [fst kc], snd kc)) d).
Proof.
  unfold all_words. simpl. f_equal.
  induction d as [|[k c] d IH]; simpl; [reflexivity|]. now rewrite IH.
Qed.

(** The words listed below a node are the marked paths, each after the
    word of the node. *)
Lemma all_words_spec self :
  unique_keys self ->
  forall word w,
    In w (all_words (word, self))
    <-> exists p, w = word ++ p /\ word_at self p = true.
Proof.
  induction self as [b d IH] using node_induction.
  intros Hu word w. apply unique_keys_eq in Hu. destruct Hu as [Hnd Hd].
  rewrite all_words_eq, in_app_iff, in_concat. split.
  - intros [Hw|(l & Hl & Hw)].
    + destruct b; [|contradiction]. destruct Hw as [<-|[]].
      exists []. now rewrite app_nil_r.
    + apply in_map_iff in Hl. destruct Hl as ([k c] & <- & Hkc). simpl in Hw.
      rewrite Forall_forall in IH, Hd. apply list_elem_of_In in Hkc as Hkc'.
      apply (IH _ Hkc' (Hd _ Hkc')) in Hw. destruct Hw as (p & -> & Hp).
      exists (k :: p). split; [now rewrite <- app_assoc|].
      rewrite word_at_cons. simpl.
      now rewrite (dict_get_unique k c d Hnd Hkc).
  - intros (p & -> & Hp). destruct p as [|k p].
    + left. unfold word_at in Hp. simpl in Hp. subst b.
      rewrite app_nil_r. now left.
    + right. rewrite word_at_cons in Hp. simpl in Hp.
      destruct (dict_get k d) as [c|] eqn:Hk; [|discriminate].
      apply dict_get_In in Hk.
      exists (all_words (word ++ [k], c)). split.
      * apply in_map_iff. now exists (k, c).
      * rewrite Forall_forall in IH, Hd. apply list_elem_of_In in Hk as Hk'.
        apply (IH _ Hk' (Hd _ Hk')). exists p. split; [now rewrite <- app_assoc|exact Hp].
Qed.

End TrieEnumeration.

(** X3: on the trie built from a list of words, [all_words] from the root
    lists exactly the cleaned words of the list. *)
Theorem X3_all_words_of_built_trie (words : list str) (root : DictionaryNode)
    (Hbuilt : create_dict_trie words = Ok root) (w : str) :
  In w (DictionaryNode.all_words ([], root)) <-> In w (map clean_word words).
Proof.
  rewrite (all_words_spec root (create_dict_trie_unique_keys _ _ Hbuilt) [] w).
  rewrite <- (built_trie_word_at words root Hbuilt w).
  split.
  - intros (p & -> & Hp). exact Hp.
  - intros Hp. now exists w.
Qed.

Lemma X3_all_words_of_built_trie_witness :
  In (py "ab")
     (DictionaryNode.all_words
        ([], DictionaryNode.Build false
               [("a"%char, DictionaryNode.Build false
                  [("b"%char, DictionaryNode.Build true [])])]))
  <-> In (py "ab") (map clean_word [py "A-b"]).
Proof.
  apply (X3_all_words_of_built_trie [py "A-b"]).
  vm_compute. reflexivity.
Defined.


(** ** [is_word]: what the lookup accepts *)

Section TriePaths.

Import DictionaryNode.

Implicit Types (root self child : DictionaryNode) (p q w : str) (k c : ascii).

Lemma get_child_fresh (b : bool) p :
  is_Some (get_child (__init__ b) p) <-> p = [].
Proof.
  destruct p as [|c p]; simpl; split; try eauto; try discriminate.
  intros [x Hx]. discriminate.
Qed.

Lemma get_child_same_children self (b : bool) p :
  p <> [] -> get_child (Build b (children self)) p = get_child self p.
Proof. now destruct p. Qed.

Lemma prefix_cons c p c0 w :
  (exists q, c :: w = (c0 :: p) ++ q) <-> c = c0 /\ exists q, w = p ++ q.
Proof.
  split.
  - intros (q & [= -> ->]). eauto.
  - intros (-> & q & ->). now exists q.
Qed.

(** After [add_word], the paths are the old ones and the beginnings of
    the word. *)
Lemma add_word_path w :
  forall root root', add_word root w = Ok root' ->
  forall p, is_Some (get_child root' p)
            <-> (exists q, w = p ++ q) \/ is_Some (get_child root p).
Proof.
  induction w as [|c w IH]; intros root root'; [discriminate|].
  assert (Hstep : forall child',
            (forall p, is_Some (get_child child' p)
                       <-> (exists q, w = p ++ q)
                           \/ match dict_get c (children root) with
                              | Some child => is_Some (get_child child p)
                              | None => False
                              end) ->
            forall p,
              is_Some (get_child
                         (Build (is_word root) (dict_set c child' (children root))) p)
              <-> (exists q, c :: w = p ++ q) \/ is_Some (get_child root p)).
  { intros child' Hchild p. destruct p as [|c0 p].
    - simpl. split; [intros _; left; now exists (c :: w)|eauto].
    - rewrite prefix_cons. cbn [get_child children].
      destruct (decide (c = c0)) as [<-|Hne].
      + rewrite dict_get_set_eq, Hchild.
        destruct (dict_get c (children root)); [tauto|].
        split; [intros [H|[]]; left; tauto|intros [[_ H]|[x Hx]]; [tauto|discriminate]].
      + rewrite dict_get_set_ne by exact Hne. tauto. }
  destruct w as [|c' w'].
  - simpl. intros Hadd. 
    destruct (dict_get c (children root)) as [child|] eqn:Hc.
    + injection Hadd as <-. apply Hstep. intros p.
      destruct p as [|c1 p].
      * simpl. split; [intros _; left; now exists []|eauto].
      * rewrite get_child_same_children by discriminate.
        split; [tauto|]. intros [(q & Hq)|H]; [discriminate|exact H].
    + injection Hadd as <-. unfold make_child. apply Hstep. intros p.
      rewrite get_child_fresh. split.
      * intros ->. left. now exists [].
      * intros [(q & Hq)|[]]. symmetry in Hq. now apply app_eq_nil in Hq.
  - rewrite add_word_inner.
    destruct (add_word _ (c' :: w')) as [child'|] eqn:Hchild; [|discriminate].
    rewrite bind_ok. intros [= <-]. apply Hstep. intros p.
    rewrite (IH _ _ Hchild p).
    destruct (dict_get c (children root)); [reflexivity|].
    rewrite get_child_fresh. split.
    + intros [H| ->]; [now left|]. left. now exists (c' :: w').
    + intros [H|[]]. now left.
Qed.

Lemma add_words_path words :
  forall root root', add_words root words = Ok root' ->
  forall p, is_Some (get_child root' p)
            <-> (exists w q, In w words /\ clean_word w = p ++ q)
                \/ is_Some (get_child root p).
Proof.
  induction words as [|w words IH]; intros root root'; simpl.
  - intros [= <-] p. split; [now right|]. now intros [(w & q & [] & _)|H].
  - destruct (add_word root (clean_word w)) as [root1|] eqn:H1; [|discriminate].
    rewrite bind_ok. intros H p.
    rewrite (IH _ _ H p), (add_word_path _ _ _ H1 p). split.
    + intros [(w0 & q & Hin & Hq)|[(q & Hq)|Hold]].
      * left. exists w0, q. auto.
      * left. exists w, q. auto.
      * now right.
    + intros [(w0 & q & [<-|Hin] & Hq)|Hold].
      * right. left. now exists q.
      * left. now exists w0, q.
      * right. now right.
Qed.

End TriePaths.

(** X4: on a built trie, [is_word] (a call of [has_child] on the cleaned
    text) answers [True] exactly for the texts whose cleaned form is not
    empty and begins a cleaned word of the list: beginnings of words are
    accepted as well as whole words.  It raises [IndexError] exactly when
    nothing is left of the text after cleaning. *)
Theorem X4_is_word_accepts_beginnings (words : list str) (root : DictionaryNode)
    (Hbuilt : create_dict_trie words = Ok root) (text : str) :
  (is_word root text = Ok true
   <-> clean_word text <> []
       /\ exists w q, In w words /\ clean_word w = clean_word text ++ q)
  /\ (is_word root text = Raise (IndexError (py "string index out of range"))
      <-> clean_word text = []).
Proof.
  unfold is_word. destruct (clean_word text) as [|c t] eqn:Ht.
  - split; split; try reflexivity; try discriminate. now intros [H _].
  - rewrite has_child_get_child by discriminate.
    pose proof (add_words_path words _ root Hbuilt (c :: t)) as Hp.
    rewrite get_child_fresh in Hp.
    split; split; try discriminate.
    + intros [= H]. apply bool_decide_eq_true_1 in H. split; [discriminate|].
      apply Hp in H. destruct H as [H|H]; [exact H|discriminate].
    + intros [_ H]. f_equal. apply bool_decide_eq_true_2. apply Hp. now left.
Qed.

Lemma X4_is_word_accepts_beginnings_witness :
  (is_word (DictionaryNode.Build false
              [("a"%char, DictionaryNode.Build false
                 [("b"%char, DictionaryNode.Build true [])])]) (py "a") = Ok true
   <-> clean_word (py "a") <> []
       /\ exists w q, In w [py "ab"] /\ clean_word w = clean_word (py "a") ++ q)
  /\ (is_word (DictionaryNode.Build false
                 [("a"%char, DictionaryNode.Build false
                    [("b"%char, DictionaryNode.Build true [])])]) (py "a")
      = Raise (IndexError (py "string index out of range"))
      <-> clean_word (py "a") = []).
Proof.
  apply (X4_is_word_accepts_beginnings [py "ab"]).
  vm_compute. reflexivity.
Defined.


(** ** Lookups along a path, and the depth of a trie *)

(** X5: the three lookups of a node agree.  On a path that is not empty,
    [has_child] answers whether [get_child] finds a node and [__getitem__]
    returns what [get_child] returns; and a path made of two parts is
    followed part after part.  On the empty path [get_child] returns the
    node itself while [has_child] and [__getitem__] raise [IndexError]. *)
Theorem X5_lookups_agree (self : DictionaryNode) (p q : str) (Hp : p <> []) :
  DictionaryNode.has_child self p
  = Ok (bool_decide (is_Some (DictionaryNode.get_child self p)))
  /\ DictionaryNode.__getitem__ self p = Ok (DictionaryNode.get_child self p)
  /\ DictionaryNode.get_child self (p ++ q)
     = match DictionaryNode.get_child self p with
       | Some n => DictionaryNode.get_child n q
       | None => None
       end
  /\ DictionaryNode.get_child self [] = Some self
  /\ DictionaryNode.has_child self []
     = Raise (IndexError (py "string index out of range"))
  /\ DictionaryNode.__getitem__ self []
     = Raise (IndexError (py "string index out of range")).
Proof.
  split; [now apply has_child_get_child|].
  split; [now apply getitem_get_child|].
  split; [|repeat split].
  rewrite get_child_app. now destruct (DictionaryNode.get_child self p).
Qed.

Lemma X5_lookups_agree_witness :
  let self := DictionaryNode.Build false
                [("a"%char, DictionaryNode.Build false
                   [("b"%char, DictionaryNode.Build true [])])] in
  DictionaryNode.has_child self (py "a")
  = Ok (bool_decide (is_Some (DictionaryNode.get_child self (py "a"))))
  /\ DictionaryNode.__getitem__ self (py "a") = Ok (DictionaryNode.get_child self (py "a"))
  /\ DictionaryNode.get_child self (py "a" ++ py "b")
     = match DictionaryNode.get_child self (py "a") with
       | Some n => DictionaryNode.get_child n (py "b")
       | None => None
       end
  /\ DictionaryNode.get_child self [] = Some self
  /\ DictionaryNode.has_child self []
     = Raise (IndexError (py "string index out of range"))
  /\ DictionaryNode.__getitem__ self []
     = Raise (IndexError (py "string index out of range")).
Proof.
  intros self. apply (X5_lookups_agree self (py "a") (py "b")). discriminate.
Defined.

Section TrieLongestPath.

Import DictionaryNode.

Implicit Types (self child : DictionaryNode) (p : str)
  (d : list (ascii * DictionaryNode)).

Lemma get_child_depth p :
  forall self n, get_child self p = Some n ->
                 len p + max_layers_below n <= max_layers_below self.
Proof.
  induction p as [|c p IH]; intros self n; simpl.
  - intros [= <-]. rewrite len_nil. lia.
  - destruct (dict_get c (children self)) as [child|] eqn:Hc; [|discriminate].
    intros Hn. apply IH in Hn. apply max_layers_below_child in Hc.
    rewrite len_cons. lia.
Qed.

Lemma max_over_attained d (z : Z) :
  max_over d z = z
  \/ exists kc, In kc d /\ max_layers_below (snd kc) = max_over d z.
Proof.
  unfold max_over. revert z. induction d as [|kc d IH]; intros z; simpl; [now left|].
  destruct (IH (Z.max z (max_layers_below (snd kc)))) as [H|(kc' & Hin & H)].
  - destruct (Z.max_spec z (max_layers_below (snd kc))) as [[_ Hm]|[_ Hm]].
    + right. exists kc. split; [now left|]. rewrite H. now rewrite Hm.
    + left. now rewrite H.
  - right. exists kc'. split; [now right|exact H].
Qed.

Lemma longest_path self :
  unique_keys self ->
  exists p n, get_child self p = Some n /\ len p = max_layers_below self.
Proof.
  induction self as [b d IH] using node_induction. intros Hu.
  apply unique_keys_eq in Hu. destruct Hu as [Hnd Hd].
  rewrite max_layers_below_eq.
  destruct (max_over_attained d (-1)) as [H|([k c] & Hin & H)].
  - exists [], (Build b d). split; [reflexivity|]. rewrite H. reflexivity.
  - rewrite Forall_forall in IH, Hd. apply list_elem_of_In in Hin as Hin'.
    destruct (IH _ Hin' (Hd _ Hin')) as (p & n & Hp & Hlen).
    cbn [snd] in H, Hp, Hlen.
    exists (k :: p), n. simpl. rewrite (dict_get_unique k c d Hnd Hin).
    split; [exact Hp|]. rewrite len_cons, Hlen. lia.
Qed.

End TrieLongestPath.

(** X6: [max_layers_below] is the length of the longest path below the
    node: no path that leads to a node is longer, and (children being
    stored under distinct letters) some path has that length. *)
Theorem X6_max_layers_below_longest_path (self : DictionaryNode)
    (Hkeys : unique_keys self) :
  (forall p n, DictionaryNode.get_child self p = Some n ->
               len p <= DictionaryNode.max_layers_below self)
  /\ exists p n, DictionaryNode.get_child self p = Some n
                 /\ len p = DictionaryNode.max_layers_below self.
Proof.
  split; [|now apply longest_path].
  intros p n Hn. apply get_child_depth in Hn.
  pose proof (max_layers_below_nonneg n). lia.
Qed.

Lemma X6_max_layers_below_longest_path_witness :
  let self := DictionaryNode.Build false
                [("a"%char, DictionaryNode.Build false
                   [("b"%char, DictionaryNode.Build true [])])] in
  (forall p n, DictionaryNode.get_child self p = Some n ->
               len p <= DictionaryNode.max_layers_below self)
  /\ exists p n, DictionaryNode.get_child self p = Some n
                 /\ len p = DictionaryNode.max_layers_below self.
Proof.
  intros self. apply (X6_max_layers_below_longest_path self).
  simpl. repeat split; repeat constructor; try (intros H; inversion H);
    try (apply not_elem_of_nil).
Defined.

Section CleanWord.

Lemma lower_char_lower c : is_lower c = true -> lower_char c = c.
Proof. intros H. unfold lower_char. now rewrite (lower_not_upper c H). Qed.

Lemma filter_all {A : Type} (f : A -> bool) (l : list A) :
  Forall (fun x => f x = true) l -> List.filter f l = l.
Proof.
  induction 1 as [|x l Hx Hl IH]; simpl; [reflexivity|]. now rewrite Hx, IH.
Qed.

Lemma clean_word_lower (word : str) : Forall (fun c => is_lower c = true) (clean_word word).
Proof.
  unfold clean_word. apply Forall_forall. intros c Hc.
  apply list_elem_of_In, filter_In in Hc. tauto.
Qed.

End CleanWord.

(** X7: [clean_word] keeps only letters [a]-[z]: every character of its
    result is in the alphabet, a text of such letters is returned as it
    is, and cleaning twice is cleaning once. *)
Theorem X7_clean_word_letters (word : str) :
  Forall (fun c => c ∈ all_character_set) (clean_word word)
  /\ (Forall (fun c => c ∈ all_character_set) word -> clean_word word = word)
  /\ clean_word (clean_word word) = clean_word word.
Proof.
  assert (Hid : forall t : str, Forall (fun c => is_lower c = true) t -> clean_word t = t).
  { intros t Ht. unfold clean_word.
    assert (Hl : lower t = t).
    { unfold lower. induction Ht as [|c t Hc Ht IH]; simpl; [reflexivity|].
      now rewrite IH, lower_char_lower. }
    rewrite Hl. now apply filter_all. }
  split; [|split].
  - eapply Forall_impl; [apply clean_word_lower|]. intros c. apply letter_spec.
  - intros H. apply Hid. eapply Forall_impl; [exact H|]. intros c. apply letter_spec.
  - apply Hid, clean_word_lower.
Qed.


(** ** [get_possible_children]: which nodes are found *)

Section MatcherNodes.

Import DictionaryNode.

Implicit Types (self : ref) (space : BlankSpace) (p w : str) (c : ascii)
  (n child : DictionaryNode).

Lemma for_characters_spec run self space cs below :
  for_characters run self space cs = Some (Ok below) ->
  forall x, In x below
            <-> exists c child space' found,
                  In c cs
                  /\ dict_get c (children (snd self)) = Some child
                  /\ BlankSpace.clone_minus space 1 None = Ok space'
                  /\ run (fst self ++ [c], child) space' = Some (Ok found)
                  /\ In x found.
Proof.
  revert below. induction cs as [|c cs IH]; intros below; simpl.
  - intros [= <-] x. split; [intros []|]. now intros (? & ? & ? & ? & [] & _).
  - destruct (dict_get c (children (snd self))) as [child|] eqn:Hc.
    + destruct (BlankSpace.clone_minus space 1 None) as [space'|] eqn:Hs; [|discriminate].
      destruct (run (fst self ++ [c], child) space') as [[found|]|] eqn:Hr;
        try discriminate.
      destruct (for_characters run self space cs) as [[more|]|] eqn:Hm;
        try discriminate.
      intros [= <-] x. rewrite in_app_iff, (IH more eq_refl x). split.
      * intros [Hx|(c0 & ch & sp & f & Hin & H)].
        -- exists c, child, space', found. auto.
        -- exists c0, ch, sp, f. tauto.
      * intros (c0 & ch & sp & f & [<-|Hin] & Hd & Hcl & Hrun & Hx).
        -- left. congruence.
        -- right. exists c0, ch, sp, f. auto.
    + intros H x. rewrite (IH below H x). split.
      * intros (c0 & ch & sp & f & Hin & H'). exists c0, ch, sp, f. tauto.
      * intros (c0 & ch & sp & f & [<-|Hin] & Hd & H'); [congruence|].
        exists c0, ch, sp, f. auto.
Qed.

Lemma for_characters_each run self space cs below c child space' :
  for_characters run self space cs = Some (Ok below) ->
  In c cs ->
  dict_get c (children (snd self)) = Some child ->
  BlankSpace.clone_minus space 1 None = Ok space' ->
  exists found, run (fst self ++ [c], child) space' = Some (Ok found).
Proof.
  revert below. induction cs as [|c0 cs IH]; intros below; simpl; [intros _ []|].
  intros H [<-|Hin] Hc Hs.
  - rewrite Hc, Hs in H.
    destruct (run (fst self ++ [c0], child) space') as [[found|]|]; try discriminate.
    eauto.
  - destruct (dict_get c0 (children (snd self))) as [child0|]; [|eauto].
    destruct (BlankSpace.clone_minus space 1 None) as [sp|]; [|discriminate].
    destruct (run (fst self ++ [c0], child0) sp) as [[found|]|]; try discriminate.
    destruct (for_characters run self space cs) as [[more|]|]; try discriminate.
    eauto.
Qed.

Lemma path_matches_nil space :
  path_matches space [] <-> BlankSpace.min_blanks space <= 0.
Proof.
  unfold path_matches. rewrite len_nil. split; [tauto|].
  intros H. split; [constructor|]. split; [exact H|lia].
Qed.

Lemma path_matches_cons space space' c p :
  0 <= BlankSpace.min_blanks space ->
  BlankSpace.max_blanks space <> 0 ->
  BlankSpace.clone_minus space 1 None = Ok space' ->
  path_matches space (c :: p)
  <-> c ∈ BlankSpace.possible_characters space /\ path_matches space' p.
Proof.
  intros Hmin Hmax Hs. rewrite clone_minus_eq in Hs.
  destruct (Z.eqb_spec (BlankSpace.max_blanks space) 0); [contradiction|].
  injection Hs as <-. unfold path_matches. simpl. rewrite Forall_cons, len_cons.
  pose proof (len_nonneg p).
  destruct (Z.eqb_spec (BlankSpace.max_blanks space) (-1)); intuition lia.
Qed.

Lemma get_possible_children_spec (depth : nat) :
  forall self space found,
    0 <= BlankSpace.min_blanks space ->
    get_possible_children depth self space = Some (Ok found) ->
    forall w n,
      In (w, n) found
      <-> exists p, w = fst self ++ p
                    /\ get_child (snd self) p = Some n
                    /\ path_matches space p.
Proof.
  induction depth as [|depth IH]; intros [word node] space found Hmin; [discriminate|].
  cbn [get_possible_children fst snd].
  cbv zeta.
  assert (Hhere : forall w n,
            In (w, n) (if BlankSpace.min_blanks space =? 0 then [(word, node)] else [])
            <-> w = word /\ n = node /\ BlankSpace.min_blanks space <= 0).
  { intros w n.
    destruct (Z.eqb_spec (BlankSpace.min_blanks space) 0) as [H0|H0]; simpl.
    - split; [intros [[= <- <-]|[]]; split; [|split]; (reflexivity || lia)|].
      intros (-> & -> & _). now left.
    - split; [intros []|]. intros (_ & _ & H). lia. }
  destruct (Z.eqb_spec (BlankSpace.max_blanks space) 0) as [Hmax|Hmax].
  - intros [= <-] w n. rewrite Hhere. split.
    + intros (-> & -> & H0). exists []. rewrite app_nil_r.
      split; [reflexivity|]. split; [reflexivity|].
        now apply (proj2 (path_matches_nil space)).
    + intros (p & -> & Hp & Hm).
      assert (p = []) as ->.
      { destruct Hm as (_ & _ & [H|H]); [lia|].
        apply len_zero. pose proof (len_nonneg p). lia. }
      simpl in Hp. injection Hp as <-. rewrite app_nil_r.
      split; [reflexivity|]. split; [reflexivity|].
      now apply (proj1 (path_matches_nil space)).
  - destruct (for_characters (get_possible_children depth) (word, node) space
                (elements (BlankSpace.possible_characters space)))
      as [[below|]|] eqn:Hloop; try discriminate.
    intros [= <-] w n.
    pose proof (for_characters_spec _ _ _ _ _ Hloop (w, n)) as Hbelow.
    cbn [fst snd] in Hbelow.
    assert (Hmin' : forall space', BlankSpace.clone_minus space 1 None = Ok space' ->
                                   0 <= BlankSpace.min_blanks space').
    { intros space' Hs. rewrite clone_minus_eq in Hs.
      destruct (BlankSpace.max_blanks space =? 0); [discriminate|].
      injection Hs as <-. simpl. lia. }
    rewrite in_app_iff, Hhere, Hbelow. split.
    + intros [(-> & -> & H0)|(c & child & space' & found & Hin & Hc & Hs & Hrun & Hx)].
      * exists []. rewrite app_nil_r.
        split; [reflexivity|]. split; [reflexivity|].
        now apply (proj2 (path_matches_nil space)).
      * apply (IH _ _ _ (Hmin' _ Hs) Hrun) in Hx. cbn [fst snd] in Hx.
        destruct Hx as (p & -> & Hp & Hm).
        exists (c :: p). split; [now rewrite <- app_assoc|].
        split; [simpl; now rewrite Hc|].
        apply (path_matches_cons space space' c p Hmin Hmax Hs).
        split; [|exact Hm]. apply elem_of_elements. now apply list_elem_of_In.
    + intros (p & -> & Hp & Hm). destruct p as [|c p].
      * left. simpl in Hp. injection Hp as <-. rewrite app_nil_r.
        split; [reflexivity|]. split; [reflexivity|].
        now apply (proj1 (path_matches_nil space)).
      * right. simpl in Hp.
        destruct (dict_get c (children node)) as [child|] eqn:Hc; [|discriminate].
        assert (exists space', BlankSpace.clone_minus space 1 None = Ok space')
          as [space' Hs].
        { rewrite clone_minus_eq.
          destruct (Z.eqb_spec (BlankSpace.max_blanks space) 0);
            [contradiction|eauto]. }
        apply (path_matches_cons space space' c p Hmin Hmax Hs) in Hm.
        destruct Hm as [Hcin Hm].
        assert (Hin : In c (elements (BlankSpace.possible_characters space)))
          by now apply list_elem_of_In, elem_of_elements.
        destruct (for_characters_each _ _ _ _ _ c child space' Hloop Hin Hc Hs)
          as [found Hrun].
        exists c, child, space', found. repeat split; try assumption.
        apply (IH _ _ _ (Hmin' _ Hs) Hrun). cbn [fst snd].
        exists p. split; [now rewrite <- app_assoc|]. split; assumption.
Qed.

End MatcherNodes.

(** X8: what [get_possible_children] finds.  For a space whose
    [min_blanks] is not negative, a run that returns yields exactly the
    nodes reached from the starting node along existing edges by a text of
    letters of the space, whose length is at least [min_blanks] and, when
    [max_blanks] is not negative, at most [max_blanks]; each node comes with
    the word of the starting node followed by that text. *)
Theorem X8_get_possible_children_nodes
    (depth : nat) (self : DictionaryNode.ref) (space : BlankSpace)
    (found : list DictionaryNode.ref)
    (Hmin : 0 <= BlankSpace.min_blanks space)
    (Hrun : DictionaryNode.get_possible_children depth self space = Some (Ok found))
    (w : str) (n : DictionaryNode) :
  In (w, n) found
  <-> exists p, w = fst self ++ p
                /\ DictionaryNode.get_child (snd self) p = Some n
                /\ Forall (fun c => c ∈ BlankSpace.possible_characters space) p
                /\ BlankSpace.min_blanks space <= len p
                /\ (BlankSpace.max_blanks space < 0
                    \/ len p <= BlankSpace.max_blanks space).
Proof. exact (get_possible_children_spec depth self space found Hmin Hrun w n). Qed.

Lemma X8_get_possible_children_nodes_witness :
  let leaf := DictionaryNode.Build true [] in
  let mid := DictionaryNode.Build false [("b"%char, leaf)] in
  let root := DictionaryNode.Build false [("a"%char, mid)] in
  let space := BlankSpace.Build (list_to_set (py "ab")) 1 2 false true in
  In (py "ab", leaf) [(py "a", mid); (py "ab", leaf)]
  <-> exists p, py "ab" = [] ++ p
                /\ DictionaryNode.get_child root p = Some leaf
                /\ Forall (fun c => c ∈ BlankSpace.possible_characters space) p
                /\ BlankSpace.min_blanks space <= len p
                /\ (BlankSpace.max_blanks space < 0
                    \/ len p <= BlankSpace.max_blanks space).
Proof.
  intros leaf mid root space.
  apply (X8_get_possible_children_nodes 3 ([], root) space
           [(py "a", mid); (py "ab", leaf)]).
  - simpl. lia.
  - vm_compute. reflexivity.
Defined.


(** ** BlankSpace: what [clone_minus] and [apply_filter] keep *)

(** X9: [clone_minus] keeps the invariants of the bounds when asked for
    what the class can give.  On a class with [0 <= min_blanks] and
    [max_blanks = -1] or [min_blanks <= max_blanks], with [max_blanks]
    not 0, reduced by [0 <= sub_min <= sub_max] where [sub_min] is at most a
    numeric [max_blanks], it returns a class with [0 <= min_blanks] and the
    same invariant, the same characters and flags, and with no upper bound
    exactly when the receiver had none. *)
Theorem X9_clone_minus_keeps_bounds
    (self : BlankSpace) (sub_min sub_max : Z)
    (Hmin : 0 <= BlankSpace.min_blanks self)
    (Hbounds : bounds_ok self)
    (Hnonempty : BlankSpace.max_blanks self <> 0)
    (Hsub : 0 <= sub_min <= sub_max)
    (Henough : BlankSpace.max_blanks self = -1 \/ sub_min <= BlankSpace.max_blanks self) :
  exists r : BlankSpace,
    BlankSpace.clone_minus self sub_min (Some sub_max) = Ok r
    /\ 0 <= BlankSpace.min_blanks r
    /\ bounds_ok r
    /\ (BlankSpace.max_blanks r = -1 <-> BlankSpace.max_blanks self = -1)
    /\ BlankSpace.possible_characters r = BlankSpace.possible_characters self
    /\ BlankSpace.negated r = BlankSpace.negated self
    /\ BlankSpace.bracketed r = BlankSpace.bracketed self.
Proof.
  rewrite clone_minus_eq. unfold bounds_ok in *.
  destruct (Z.eqb_spec (BlankSpace.max_blanks self) 0); [contradiction|].
  eexists. split; [reflexivity|]. simpl.
  destruct (Z.eqb_spec (BlankSpace.max_blanks self) (-1)) as [Hu|Hu].
  - repeat split; auto; lia.
  - repeat split; auto; lia.
Qed.

Lemma X9_clone_minus_keeps_bounds_witness :
  exists r : BlankSpace,
    BlankSpace.clone_minus (BlankSpace.Build {[ "a"%char ]} 3 5 false true) 1 (Some 2) = Ok r
    /\ 0 <= BlankSpace.min_blanks r
    /\ bounds_ok r
    /\ (BlankSpace.max_blanks r = -1
        <-> BlankSpace.max_blanks (BlankSpace.Build {[ "a"%char ]} 3 5 false true) = -1)
    /\ BlankSpace.possible_characters r
       = BlankSpace.possible_characters (BlankSpace.Build {[ "a"%char ]} 3 5 false true)
    /\ BlankSpace.negated r = BlankSpace.negated (BlankSpace.Build {[ "a"%char ]} 3 5 false true)
    /\ BlankSpace.bracketed r
       = BlankSpace.bracketed (BlankSpace.Build {[ "a"%char ]} 3 5 false true).
Proof.
  apply (X9_clone_minus_keeps_bounds (BlankSpace.Build {[ "a"%char ]} 3 5 false true) 1 2);
    unfold bounds_ok; simpl; lia.
Defined.

(** X10: [clone_minus] does not guard the subtraction.  Asked for one
    blank more than a numeric maximum, it returns a class whose
    [max_blanks] is the sentinel [-1]: the bounded class has become one
    without upper bound. *)
Theorem X10_clone_minus_past_maximum (self : BlankSpace) (sub_max : option Z)
    (Hmax : 1 <= BlankSpace.max_blanks self) :
  exists r : BlankSpace,
    BlankSpace.clone_minus self (BlankSpace.max_blanks self + 1) sub_max = Ok r
    /\ BlankSpace.max_blanks r = -1.
Proof.
  rewrite clone_minus_eq.
  destruct (Z.eqb_spec (BlankSpace.max_blanks self) 0); [lia|].
  destruct (Z.eqb_spec (BlankSpace.max_blanks self) (-1)); [lia|].
  eexists. split; [reflexivity|]. simpl. lia.
Qed.

Lemma X10_clone_minus_past_maximum_witness :
  exists r : BlankSpace,
    BlankSpace.clone_minus (BlankSpace.Build {[ "a"%char ]} 0 1 false true)
      (BlankSpace.max_blanks (BlankSpace.Build {[ "a"%char ]} 0 1 false true) + 1) None
    = Ok r
    /\ BlankSpace.max_blanks r = -1.
Proof.
  apply (X10_clone_minus_past_maximum (BlankSpace.Build {[ "a"%char ]} 0 1 false true) None).
  simpl. lia.
Defined.

Section FilterFacts.

Lemma apply_filter_eq (self : BlankSpace) (filter_chars : chars_arg) (hard : bool) :
  BlankSpace.apply_filter self filter_chars hard
  = if filter_applies self hard
    then BlankSpace.set_possible_characters self
           (BlankSpace.possible_characters self
              ∖ (all_character_set ∖ list_to_set (chars_text filter_chars)))
    else self.
Proof.
  unfold BlankSpace.apply_filter, filter_applies.
  match goal with |- context [if ?c then BlankSpace.remove _ _ else _] => destruct c end;
    [|reflexivity].
  unfold BlankSpace.remove. rewrite join_singletons.
  now rewrite list_to_set_elements_L.
Qed.

End FilterFacts.

(** X11: a filter only narrows.  [apply_filter] never adds a character,
    changes no other field, and applying the same filter a second time
    changes nothing more. *)
Theorem X11_apply_filter_narrows (self : BlankSpace) (filter_chars : chars_arg)
    (hard : bool) :
  let filtered := BlankSpace.apply_filter self filter_chars hard in
  BlankSpace.possible_characters filtered ⊆ BlankSpace.possible_characters self
  /\ BlankSpace.min_blanks filtered = BlankSpace.min_blanks self
  /\ BlankSpace.max_blanks filtered = BlankSpace.max_blanks self
  /\ BlankSpace.negated filtered = BlankSpace.negated self
  /\ BlankSpace.bracketed filtered = BlankSpace.bracketed self
  /\ BlankSpace.apply_filter filtered filter_chars hard = filtered.
Proof.
  intros filtered. subst filtered.
  pose proof (apply_filter_eq self filter_chars hard) as E.
  destruct (filter_applies self hard) eqn:Happ; rewrite E.
  - split; [simpl; set_solver|]. repeat (split; [reflexivity|]).
    rewrite apply_filter_eq.
    match goal with
    | |- (if filter_applies ?x hard then _ else _) = _ =>
        destruct (filter_applies x hard); [|reflexivity]
    end.
    unfold BlankSpace.set_possible_characters. simpl. f_equal. set_solver.
  - split; [reflexivity|]. repeat (split; [reflexivity|]). exact E.
Qed.


(** ** UnknownWord: length bounds *)

Section LengthBounds.

Implicit Types (spaces : list BlankSpace) (s : BlankSpace).

Lemma calc_fold spaces (a b : Z) :
  Forall (fun s => -1 <= BlankSpace.max_blanks s) spaces ->
  b = -1 \/ 0 <= b ->
  fold_left UnknownWord.length_bounds_step spaces (a, b)
  = (a + sum_min spaces,
     if (b =? -1) || has_unbounded spaces then -1 else b + sum_max spaces).
Proof.
  intros Hs. revert a b. induction Hs as [|s spaces Hmax Hs IH]; intros a b Hb.
  - simpl. rewrite orb_false_r. destruct (Z.eqb_spec b (-1)); f_equal; lia.
  - cbn [fold_left UnknownWord.length_bounds_step].
    change (sum_min (s :: spaces)) with (BlankSpace.min_blanks s + sum_min spaces).
    change (sum_max (s :: spaces)) with (BlankSpace.max_blanks s + sum_max spaces).
    change (has_unbounded (s :: spaces))
      with ((BlankSpace.max_blanks s =? -1) || has_unbounded spaces).
    rewrite IH.
    + f_equal; [lia|].
      destruct (Z.eqb_spec b (-1)) as [->|Hb']; [reflexivity|].
      destruct (Z.eqb_spec (BlankSpace.max_blanks s) (-1)) as [Hu|Hu]; [reflexivity|].
      cbn [orb]. destruct (Z.eqb_spec (b + BlankSpace.max_blanks s) (-1)); [lia|].
      destruct (has_unbounded spaces); [reflexivity|].
      symmetry. apply Z.add_assoc.
    + destruct ((b =? -1) || (BlankSpace.max_blanks s =? -1)) eqn:E; [now left|].
      apply orb_false_iff in E. destruct E as [E1 E2].
      apply Z.eqb_neq in E1, E2. right. lia.
Qed.

Lemma calc_eq (w : UnknownWord) :
  Forall (fun s => -1 <= BlankSpace.max_blanks s) (UnknownWord.spaces w) ->
  UnknownWord._calc_length_bounds w
  = (sum_min (UnknownWord.spaces w),
     if has_unbounded (UnknownWord.spaces w) then -1
     else sum_max (UnknownWord.spaces w)).
Proof.
  intros H. unfold UnknownWord._calc_length_bounds.
  rewrite calc_fold by (assumption || (right; lia)). reflexivity.
Qed.

End LengthBounds.

(** X12: [_calc_length_bounds] sums the bounds.  When every space has a
    [max_blanks] of [-1] or more, the minimum is the sum of the minima, and
    the maximum is [-1] as soon as one space has no upper bound and the sum
    of the maxima otherwise. *)
Theorem X12_calc_length_bounds_sums (w : UnknownWord)
    (Hmax : Forall (fun s => -1 <= BlankSpace.max_blanks s) (UnknownWord.spaces w)) :
  UnknownWord._calc_length_bounds w
  = (sum_min (UnknownWord.spaces w),
     if has_unbounded (UnknownWord.spaces w) then -1
     else sum_max (UnknownWord.spaces w)).
Proof.
  unfold UnknownWord._calc_length_bounds.
  rewrite calc_fold by (assumption || (right; lia)).
  reflexivity.
Qed.

Lemma X12_calc_length_bounds_sums_witness :
  let w := UnknownWord.Build
             [BlankSpace.Build {[ "a"%char ]} 1 2 false true;
              BlankSpace.Build {[ "b"%char ]} 0 (-1) false true] None false in
  UnknownWord._calc_length_bounds w
  = (sum_min (UnknownWord.spaces w),
     if has_unbounded (UnknownWord.spaces w) then -1
     else sum_max (UnknownWord.spaces w)).
Proof.
  intros w. apply (X12_calc_length_bounds_sums w).
  simpl. repeat constructor; simpl; lia.
Defined.

(** X13: [min_letters] and [max_letters] combine the summed bounds with
    the filter's, reading [-1] as "no upper bound".  With a filter whose
    maximum, like the summed maximum, is [-1] or more, a length is within
    [max_letters] exactly when it is within the summed maximum and within
    the filter's maximum, and at least [min_letters] exactly when it is at
    least the summed minimum and the filter's minimum. *)
Theorem X13_letters_bounds_with_filter (w : UnknownWord) (f : BlankSpace) (k : Z)
    (Hfilter : UnknownWord.filter w = Some f)
    (Hcalc : -1 <= snd (UnknownWord._calc_length_bounds w))
    (Hfmax : -1 <= BlankSpace.max_blanks f)
    (Hk : 0 <= k) :
  (UnknownWord.min_letters w <= k
   <-> fst (UnknownWord._calc_length_bounds w) <= k /\ BlankSpace.min_blanks f <= k)
  /\ (within_max k (UnknownWord.max_letters w)
      <-> within_max k (snd (UnknownWord._calc_length_bounds w))
          /\ within_max k (BlankSpace.max_blanks f)).
Proof.
  unfold UnknownWord.min_letters, UnknownWord.max_letters, within_max.
  rewrite Hfilter.
  destruct (UnknownWord._calc_length_bounds w) as [cmin cmax]. simpl in *.
  split; [lia|].
  destruct (Z.eqb_spec cmax (-1)); destruct (Z.eqb_spec (BlankSpace.max_blanks f) (-1));
    simpl; lia.
Qed.

Lemma X13_letters_bounds_with_filter_witness :
  let f := BlankSpace.Build {[ "a"%char ]} 1 (-1) false true in
  let w := UnknownWord.Build [BlankSpace.Build {[ "a"%char ]} 1 2 false true]
             (Some f) true in
  (UnknownWord.min_letters w <= 2
   <-> fst (UnknownWord._calc_length_bounds w) <= 2 /\ BlankSpace.min_blanks f <= 2)
  /\ (within_max 2 (UnknownWord.max_letters w)
      <-> within_max 2 (snd (UnknownWord._calc_length_bounds w))
          /\ within_max 2 (BlankSpace.max_blanks f)).
Proof.
  intros f w. apply (X13_letters_bounds_with_filter w f 2); simpl; (reflexivity || lia).
Defined.


(** ** UnknownWord: spaces by index *)

Section SpacesByIndex.

Context {A B : Type}.

Lemma list_getitem_map (f : A -> B) (l : list A) (i : Z) :
  list_getitem (map f l) i = (x ← list_getitem l i; Ok (f x)).
Proof.
  unfold list_getitem. rewrite length_map.
  destruct (_ <? 0); [reflexivity|].
  rewrite nth_error_map. now destruct (nth_error l _).
Qed.

End SpacesByIndex.

(** X14: [get_effective_space] is [get_effective_spaces] read at one index:
    the same filtered space for an index in range, the same [IndexError]
    otherwise, negative indices included. *)
Theorem X14_get_effective_space_agrees (w : UnknownWord) (index : Z) :
  UnknownWord.get_effective_space w index
  = list_getitem (UnknownWord.get_effective_spaces w) index.
Proof.
  unfold UnknownWord.get_effective_space, UnknownWord.get_effective_spaces,
    UnknownWord.__getitem__.
  destruct (UnknownWord.filter w); [|reflexivity].
  now rewrite list_getitem_map.
Qed.


(** ** UnknownWord: cutting a space *)

Section CutSpace.

Context {A : Type}.
Implicit Types (l : list A) (index : Z).

Lemma nth_error_lookup l (i : nat) : nth_error l i = l !! i.
Proof. revert i. induction l as [|x l IH]; intros [|i]; simpl; auto. Qed.

Lemma list_getitem_ok l index (x : A) :
  list_getitem l index = Ok x ->
  - Z.of_nat (length l) <= index < Z.of_nat (length l)
  /\ l !! position l index = Some x.
Proof.
  unfold list_getitem, position. intros H.
  destruct (Z.ltb_spec index 0) as [Hi|Hi].
  - destruct (Z.ltb_spec (index + Z.of_nat (length l)) 0); [discriminate|].
    destruct (nth_error l _) as [y|] eqn:Hn; [|discriminate].
    injection H as ->. split; [lia|]. now rewrite <- nth_error_lookup.
  - destruct (Z.ltb_spec index 0); [lia|].
    destruct (nth_error l _) as [y|] eqn:Hn; [|discriminate].
    injection H as ->. split; [|now rewrite <- nth_error_lookup].
    rewrite nth_error_lookup in Hn. apply lookup_lt_Some in Hn. lia.
Qed.

Lemma list_getitem_out_of_range l index :
  index < - Z.of_nat (length l) \/ Z.of_nat (length l) <= index ->
  list_getitem l index = Raise (IndexError (py "list index out of range")).
Proof.
  intros H. unfold list_getitem.
  destruct (Z.ltb_spec index 0) as [Hi|Hi].
  - destruct (Z.ltb_spec (index + Z.of_nat (length l)) 0); [reflexivity|lia].
  - destruct (Z.ltb_spec index 0); [lia|].
    destruct (nth_error l _) as [y|] eqn:Hn; [|reflexivity].
    rewrite nth_error_lookup in Hn. apply lookup_lt_Some in Hn. lia.
Qed.

Lemma list_slice_upto l index :
  - Z.of_nat (length l) <= index < Z.of_nat (length l) ->
  list_slice l None (Some index) = take (position l index) l.
Proof.
  intros H. unfold list_slice, position. cbn [slice_bound].
  unfold slice_bound. destruct (Z.ltb_spec index 0).
  - rewrite Z.max_r by lia. now rewrite Z.sub_0_r.
  - rewrite Z.min_l by lia. now rewrite Z.sub_0_r.
Qed.

Lemma list_slice_from l index :
  - Z.of_nat (length l) <= index < Z.of_nat (length l) -> index <> -1 ->
  list_slice l (Some (index + 1)) None = drop (S (position l index)) l.
Proof.
  intros H Hne. unfold list_slice, position. cbn [slice_bound].
  unfold slice_bound.
  destruct (Z.ltb_spec (index + 1) 0); destruct (Z.ltb_spec index 0); try lia.
  - rewrite Z.max_r by lia.
    replace (Z.to_nat (index + 1 + Z.of_nat (length l)))
      with (S (Z.to_nat (index + Z.of_nat (length l)))) by lia.
    apply firstn_all2. rewrite length_skipn. lia.
  - rewrite Z.min_l by lia.
    replace (Z.to_nat (index + 1)) with (S (Z.to_nat index)) by lia.
    apply firstn_all2. rewrite length_skipn. lia.
Qed.

Lemma list_slice_all l : list_slice l (Some 0) None = l.
Proof.
  unfold list_slice. cbn [slice_bound]. unfold slice_bound.
  change (0 <? 0) with false. cbv iota. rewrite Z.min_l by lia.
  rewrite Z.sub_0_r, Nat2Z.id. apply firstn_all.
Qed.

Lemma take_removelast l : take (length l - 1) l = removelast l.
Proof.
  induction l as [|x [|y l] IH]; [reflexivity|reflexivity|].
  change (removelast (x :: y :: l)) with (x :: removelast (y :: l)).
  rewrite <- IH. simpl. now rewrite Nat.sub_0_r.
Qed.

End CutSpace.

Section WithoutSpace.

Implicit Types (w : UnknownWord) (index : Z).

(** What [without_space] passes to the constructor. *)
Lemma without_space_ok w w' index :
  UnknownWord.without_space w index = Ok w' ->
  exists cut new_filter,
    UnknownWord.__getitem__ w index = Ok cut
    /\ match UnknownWord.filter w with
       | Some f =>
           exists f', BlankSpace.clone_minus f (BlankSpace.min_blanks cut)
                        (Some (BlankSpace.max_blanks cut)) = Ok f'
                      /\ new_filter = Some f'
       | None => new_filter = None
       end
    /\ w' = UnknownWord.Build
              (list_slice (UnknownWord.spaces w) None (Some index)
                 ++ list_slice (UnknownWord.spaces w) (Some (index + 1)) None)
              new_filter (UnknownWord.hard_filter w).
Proof.
  unfold UnknownWord.without_space.
  destruct (UnknownWord.__getitem__ w index) as [cut|e]; [|discriminate].
  rewrite bind_ok. intros H. exists cut.
  destruct (UnknownWord.filter w) as [f|].
  - destruct (BlankSpace.clone_minus f _ _) as [f'|e]; [|discriminate].
    rewrite !bind_ok in H. exists (Some f'). split; [reflexivity|].
    split; [now exists f'|].
    unfold UnknownWord.__init__, deepcopy in H. rewrite map_id in H.
    destruct (negb (BlankSpace.bracketed f')); [discriminate|]. now injection H.
  - rewrite bind_ok in H. exists None. split; [reflexivity|]. split; [reflexivity|].
    unfold UnknownWord.__init__, deepcopy in H. rewrite map_id in H. now injection H.
Qed.

End WithoutSpace.

(** X15: [without_space] at any index but [-1] removes exactly the space
    at that index, counted from the end when negative; the others keep
    their order and the kind of filter is kept. *)
Theorem X15_without_space_removes (w w' : UnknownWord) (index : Z)
    (Hret : UnknownWord.without_space w index = Ok w')
    (Hindex : index <> -1) :
  UnknownWord.spaces w'
  = delete (position (UnknownWord.spaces w) index) (UnknownWord.spaces w)
  /\ UnknownWord.__len__ w' = UnknownWord.__len__ w - 1
  /\ UnknownWord.hard_filter w' = UnknownWord.hard_filter w.
Proof.
  destruct (without_space_ok _ _ _ Hret) as (cut & nf & Hcut & _ & ->).
  apply list_getitem_ok in Hcut. destruct Hcut as [Hrange Hlook].
  cbn [UnknownWord.spaces UnknownWord.hard_filter].
  rewrite list_slice_upto, list_slice_from by assumption.
  rewrite <- delete_take_drop. split; [reflexivity|]. split; [|reflexivity].
  unfold UnknownWord.__len__. cbn [UnknownWord.spaces].
  rewrite length_delete by eauto. apply lookup_lt_Some in Hlook. lia.
Qed.

Lemma X15_without_space_removes_witness :
  let a := BlankSpace.Build {[ "a"%char ]} 1 1 false false in
  let b := BlankSpace.Build {[ "b"%char ]} 1 1 false false in
  let c := BlankSpace.Build {[ "c"%char ]} 1 1 false false in
  let w := UnknownWord.Build [a; b; c] None false in
  let w' := UnknownWord.Build [a; c] None false in
  UnknownWord.spaces w'
  = delete (position (UnknownWord.spaces w) (-2)) (UnknownWord.spaces w)
  /\ UnknownWord.__len__ w' = UnknownWord.__len__ w - 1
  /\ UnknownWord.hard_filter w' = UnknownWord.hard_filter w.
Proof.
  intros a b c w w'. apply (X15_without_space_removes w w' (-2)).
  - reflexivity.
  - lia.
Defined.

(** X16: at index [-1] the second slice is [spaces[0:]], the whole list:
    [without_space(-1)] removes nothing and returns the spaces but the
    last followed by all the spaces. *)
Theorem X16_without_space_last_index (w w' : UnknownWord)
    (Hret : UnknownWord.without_space w (-1) = Ok w') :
  UnknownWord.spaces w' = removelast (UnknownWord.spaces w) ++ UnknownWord.spaces w
  /\ UnknownWord.__len__ w' = 2 * UnknownWord.__len__ w - 1.
Proof.
  destruct (without_space_ok _ _ _ Hret) as (cut & nf & Hcut & _ & ->).
  apply list_getitem_ok in Hcut. destruct Hcut as [Hrange Hlook].
  cbn [UnknownWord.spaces UnknownWord.hard_filter].
  rewrite list_slice_upto by assumption.
  change (-1 + 1) with 0. rewrite list_slice_all.
  assert (Hpos : position (UnknownWord.spaces w) (-1)
                 = (length (UnknownWord.spaces w) - 1)%nat).
  { unfold position. change (-1 <? 0) with true. cbv iota. lia. }
  rewrite Hpos, take_removelast. split; [reflexivity|].
  unfold UnknownWord.__len__. cbn [UnknownWord.spaces].
  rewrite length_app, <- take_removelast, length_take. lia.
Qed.

Lemma X16_without_space_last_index_witness :
  let a := BlankSpace.Build {[ "a"%char ]} 1 1 false false in
  let b := BlankSpace.Build {[ "b"%char ]} 1 1 false false in
  let w := UnknownWord.Build [a; b] None false in
  let w' := UnknownWord.Build [a; a; b] None false in
  UnknownWord.spaces w' = removelast (UnknownWord.spaces w) ++ UnknownWord.spaces w
  /\ UnknownWord.__len__ w' = 2 * UnknownWord.__len__ w - 1.
Proof.
  intros a b w w'. apply (X16_without_space_last_index w w'). reflexivity.
Defined.

(** X17: [without_space] takes the cut space's bounds off the filter: with
    a bracketed filter whose maximum is not 0 and an index in range, it
    returns a word whose filter keeps the characters and has the minimum
    [max(0, min - cut.max_blanks)] and the maximum [max - cut.min_blanks],
    or [-1] when the filter had no upper bound.  The cut's [max_blanks] is
    used as a number even when it is the sentinel [-1]: cutting a space
    without upper bound raises a non-negative filter minimum by one. *)
Theorem X17_without_space_filter (w : UnknownWord) (f cut : BlankSpace) (index : Z)
    (Hfilter : UnknownWord.filter w = Some f)
    (Hbracketed : BlankSpace.bracketed f = true)
    (Hnonempty : BlankSpace.max_blanks f <> 0)
    (Hcut : UnknownWord.__getitem__ w index = Ok cut) :
  exists (w' : UnknownWord) (f' : BlankSpace),
    UnknownWord.without_space w index = Ok w'
    /\ UnknownWord.filter w' = Some f'
    /\ BlankSpace.possible_characters f' = BlankSpace.possible_characters f
    /\ BlankSpace.min_blanks f'
       = Z.max 0 (BlankSpace.min_blanks f - BlankSpace.max_blanks cut)
    /\ BlankSpace.max_blanks f'
       = (if BlankSpace.max_blanks f =? -1 then -1
          else BlankSpace.max_blanks f - BlankSpace.min_blanks cut)
    /\ (BlankSpace.max_blanks cut = -1 -> 0 <= BlankSpace.min_blanks f ->
        BlankSpace.min_blanks f' = BlankSpace.min_blanks f + 1).
Proof.
  unfold UnknownWord.without_space. rewrite Hcut, bind_ok, Hfilter.
  rewrite clone_minus_eq.
  destruct (Z.eqb_spec (BlankSpace.max_blanks f) 0) as [H0|_]; [contradiction|].
  rewrite !bind_ok. unfold UnknownWord.__init__, deepcopy.
  cbn [BlankSpace.bracketed]. rewrite Hbracketed. cbn [negb].
  eexists. eexists. split; [reflexivity|].
  cbn [UnknownWord.filter BlankSpace.possible_characters BlankSpace.min_blanks
       BlankSpace.max_blanks default].
  repeat split. intros Hu Hmin. rewrite Hu. unfold id. simpl. lia.
Qed.

Lemma X17_without_space_filter_witness :
  let f := BlankSpace.Build {[ "a"%char ]} 2 5 false true in
  let cut := BlankSpace.Build {[ "b"%char ]} 0 (-1) false true in
  let w := UnknownWord.Build [cut] (Some f) true in
  exists (w' : UnknownWord) (f' : BlankSpace),
    UnknownWord.without_space w 0 = Ok w'
    /\ UnknownWord.filter w' = Some f'
    /\ BlankSpace.possible_characters f' = BlankSpace.possible_characters f
    /\ BlankSpace.min_blanks f'
       = Z.max 0 (BlankSpace.min_blanks f - BlankSpace.max_blanks cut)
    /\ BlankSpace.max_blanks f'
       = (if BlankSpace.max_blanks f =? -1 then -1
          else BlankSpace.max_blanks f - BlankSpace.min_blanks cut)
    /\ (BlankSpace.max_blanks cut = -1 -> 0 <= BlankSpace.min_blanks f ->
        BlankSpace.min_blanks f' = BlankSpace.min_blanks f + 1).
Proof.
  intros f cut w. apply (X17_without_space_filter w f cut 0).
  - reflexivity.
  - reflexivity.
  - simpl. lia.
  - reflexivity.
Defined.

(** X18: an index out of range, below [-len] or from [len] on, makes
    [without_space] and [get_effective_space] raise the [IndexError] of
    the list subscript, with or without a filter. *)
Theorem X18_index_out_of_range (w : UnknownWord) (index : Z)
    (Hrange : index < - UnknownWord.__len__ w \/ UnknownWord.__len__ w <= index) :
  UnknownWord.without_space w index
  = Raise (IndexError (py "list index out of range"))
  /\ UnknownWord.get_effective_space w index
     = Raise (IndexError (py "list index out of range")).
Proof.
  unfold UnknownWord.without_space, UnknownWord.get_effective_space,
    UnknownWord.__getitem__.
  rewrite list_getitem_out_of_range by exact Hrange.
  split; [reflexivity|]. now destruct (UnknownWord.filter w).
Qed.

Lemma X18_index_out_of_range_witness :
  let w := UnknownWord.Build [BlankSpace.Build {[ "a"%char ]} 1 1 false false] None false in
  UnknownWord.without_space w 1
  = Raise (IndexError (py "list index out of range"))
  /\ UnknownWord.get_effective_space w 1
     = Raise (IndexError (py "list index out of range")).
Proof.
  intros w. apply (X18_index_out_of_range w 1). right. subst w. unfold UnknownWord.__len__. simpl. lia.
Defined.


(** ** UnknownWord: the word after its first letter *)

Section FirstLetter.

Implicit Types (w : UnknownWord) (s first : BlankSpace) (rest : list BlankSpace).

Lemma well_formed_max s : well_formed s -> -1 <= BlankSpace.max_blanks s.
Proof. unfold well_formed, bounds_ok. lia. Qed.

Lemma Forall_well_formed_max rest :
  Forall well_formed rest -> Forall (fun s => -1 <= BlankSpace.max_blanks s) rest.
Proof. intros H. eapply Forall_impl; [exact H|]. apply well_formed_max. Qed.

Lemma calc_spaces rest (filter : option BlankSpace) (hard : bool) :
  Forall (fun s => -1 <= BlankSpace.max_blanks s) rest ->
  UnknownWord._calc_length_bounds (UnknownWord.Build rest filter hard)
  = (sum_min rest, if has_unbounded rest then -1 else sum_max rest).
Proof. intros H. now rewrite calc_eq. Qed.

Lemma sum_min_nonneg rest : Forall well_formed rest -> 0 <= sum_min rest.
Proof.
  induction 1 as [|s rest [Hs _] _ IH]; [reflexivity|].
  change (sum_min (s :: rest)) with (BlankSpace.min_blanks s + sum_min rest). lia.
Qed.

(** The bounded spaces of a well-formed list have maxima that are not
    negative, so their sum is at least the sum of the minima. *)
Lemma sum_max_bounded rest :
  Forall well_formed rest -> has_unbounded rest = false ->
  sum_min rest <= sum_max rest.
Proof.
  induction 1 as [|s rest [Hs Hb] _ IH]; [reflexivity|].
  change (has_unbounded (s :: rest))
    with ((BlankSpace.max_blanks s =? -1) || has_unbounded rest).
  change (sum_min (s :: rest)) with (BlankSpace.min_blanks s + sum_min rest).
  change (sum_max (s :: rest)) with (BlankSpace.max_blanks s + sum_max rest).
  intros H. apply orb_false_iff in H. destruct H as [H1 H2].
  apply Z.eqb_neq in H1. specialize (IH H2). unfold bounds_ok in Hb. lia.
Qed.

Lemma sum_max_zero rest :
  Forall well_formed rest -> has_unbounded rest = false -> sum_max rest = 0 ->
  sum_min rest = 0.
Proof.
  intros Hwf Hu H0. pose proof (sum_max_bounded rest Hwf Hu).
  pose proof (sum_min_nonneg rest Hwf). lia.
Qed.

Lemma filter_minus_one_ok w :
  match UnknownWord.filter w with Some f => usable_filter f | None => True end ->
  exists nf,
    UnknownWord.filter_minus_one w = Ok nf
    /\ option_Forall2 one_less (UnknownWord.filter w) nf
    /\ forall spaces, UnknownWord.__init__ spaces nf (UnknownWord.hard_filter w)
                      = Ok (UnknownWord.Build spaces nf (UnknownWord.hard_filter w)).
Proof.
  unfold UnknownWord.filter_minus_one.
  destruct (UnknownWord.filter w) as [f|].
  - intros [Hb Hne]. rewrite clone_minus_eq.
    destruct (Z.eqb_spec (BlankSpace.max_blanks f) 0); [contradiction|].
    rewrite bind_ok. eexists. split; [reflexivity|]. split.
    + constructor. unfold one_less. simpl. repeat split.
    + intros spaces. unfold UnknownWord.__init__, deepcopy. rewrite map_id.
      cbn [BlankSpace.bracketed]. now rewrite Hb.
  - intros _. exists None. split; [reflexivity|]. split; [constructor|].
    intros spaces. unfold UnknownWord.__init__, deepcopy. now rewrite map_id.
Qed.

Lemma sum_max_all_zero rest :
  Forall (fun s => -1 <= BlankSpace.max_blanks s) rest ->
  has_unbounded rest = false ->
  0 <= sum_max rest
  /\ (sum_max rest = 0 -> Forall (fun s => BlankSpace.max_blanks s = 0) rest).
Proof.
  induction 1 as [|s rest Hs _ IH]; [split; [reflexivity|constructor]|].
  change (has_unbounded (s :: rest))
    with ((BlankSpace.max_blanks s =? -1) || has_unbounded rest).
  change (sum_max (s :: rest)) with (BlankSpace.max_blanks s + sum_max rest).
  intros H. apply orb_false_iff in H. destruct H as [H1 H2].
  apply Z.eqb_neq in H1. destruct (IH H2) as [IH1 IH2].
  split; [lia|]. intros H0. constructor; [lia|apply IH2; lia].
Qed.

Lemma all_zero_sum rest :
  Forall (fun s => BlankSpace.max_blanks s = 0) rest ->
  has_unbounded rest = false /\ sum_max rest = 0.
Proof.
  induction 1 as [|s rest Hs _ [IH1 IH2]]; [split; reflexivity|].
  change (has_unbounded (s :: rest))
    with ((BlankSpace.max_blanks s =? -1) || has_unbounded rest).
  change (sum_max (s :: rest)) with (BlankSpace.max_blanks s + sum_max rest).
  rewrite Hs, IH1, IH2. split; reflexivity.
Qed.

End FirstLetter.

(** X19: [without_first_letter] lowers the length bounds by one letter.
    On a word of well-formed spaces whose first space can take a letter
    (its maximum is [-1] or at least 1), with no filter or a bracketed one
    with a maximum other than 0, it returns a word whose summed maximum is
    the old one less one, or still [-1], whose summed minimum is the old
    one less one when the first space required a letter, and whose filter
    is the old one with one letter less. *)
Theorem X19_without_first_letter_bounds
    (w : UnknownWord) (first : BlankSpace) (rest : list BlankSpace)
    (Hspaces : UnknownWord.spaces w = first :: rest)
    (Hfirst : takes_a_letter first)
    (Hrest : Forall well_formed rest)
    (Hfilter : match UnknownWord.filter w with
               | Some f => usable_filter f
               | None => True
               end) :
  exists w' : UnknownWord,
    UnknownWord.without_first_letter w = Ok (Some w')
    /\ fst (UnknownWord._calc_length_bounds w')
       = fst (UnknownWord._calc_length_bounds w) - Z.min 1 (BlankSpace.min_blanks first)
    /\ snd (UnknownWord._calc_length_bounds w')
       = (if snd (UnknownWord._calc_length_bounds w) =? -1 then -1
          else snd (UnknownWord._calc_length_bounds w) - 1)
    /\ option_Forall2 one_less (UnknownWord.filter w) (UnknownWord.filter w')
    /\ UnknownWord.hard_filter w' = UnknownWord.hard_filter w.
Proof.
  destruct Hfirst as [Hmin Hmax].
  pose proof (Forall_well_formed_max rest Hrest) as Hrest'.
  assert (Hall : Forall (fun s => -1 <= BlankSpace.max_blanks s) (UnknownWord.spaces w)).
  { rewrite Hspaces. constructor; [lia|exact Hrest']. }
  destruct (filter_minus_one_ok w Hfilter) as (nf & Hnf & Hless & Hinit).
  unfold UnknownWord.without_first_letter.
  rewrite (calc_eq w Hall), Hspaces. cbn [fst snd].
  change (sum_min (first :: rest)) with (BlankSpace.min_blanks first + sum_min rest).
  change (sum_max (first :: rest)) with (BlankSpace.max_blanks first + sum_max rest).
  change (has_unbounded (first :: rest))
    with ((BlankSpace.max_blanks first =? -1) || has_unbounded rest).
  pose proof (sum_min_nonneg rest Hrest) as Hsum.
  destruct ((BlankSpace.max_blanks first =? -1) || has_unbounded rest) eqn:Hunb.
  - (* no upper bound *)
    change (-1 =? 0) with false. change (-1 =? 1) with false. cbv iota.
    unfold UnknownWord.__getitem__. rewrite Hspaces.
    change (list_getitem (first :: rest) 0) with (Ok (A:=BlankSpace) first).
    rewrite bind_ok, Hnf, bind_ok.
    assert (Hskip : map deepcopy (list_slice (first :: rest) (Some 1) None) = rest).
    { unfold deepcopy. rewrite map_id.
      change (Some 1) with (Some (0 + 1)).
      rewrite (list_slice_from (first :: rest) 0) by (simpl; lia). reflexivity. }
    rewrite Hskip.
    destruct (Z.eqb_spec (BlankSpace.max_blanks first) 0) as [H0|H0]; [lia|].
    destruct (Z.eqb_spec (BlankSpace.max_blanks first) 1) as [H1|H1].
    + rewrite Hinit, bind_ok. eexists. split; [reflexivity|].
      rewrite calc_spaces by exact Hrest'. cbn [fst snd UnknownWord.filter UnknownWord.hard_filter].
      destruct (Z.eqb_spec (BlankSpace.max_blanks first) (-1)); [lia|].
      cbn [orb] in Hunb. rewrite Hunb. repeat split; [lia|exact Hless].
    + rewrite clone_minus_eq.
      destruct (Z.eqb_spec (BlankSpace.max_blanks first) 0); [lia|].
      rewrite bind_ok, Hinit, bind_ok. cbn [app]. eexists. split; [reflexivity|].
      rewrite calc_spaces.
      * cbn [fst snd UnknownWord.filter UnknownWord.hard_filter].
        change (sum_min (?x :: rest)) with (BlankSpace.min_blanks x + sum_min rest).
        change (has_unbounded (?x :: rest))
          with ((BlankSpace.max_blanks x =? -1) || has_unbounded rest).
        cbn [BlankSpace.min_blanks BlankSpace.max_blanks default].
        destruct (Z.eqb_spec (BlankSpace.max_blanks first) (-1)) as [Hu|Hu].
        -- change (-1 =? -1) with true. cbn [orb]. repeat split; [lia|exact Hless].
        -- cbn [orb] in Hunb. rewrite Hunb.
           destruct (Z.eqb_spec (BlankSpace.max_blanks first - 1) (-1)); [lia|].
           cbn [orb]. repeat split; [lia|exact Hless].
      * constructor; [|exact Hrest']. cbn [BlankSpace.max_blanks].
        destruct (Z.eqb_spec (BlankSpace.max_blanks first) (-1)); lia.
  - (* a numeric maximum *)
    apply orb_false_iff in Hunb. destruct Hunb as [Hu Hur].
    apply Z.eqb_neq in Hu.
    pose proof (sum_max_bounded rest Hrest Hur) as Hle.
    destruct (Z.eqb_spec (BlankSpace.max_blanks first + sum_max rest) 0) as [H0|H0]; [lia|].
    destruct (Z.eqb_spec (BlankSpace.max_blanks first + sum_max rest) (-1)) as [Hm|Hm]; [lia|].
    destruct (Z.eqb_spec (BlankSpace.max_blanks first + sum_max rest) 1) as [H1|H1].
    + rewrite Hnf, bind_ok, Hinit, bind_ok. eexists. split; [reflexivity|].
      unfold UnknownWord._calc_length_bounds.
      cbn [UnknownWord.spaces fold_left fst snd UnknownWord.filter UnknownWord.hard_filter].
      repeat split; [lia|lia|exact Hless].
    + unfold UnknownWord.__getitem__. rewrite Hspaces.
      change (list_getitem (first :: rest) 0) with (Ok (A:=BlankSpace) first).
      rewrite bind_ok, Hnf, bind_ok.
      assert (Hskip : map deepcopy (list_slice (first :: rest) (Some 1) None) = rest).
      { unfold deepcopy. rewrite map_id.
        change (Some 1) with (Some (0 + 1)).
        rewrite (list_slice_from (first :: rest) 0) by (simpl; lia). reflexivity. }
      rewrite Hskip.
      destruct (Z.eqb_spec (BlankSpace.max_blanks first) 0) as [Hf0|Hf0]; [lia|].
      destruct (Z.eqb_spec (BlankSpace.max_blanks first) 1) as [Hf1|Hf1].
      * rewrite Hinit, bind_ok. eexists. split; [reflexivity|].
        rewrite calc_spaces by exact Hrest'.
        cbn [fst snd UnknownWord.filter UnknownWord.hard_filter].
        rewrite Hur. repeat split; [lia|lia|exact Hless].
      * rewrite clone_minus_eq.
        destruct (Z.eqb_spec (BlankSpace.max_blanks first) 0); [lia|].
        rewrite bind_ok, Hinit, bind_ok. cbn [app]. eexists. split; [reflexivity|].
        rewrite calc_spaces.
        -- cbn [fst snd UnknownWord.filter UnknownWord.hard_filter].
           change (sum_min (?x :: rest)) with (BlankSpace.min_blanks x + sum_min rest).
           change (sum_max (?x :: rest)) with (BlankSpace.max_blanks x + sum_max rest).
           change (has_unbounded (?x :: rest))
             with ((BlankSpace.max_blanks x =? -1) || has_unbounded rest).
           cbn [BlankSpace.min_blanks BlankSpace.max_blanks default].
           destruct (Z.eqb_spec (BlankSpace.max_blanks first) (-1)); [lia|].
           destruct (Z.eqb_spec (BlankSpace.max_blanks first - 1) (-1)); [lia|].
           cbn [orb]. rewrite Hur. repeat split; [lia|lia|exact Hless].
        -- constructor; [|exact Hrest']. cbn [BlankSpace.max_blanks].
           destruct (Z.eqb_spec (BlankSpace.max_blanks first) (-1)); lia.
Qed.

Lemma X19_without_first_letter_bounds_witness :
  let first := BlankSpace.Build {[ "a"%char ]} 1 3 false true in
  let rest := [BlankSpace.Build {[ "b"%char ]} 1 1 false false] in
  let w := UnknownWord.Build (first :: rest)
             (Some (BlankSpace.Build {[ "a"%char; "b"%char ]} 2 (-1) false true)) true in
  exists w' : UnknownWord,
    UnknownWord.without_first_letter w = Ok (Some w')
    /\ fst (UnknownWord._calc_length_bounds w')
       = fst (UnknownWord._calc_length_bounds w) - Z.min 1 (BlankSpace.min_blanks first)
    /\ snd (UnknownWord._calc_length_bounds w')
       = (if snd (UnknownWord._calc_length_bounds w) =? -1 then -1
          else snd (UnknownWord._calc_length_bounds w) - 1)
    /\ option_Forall2 one_less (UnknownWord.filter w) (UnknownWord.filter w')
    /\ UnknownWord.hard_filter w' = UnknownWord.hard_filter w.
Proof.
  intros first rest w. apply (X19_without_first_letter_bounds w first rest).
  - reflexivity.
  - unfold takes_a_letter. simpl. lia.
  - repeat constructor; unfold bounds_ok; simpl; lia.
  - unfold usable_filter. simpl. split; [reflexivity|lia].
Defined.

(** X20: [without_first_letter] returns [None] exactly when the word can
    hold no letter: on spaces whose maxima are [-1] or more, the result is
    [None] if and only if every space has a [max_blanks] of 0, the word
    without spaces included. *)
Theorem X20_without_first_letter_none (w : UnknownWord)
    (Hmax : Forall (fun s => -1 <= BlankSpace.max_blanks s) (UnknownWord.spaces w)) :
  UnknownWord.without_first_letter w = Ok None
  <-> Forall (fun s => BlankSpace.max_blanks s = 0) (UnknownWord.spaces w).
Proof.
  unfold UnknownWord.without_first_letter. rewrite (calc_eq w Hmax).
  split.
  - destruct (has_unbounded (UnknownWord.spaces w)) eqn:Hu.
    + change (-1 =? 0) with false. change (-1 =? 1) with false. cbv iota.
      intros H. exfalso. revert H.
      repeat match goal with
             | |- context [?r ≫= _] => destruct r; [rewrite bind_ok|discriminate]
             | |- context [if ?b then _ else _] => destruct b
             end; discriminate.
    + destruct (Z.eqb_spec (sum_max (UnknownWord.spaces w)) 0) as [H0|H0].
      * intros _. now apply sum_max_all_zero.
      * intros H. exfalso. revert H.
        repeat match goal with
               | |- context [?r ≫= _] => destruct r; [rewrite bind_ok|discriminate]
               | |- context [if ?b then _ else _] => destruct b
               end; discriminate.
  - intros Hzero. apply all_zero_sum in Hzero. destruct Hzero as [-> ->]. reflexivity.
Qed.

Lemma X20_without_first_letter_none_witness :
  let w := UnknownWord.Build [BlankSpace.Build {[ "a"%char ]} 0 0 false true] None false in
  UnknownWord.without_first_letter w = Ok None
  <-> Forall (fun s => BlankSpace.max_blanks s = 0) (UnknownWord.spaces w).
Proof.
  intros w. apply (X20_without_first_letter_none w).
  repeat constructor. simpl. lia.
Defined.

(** X21: a first space that can take no letter is dropped in place of a
    letter.  When the first space has the bounds 0 and 0 and the others
    can hold two letters or more, [without_first_letter] returns the other
    spaces with the filter as it was: the length bounds of the result are
    those of the receiver. *)
Theorem X21_without_first_letter_empty_first
    (w : UnknownWord) (first : BlankSpace) (rest : list BlankSpace)
    (Hspaces : UnknownWord.spaces w = first :: rest)
    (Hmin : BlankSpace.min_blanks first = 0)
    (Hmax : BlankSpace.max_blanks first = 0)
    (Hrest : Forall well_formed rest)
    (Hroom : has_unbounded rest = true \/ 2 <= sum_max rest)
    (Hfilter : match UnknownWord.filter w with
               | Some f => usable_filter f
               | None => True
               end) :
  UnknownWord.without_first_letter w
  = Ok (Some (UnknownWord.Build rest (UnknownWord.filter w) (UnknownWord.hard_filter w)))
  /\ UnknownWord._calc_length_bounds
       (UnknownWord.Build rest (UnknownWord.filter w) (UnknownWord.hard_filter w))
     = UnknownWord._calc_length_bounds w.
Proof.
  pose proof (Forall_well_formed_max rest Hrest) as Hrest'.
  assert (Hall : Forall (fun s => -1 <= BlankSpace.max_blanks s) (UnknownWord.spaces w)).
  { rewrite Hspaces. constructor; [lia|exact Hrest']. }
  destruct (filter_minus_one_ok w Hfilter) as (nf & Hnf & _ & _).
  assert (Hcalc : UnknownWord._calc_length_bounds w
                  = (sum_min rest, if has_unbounded rest then -1 else sum_max rest)).
  { rewrite (calc_eq w Hall), Hspaces.
    change (sum_min (first :: rest)) with (BlankSpace.min_blanks first + sum_min rest).
    change (sum_max (first :: rest)) with (BlankSpace.max_blanks first + sum_max rest).
    change (has_unbounded (first :: rest))
      with ((BlankSpace.max_blanks first =? -1) || has_unbounded rest).
    rewrite Hmin, Hmax. reflexivity. }
  split; [|now rewrite calc_spaces, Hcalc].
  unfold UnknownWord.without_first_letter. rewrite Hcalc.
  assert (Hne : ((if has_unbounded rest then -1 else sum_max rest) =? 0) = false
                /\ ((if has_unbounded rest then -1 else sum_max rest) =? 1) = false).
  { destruct (has_unbounded rest); [split; reflexivity|].
    destruct Hroom as [Hr|Hr]; [discriminate|]. split; apply Z.eqb_neq; lia. }
  destruct Hne as [-> ->].
  unfold UnknownWord.__getitem__. rewrite Hspaces.
  change (list_getitem (first :: rest) 0) with (Ok (A:=BlankSpace) first).
  rewrite bind_ok, Hnf, bind_ok, Hmax. change (0 =? 0) with true. cbv iota.
  assert (Hskip : map deepcopy (list_slice (first :: rest) (Some 1) None) = rest).
  { unfold deepcopy. rewrite map_id.
    change (Some 1) with (Some (0 + 1)).
    rewrite (list_slice_from (first :: rest) 0) by (simpl; lia). reflexivity. }
  rewrite Hskip. unfold UnknownWord.__init__, deepcopy. rewrite map_id.
  destruct (UnknownWord.filter w) as [f|]; [|reflexivity].
  destruct Hfilter as [-> _]. reflexivity.
Qed.

Lemma X21_without_first_letter_empty_first_witness :
  let first := BlankSpace.Build {[ "a"%char ]} 0 0 false true in
  let rest := [BlankSpace.Build {[ "b"%char ]} 1 2 false true] in
  let w := UnknownWord.Build (first :: rest) None false in
  UnknownWord.without_first_letter w
  = Ok (Some (UnknownWord.Build rest (UnknownWord.filter w) (UnknownWord.hard_filter w)))
  /\ UnknownWord._calc_length_bounds
       (UnknownWord.Build rest (UnknownWord.filter w) (UnknownWord.hard_filter w))
     = UnknownWord._calc_length_bounds w.
Proof.
  intros first rest w. apply (X21_without_first_letter_empty_first w first rest).
  - reflexivity.
  - reflexivity.
  - reflexivity.
  - repeat constructor; unfold bounds_ok; simpl; lia.
  - right. simpl. lia.
  - exact I.
Defined.


(** ** What the parsers end with *)

Section ParserResults.

Implicit Types (s t string unknown : str) (c : ascii) (i index : Z).

Lemma parse_result_raise {A : Type} (P : A -> Prop) cn u m i :
  parse_result P (@_raise_parse_error A cn u m i).
Proof. now exists cn, u, m, i. Qed.

Lemma parse_result_bind {A B : Type} (Q : A -> Prop) (P : B -> Prop)
    (r : result A) (k : A -> result B) :
  parse_result Q r -> (forall a, Q a -> parse_result P (k a)) ->
  parse_result P (r ≫= k).
Proof. intros Hr Hk. destruct r; simpl; [now apply Hk|exact Hr]. Qed.

Lemma parse_result_returns {A : Type} (P Q : A -> Prop) (r : result A) :
  returns P r -> parse_result Q r -> parse_result (fun a => P a /\ Q a) r.
Proof. destruct r; simpl; auto. Qed.

Lemma parse_result_impl {A : Type} (P Q : A -> Prop) (r : result A) :
  (forall a, P a -> Q a) -> parse_result P r -> parse_result Q r.
Proof. destruct r; simpl; auto. Qed.

Lemma getitem_in_range s i : 0 <= i < len s -> exists c, getitem s i = Ok c.
Proof.
  intros Hi. unfold getitem. rewrite py_index_nonneg by lia.
  destruct (nth_error s (Z.to_nat i)) as [c|] eqn:Hn; [eauto|].
  apply nth_error_None in Hn. unfold len in Hi. lia.
Qed.

Lemma getitem_last_nonempty s : s <> [] -> exists c, getitem s (-1) = Ok c.
Proof.
  intros Hs. destruct (exists_last Hs) as (s' & c & ->). exists c. apply getitem_last.
Qed.

Lemma find_from_bound c s i :
  find_from c s i <> -1 -> 0 <= i -> i <= find_from c s i < i + len s.
Proof.
  revert i. induction s as [|x s IH]; intros i; simpl; [contradiction|].
  rewrite len_cons. pose proof (len_nonneg s).
  destruct (ascii_eqb x c); [lia|].
  intros Hf Hi. specialize (IH (i + 1) Hf). lia.
Qed.

Lemma find_bound s c : find s c <> -1 -> 0 <= find s c < len s.
Proof. unfold find. intros H. apply (find_from_bound c s 0) in H; lia. Qed.

Lemma scan_letters_result string rest (res : BlankSpace) index :
  parse_result (fun _ => True) (scan_letters string rest res index).
Proof.
  revert res index. induction rest as [|c rest IH]; intros res index; simpl; [exact I|].
  destruct (is_lower c); [apply IH|apply parse_result_raise].
Qed.

Lemma parse_min_result string unknown :
  unknown <> [] -> parse_result (fun _ => True) (parse_min string unknown).
Proof.
  intros Hne. destruct unknown as [|c t]; [contradiction|].
  unfold parse_min. rewrite getitem_head, bind_ok.
  destruct (is_digit c); [|exact I].
  destruct (Z.eqb_spec (find (c :: t) ",") (-1)) as [|Hf]; [apply parse_result_raise|].
  destruct (py_int _); [|apply parse_result_raise].
  destruct (getitem_in_range (c :: t) _ (find_bound _ _ Hf)) as [c' ->]. exact I.
Qed.

Lemma parse_max_result unknown (minlen maxlen : Z) index c :
  0 <= index ->
  parse_result (fun _ => True) (parse_max unknown minlen maxlen index c).
Proof.
  intros Hi. unfold parse_max. destruct (ascii_eqb c ","); [|exact I].
  destruct (Z.ltb_spec (index + 1) (len unknown)) as [Hlt|_]; [|exact I].
  destruct (getitem_in_range unknown (index + 1) ltac:(lia)) as [c' ->].
  rewrite bind_ok. destruct (is_digit c'); [|exact I].
  now destruct (scan_max _ _ _).
Qed.

Lemma parse_chars_result string unknown (minlen maxlen : Z) index :
  0 <= index ->
  parse_result (fun _ => True) (parse_chars string unknown minlen maxlen index).
Proof.
  intros Hi. unfold parse_chars.
  destruct ((-1 <? maxlen) && (maxlen <? minlen)); [apply parse_result_raise|].
  destruct (Z.ltb_spec index (len unknown)) as [Hlt|_]; [|exact I].
  destruct (getitem_in_range unknown index ltac:(lia)) as [c ->]. rewrite bind_ok.
  destruct (if char_in c (py "^!") then (true, index + 1) else (false, index))
    as [negated index'].
  destruct (index' <? len unknown); [|exact I].
  eapply parse_result_bind; [apply scan_letters_result|]. intros res _. exact I.
Qed.

Lemma parse_inner_result string unknown (is_filter : bool) :
  unknown <> [] ->
  parse_result (fun _ => True) (parse_inner string unknown is_filter).
Proof.
  intros Hne. unfold parse_inner.
  eapply parse_result_bind.
  { apply parse_result_returns; [apply parse_min_returns|now apply parse_min_result]. }
  intros [[minlen index] c] [[Hmn Hi] _]. simpl in Hmn, Hi.
  eapply parse_result_bind.
  { apply parse_result_returns;
      [apply parse_max_returns with (maxlen := if is_filter then -1 else 1)|
       apply parse_max_result]; try assumption.
    destruct is_filter; lia. }
  intros [[minlen' maxlen] index'] [(Hmn' & Hmx' & Hi') _]. simpl in Hmn', Hmx', Hi'.
  now apply parse_chars_result.
Qed.

Lemma parse_blank_space_result (string : option str) :
  parse_result (fun _ => True) (parse_blank_space string).
Proof.
  destruct string as [string|]; [|exact I]. unfold parse_blank_space.
  destruct (Z.eqb_spec (len string) 0) as [|Hlen]; [exact I|].
  destruct (Z.eqb_spec (len (lower string)) 1) as [H1|H1].
  - destruct (bool_decide _); [exact I|].
    destruct (forallb _ _); [exact I|apply parse_result_raise].
  - rewrite <- len_lower in Hlen.
    destruct (lower string) as [|c t] eqn:Hl; [now rewrite len_nil in Hlen|].
    + rewrite getitem_head, bind_ok.
      destruct (_BRACKET_MATCHES c); [|apply parse_result_raise].
      destruct (getitem_last_nonempty (c :: t) ltac:(discriminate)) as [e ->].
      rewrite bind_ok.
      destruct (negb _); [apply parse_result_raise|].
      destruct (Z.eqb_spec (len (py_slice (c :: t) (Some 1) (Some (-1)))) 0) as [H0|H0];
        [apply parse_result_raise|].
      apply parse_inner_result. intros Hs. now rewrite Hs in H0.
Qed.

End ParserResults.

Section ParsedWords.

Implicit Types (string unknown : str) (c : ascii) (i index : Z).

Lemma append_bracketed (res : BlankSpace) (s : str) :
  BlankSpace.bracketed (BlankSpace.append res s) = BlankSpace.bracketed res.
Proof. unfold BlankSpace.append. now destruct (BlankSpace.negated res). Qed.

Lemma scan_letters_bracketed string rest (res r : BlankSpace) index :
  scan_letters string rest res index = Ok r ->
  BlankSpace.bracketed r = BlankSpace.bracketed res.
Proof.
  revert res index. induction rest as [|c rest IH]; intros res index; simpl.
  - now intros [= ->].
  - destruct (is_lower c); [|discriminate].
    intros H. apply IH in H. now rewrite append_bracketed in H.
Qed.

Lemma parse_chars_bracketed string unknown (minlen maxlen : Z) index (r : BlankSpace) :
  parse_chars string unknown minlen maxlen index = Ok (Some r) ->
  BlankSpace.bracketed r = true.
Proof.
  unfold parse_chars.
  destruct ((-1 <? maxlen) && (maxlen <? minlen)); [discriminate|].
  destruct (index <? len unknown).
  - destruct (getitem unknown index) as [c|]; [rewrite bind_ok|discriminate].
    destruct (if char_in c (py "^!") then (true, index + 1) else (false, index))
      as [negated index'].
    destruct (index' <? len unknown).
    + destruct (scan_letters _ _ _ _) as [res|] eqn:Hscan; [|discriminate].
      rewrite bind_ok. intros [= <-].
      apply scan_letters_bracketed in Hscan. now rewrite Hscan, init_bracketed.
    + intros [= <-]. apply init_bracketed.
  - intros [= <-]. apply init_bracketed.
Qed.

Lemma parse_inner_bracketed string unknown (is_filter : bool) (r : BlankSpace) :
  parse_inner string unknown is_filter = Ok (Some r) ->
  BlankSpace.bracketed r = true.
Proof.
  unfold parse_inner.
  destruct (parse_min string unknown) as [[[minlen index] c]|]; [|discriminate].
  rewrite bind_ok.
  destruct (parse_max _ _ _ _ _) as [[[minlen' maxlen] index']|]; [|discriminate].
  rewrite bind_ok. apply parse_chars_bracketed.
Qed.

(** A text that starts with an opening bracket parses to a bracketed
    class or not at all. *)
Lemma parse_bracket_bracketed c (t : str) (end_bracket : ascii) (r : BlankSpace) :
  _BRACKET_MATCHES c = Some end_bracket ->
  parse_blank_space (Some (c :: t)) = Ok (Some r) ->
  BlankSpace.bracketed r = true.
Proof.
  intros Hm. unfold parse_blank_space.
  change (len (c :: t) =? 0) with (len (c :: t) =? 0).
  destruct (len (c :: t) =? 0); [discriminate|].
  assert (Hl : lower (c :: t) = c :: lower t).
  { unfold lower. simpl. f_equal. unfold _BRACKET_MATCHES in Hm.
    destruct (ascii_eqb c "[") eqn:H1;
      [apply bool_decide_eq_true_1 in H1; now subst c|].
    destruct (ascii_eqb c "{") eqn:H2;
      [apply bool_decide_eq_true_1 in H2; now subst c|].
    destruct (ascii_eqb c "(") eqn:H3;
      [apply bool_decide_eq_true_1 in H3; now subst c|discriminate]. }
  rewrite Hl.
  assert (Hc : (ascii_eqb c "_" || is_lower c) = false).
  { unfold _BRACKET_MATCHES in Hm.
    destruct (ascii_eqb c "[") eqn:H1;
      [apply bool_decide_eq_true_1 in H1; now subst c|].
    destruct (ascii_eqb c "{") eqn:H2;
      [apply bool_decide_eq_true_1 in H2; now subst c|].
    destruct (ascii_eqb c "(") eqn:H3;
      [apply bool_decide_eq_true_1 in H3; now subst c|discriminate]. }
  apply orb_false_iff in Hc. destruct Hc as [Hu Hlow].
  destruct (len (c :: lower t) =? 1) eqn:H1.
  - destruct (bool_decide (c :: lower t = py "_")) eqn:Hb.
    + apply bool_decide_eq_true_1 in Hb. injection Hb as -> _. discriminate.
    + simpl forallb. rewrite Hlow. discriminate.
  - rewrite getitem_head, bind_ok, Hm.
    destruct (getitem _ (-1)) as [e|]; [rewrite bind_ok|discriminate].
    destruct (negb _); [discriminate|].
    destruct (_ =? 0); [discriminate|].
    apply parse_inner_bracketed.
Qed.

Lemma mapM_id_canonical (l : list (option BlankSpace)) :
  Forall (fun o => exists s, o = Some s /\ canonical s) l ->
  exists l', mapM id l = Some l' /\ Forall canonical l'.
Proof.
  induction 1 as [|x l (s & -> & Hs) Hl (l' & IH & Hl')]; simpl.
  - exists []. split; [reflexivity|constructor].
  - rewrite IH. simpl. exists (s :: l'). split; [reflexivity|now constructor].
Qed.

(** The slice the loop hands to [parse_blank_space] starts with the
    character under the index. *)
Lemma py_slice_head unknown c index (j : Z) :
  0 <= index -> index < j ->
  getitem unknown index = Ok c ->
  exists t, py_slice unknown (Some index) (Some j) = c :: t.
Proof.
  intros Hi Hj Hc. unfold getitem in Hc.
  rewrite py_index_nonneg in Hc by assumption.
  destruct (nth_error unknown (Z.to_nat index)) as [c'|] eqn:Hn; [|discriminate].
  injection Hc as ->.
  apply nth_error_split in Hn. destruct Hn as (pre & rest & -> & Hlen).
  unfold py_slice. rewrite !slice_bound_nonneg by lia.
  rewrite len_app, len_cons. pose proof (len_nonneg rest).
  assert (Hpre : len pre = index) by (unfold len; lia).
  rewrite (Z.min_l index) by lia.
  replace (Z.to_nat index) with (length pre) by lia.
  rewrite drop_app_length.
  destruct (Z.to_nat (Z.min j (len pre + (1 + len rest)) - index)) as [|k] eqn:Hk; [lia|].
  simpl. eauto.
Qed.

Lemma parse_loop_result (budget : nat) (string unknown : str)
    (spaces : list (option BlankSpace)) (filter : option BlankSpace)
    (hard_filter : bool) index (r : result (option UnknownWord)) :
  Forall (fun o => exists s, o = Some s /\ canonical s) spaces ->
  match filter with
  | Some f => canonical f /\ BlankSpace.bracketed f = true
  | None => True
  end ->
  0 <= index ->
  parse_loop budget string unknown spaces filter hard_filter index = Some r ->
  parse_result (fun o => exists w, o = Some w /\ parsed_word w) r.
Proof.
  revert spaces filter hard_filter index r.
  induction budget as [|budget IH]; intros spaces filter hard_filter index r Hsp Hfl Hi;
    [discriminate|].
  cbn [parse_loop].
  destruct (Z.ltb_spec index (len unknown)) as [Hlt|_].
  - destruct (getitem_in_range unknown index ltac:(lia)) as [c Hc]. rewrite Hc.
    destruct (ascii_eqb c "_" || is_lower c).
    { pose proof (parse_blank_space_result (Some [c])) as Hres.
      pose proof (parse_blank_space_outcome [c] ltac:(discriminate)) as Ho.
      destruct (parse_blank_space (Some [c])) as [space|e] eqn:Hp.
      - simpl in Ho. destruct Ho as [sp ->].
        apply IH; [|exact Hfl|lia]. apply Forall_app. split; [exact Hsp|].
        constructor; [|constructor]. exists sp. split; [reflexivity|].
        now apply (parse_blank_space_canonical (Some [c])).
      - intros [= <-]. exact Hres. }
    destruct (_BRACKET_MATCHES c) as [end_bracket|] eqn:Hm.
    2:{ intros [= <-]. apply parse_result_raise. }
    set (f := find (py_slice unknown (Some index) None) end_bracket).
    pose proof (find_range (py_slice unknown (Some index) None) end_bracket) as Hf.
    fold f in Hf.
    destruct (Z.eq_dec f (-1)) as [Hf1|Hf1].
    + (* the closing bracket is missing *)
      rewrite Hf1. rewrite py_slice_empty by lia.
      change (parse_blank_space (Some [])) with (@Ok (option BlankSpace) None).
      cbv iota beta.
      destruct (ascii_eqb c "[") eqn:Hb.
      * apply bool_decide_eq_true_1 in Hb. subst c.
        assert (end_bracket = "]"%char) as Hend by (vm_compute in Hm; congruence).
        replace (-1 + index + 1) with index by lia.
        rewrite parse_loop_diverges; [discriminate|lia|exact Hc|].
        rewrite <- Hend. exact Hf1.
      * destruct (negb (-1 + index =? len unknown - 1)) eqn:Hn.
        -- intros [= <-]. apply parse_result_raise.
        -- apply negb_false_iff, Z.eqb_eq in Hn. lia.
    + destruct (py_slice_head unknown c index (f + index + 1) Hi ltac:(lia) Hc)
        as [t Hslice].
      rewrite Hslice.
      pose proof (parse_blank_space_result (Some (c :: t))) as Hres.
      pose proof (parse_blank_space_outcome (c :: t) ltac:(discriminate)) as Ho.
      destruct (parse_blank_space (Some (c :: t))) as [space|e] eqn:Hp.
      * simpl in Ho. destruct Ho as [sp ->].
        pose proof (parse_blank_space_canonical _ _ Hp) as Hcan.
        pose proof (parse_bracket_bracketed _ _ _ _ Hm Hp) as Hbr.
        destruct (ascii_eqb c "[").
        -- apply IH; [|exact Hfl|lia]. apply Forall_app. split; [exact Hsp|].
           constructor; [|constructor]. now exists sp.
        -- destruct (negb _).
           ++ intros [= <-]. apply parse_result_raise.
           ++ apply IH; [exact Hsp|now split|lia].
      * intros [= <-]. exact Hres.
  - intros [= <-]. unfold build_unknown_word.
    destruct (mapM_id_canonical spaces Hsp) as (l & -> & Hl).
    unfold UnknownWord.__init__, deepcopy. rewrite map_id.
    destruct filter as [f|].
    + destruct Hfl as [Hcan Hbr]. rewrite Hbr. simpl.
      eexists. split; [reflexivity|]. split; [exact Hl|]. simpl. now split.
    + simpl. eexists. split; [reflexivity|]. split; [exact Hl|exact I].
Qed.

Lemma parse_unknown_word_result (budget : nat) (string : option str)
    (r : result (option UnknownWord)) :
  parse_unknown_word budget string = Some r ->
  parse_result (fun o => forall w, o = Some w -> parsed_word w) r.
Proof.
  unfold parse_unknown_word. destruct string as [string|].
  - destruct (len string =? 0); [intros [= <-]; simpl; discriminate|].
    intros H. apply parse_loop_result in H; [|constructor|exact I|lia].
    eapply parse_result_impl; [|exact H].
    intros o (w & -> & Hw) w' [= <-]. exact Hw.
  - intros [= <-]. simpl. discriminate.
Qed.

End ParsedWords.

(** X22: a class returned by [parse_blank_space] satisfies the invariants
    of the data model: its characters are letters, its minimum is not
    negative, its maximum is [-1] or not below the minimum, it allows a
    character unless written by exclusion, and a bare letter or underscore
    stands for exactly one repetition. *)
Theorem X22_parse_blank_space_canonical (string : option str) (r : BlankSpace)
    (Hret : parse_blank_space string = Ok (Some r)) :
  canonical r.
Proof. exact (parse_blank_space_canonical string r Hret). Qed.

Lemma X22_parse_blank_space_canonical_witness :
  canonical (BlankSpace.Build {[ "a"%char; "b"%char ]} 1 2 false true).
Proof.
  apply (X22_parse_blank_space_canonical (Some (py "[1,2ab]"))).
  vm_compute. reflexivity.
Defined.

(** X23: [parse_blank_space] raises nothing but parse errors.  Every
    subscript of the function is in range, so no [IndexError] escapes:
    whatever it raises is the [ValueError] of [_raise_parse_error]. *)
Theorem X23_parse_blank_space_errors (string : option str) (e : exn)
    (Hraise : parse_blank_space string = Raise e) :
  is_parse_error e.
Proof.
  pose proof (parse_blank_space_result string) as H. now rewrite Hraise in H.
Qed.

Lemma X23_parse_blank_space_errors_witness :
  is_parse_error
    (ValueError (parse_error_message (py "BlankSpace") (py "ab")
                   (py "Multiple character BlankSpace must start with [, {, or (") 0)).
Proof.
  apply (X23_parse_blank_space_errors (Some (py "ab"))). reflexivity.
Defined.

(** X24: when [parse_unknown_word] raises, it raises a parse error: no
    [IndexError] of a subscript and no [ValueError] of the constructor of
    [UnknownWord] escapes, the filter it builds being always bracketed. *)
Theorem X24_parse_unknown_word_errors (budget : nat) (string : option str) (e : exn)
    (Hraise : parse_unknown_word budget string = Some (Raise e)) :
  is_parse_error e.
Proof. exact (parse_unknown_word_result budget string (Raise e) Hraise). Qed.

Lemma X24_parse_unknown_word_errors_witness :
  is_parse_error
    (ValueError (parse_error_message (py "UnknownWord") (py "a1")
                   (py "Unexpected character: 1") 1)).
Proof.
  apply (X24_parse_unknown_word_errors 3 (Some (py "a1"))). reflexivity.
Defined.

(** X25: a word returned by [parse_unknown_word] is made of canonical
    spaces, and its filter, when it has one, is canonical and bracketed. *)
Theorem X25_parse_unknown_word_parsed (budget : nat) (string : option str)
    (w : UnknownWord)
    (Hret : parse_unknown_word budget string = Some (Ok (Some w))) :
  parsed_word w.
Proof.
  exact (parse_unknown_word_result budget string (Ok (Some w)) Hret w eq_refl).
Qed.

Lemma X25_parse_unknown_word_parsed_witness :
  parsed_word
    (UnknownWord.Build
       [BlankSpace.Build {[ "c"%char ]} 1 1 false false;
        BlankSpace.Build {[ "a"%char ]} 1 2 false true]
       (Some (BlankSpace.Build {[ "a"%char; "c"%char ]} 1 (-1) false true)) true).
Proof.
  apply (X25_parse_unknown_word_parsed 4 (Some (py "c[1,2a]{ac}"))).
  vm_compute. reflexivity.
Defined.


(** ** [parse_unknown_word] on plain characters *)

Section PlainCharacters.

Implicit Types (string unknown pre mid tail : str) (c : ascii).

Lemma parse_plain_char c :
  plain_char c = true -> parse_blank_space (Some [c]) = Ok (Some (bare_space c)).
Proof.
  unfold plain_char, bare_space. intros H.
  destruct (ascii_eqb c "_") eqn:Hu.
  - apply bool_decide_eq_true_1 in Hu. subst c. apply bare_underscore_roundtrip.
  - simpl in H. apply bare_letter_roundtrip. now apply letter_spec.
Qed.

Lemma find_from_none c (s : str) (i : Z) :
  Forall (fun x => x <> c) s -> find_from c s i = -1.
Proof.
  intros H. revert i. induction H as [|x s Hx _ IH]; intros i; simpl; [reflexivity|].
  rewrite ascii_eqb_neq by exact Hx. apply IH.
Qed.

Lemma plain_steps string mid tail (filter : option BlankSpace) (hard_filter : bool) :
  Forall (fun c => plain_char c = true) mid ->
  forall (budget : nat) pre (spaces : list (option BlankSpace)),
    parse_loop budget string (pre ++ mid ++ tail) spaces filter hard_filter (len pre)
    = if (budget <=? length mid)%nat then None
      else parse_loop (budget - length mid) string (pre ++ mid ++ tail)
             (spaces ++ map (fun c => Some (bare_space c)) mid)
             filter hard_filter (len pre + len mid).
Proof.
  induction 1 as [|c mid Hc Hmid IH]; intros budget pre spaces.
  - destruct budget as [|budget]; [reflexivity|].
    change ((S budget <=? length (@nil ascii))%nat) with false. cbv iota.
    rewrite app_nil_r, len_nil, Z.add_0_r. reflexivity.
  - destruct budget as [|budget]; [reflexivity|].
    change ((S budget <=? length (c :: mid))%nat) with (budget <=? length mid)%nat.
    change (S budget - length (c :: mid))%nat with (budget - length mid)%nat.
    cbn [parse_loop].
    assert (Hlt : len pre < len (pre ++ (c :: mid) ++ tail)).
    { rewrite len_app. cbn [app]. rewrite len_cons.
      pose proof (len_nonneg (mid ++ tail)). lia. }
    destruct (Z.ltb_spec (len pre) (len (pre ++ (c :: mid) ++ tail))) as [_|]; [|lia].
    cbn [app]. rewrite getitem_app.
    unfold plain_char in Hc. rewrite Hc.
    rewrite parse_plain_char by exact Hc.
    replace (pre ++ c :: mid ++ tail) with ((pre ++ [c]) ++ mid ++ tail)
      by now rewrite <- app_assoc.
    replace (len pre + 1) with (len (pre ++ [c]))
      by now rewrite len_app, len_cons, len_nil.
    rewrite IH. destruct (budget <=? length mid)%nat; [reflexivity|].
    rewrite <- !app_assoc. cbn [map app].
    rewrite len_app, !len_cons, len_nil.
    replace (len pre + (1 + 0) + len mid) with (len pre + (1 + len mid)) by lia.
    reflexivity.
Qed.

Lemma mapM_id_Some (l : list BlankSpace) : mapM id (map Some l) = Some l.
Proof. induction l as [|x l IH]; simpl; [reflexivity|]. now rewrite IH. Qed.

End PlainCharacters.

(** X26: a text of letters and underscores parses, in one turn of the loop
    per character, to the word with one bare space per character and no
    filter: the letter itself once, or any letter once for an underscore.
    The text is read in lower case. *)
Theorem X26_parse_unknown_word_plain (budget : nat) (string : str)
    (Hnonempty : string <> [])
    (Hplain : Forall (fun c => plain_char c = true) (lower string))
    (Hbudget : (length string < budget)%nat) :
  parse_unknown_word budget (Some string)
  = Some (Ok (Some (UnknownWord.Build (map bare_space (lower string)) None false))).
Proof.
  unfold parse_unknown_word.
  destruct (Z.eqb_spec (len string) 0) as [H0|_]; [now apply len_zero in H0|].
  pose proof (plain_steps string (lower string) [] None false Hplain budget [] []) as H.
  rewrite app_nil_r in H. cbn [app] in H. change (len []) with 0 in H.
  rewrite H.
  assert (Hlen : length (lower string) = length string).
  { pose proof (len_lower string) as Hl. unfold len in Hl. lia. }
  rewrite Hlen.
  destruct (Nat.leb_spec budget (length string)) as [|_]; [lia|].
  destruct (budget - length string)%nat as [|k] eqn:Hk; [lia|].
  cbn [parse_loop].
  destruct (Z.ltb_spec (0 + len (lower string)) (len (lower string))) as [|_]; [lia|].
  unfold build_unknown_word.
  rewrite <- (map_map bare_space Some), mapM_id_Some.
  unfold UnknownWord.__init__, deepcopy. now rewrite map_id.
Qed.

Lemma X26_parse_unknown_word_plain_witness :
  parse_unknown_word 4 (Some (py "A_b"))
  = Some (Ok (Some (UnknownWord.Build (map bare_space (lower (py "A_b"))) None false))).
Proof.
  apply (X26_parse_unknown_word_plain 4 (py "A_b")).
  - discriminate.
  - repeat constructor.
  - simpl. lia.
Defined.

(** X27: a ['['] that is never closed, reached after letters and
    underscores, stops [parse_unknown_word] from ever returning: the
    search for [']'] answers [-1], the index is set back to the bracket,
    and no number of turns ends the loop. *)
Theorem X27_parse_unknown_word_unclosed (budget : nat) (string pre rest : str)
    (Hlower : lower string = pre ++ "["%char :: rest)
    (Hplain : Forall (fun c => plain_char c = true) pre)
    (Hopen : Forall (fun c => c <> "]"%char) rest) :
  parse_unknown_word budget (Some string) = None.
Proof.
  unfold parse_unknown_word.
  destruct (Z.eqb_spec (len string) 0) as [H0|_].
  { rewrite <- len_lower, Hlower, len_app, len_cons in H0.
    pose proof (len_nonneg pre). pose proof (len_nonneg rest). lia. }
  rewrite Hlower.
  pose proof (plain_steps string pre ("["%char :: rest) None false Hplain budget [] [])
    as H.
  cbn [app] in H. change (len []) with 0 in H.
  rewrite H. destruct (budget <=? length pre)%nat; [reflexivity|].
  rewrite Z.add_0_l.
  apply parse_loop_diverges.
  - rewrite len_app, len_cons. pose proof (len_nonneg pre). pose proof (len_nonneg rest).
    lia.
  - apply getitem_app.
  - rewrite py_slice_from. unfold find. cbn [find_from].
    change (ascii_eqb "[" "]") with false. cbv iota.
    now apply find_from_none.
Qed.

Lemma X27_parse_unknown_word_unclosed_witness :
  parse_unknown_word 50 (Some (py "ab[cd")) = None.
Proof.
  apply (X27_parse_unknown_word_unclosed 50 (py "ab[cd") (py "ab") (py "cd")).
  - reflexivity.
  - repeat constructor.
  - repeat constructor; discriminate.
Defined.


(** ** Default bounds of a bracket *)

Section DefaultBounds.

Implicit Types (ls inner : str) (c : ascii).

Lemma bracket_cases (o cl : ascii) :
  _BRACKET_MATCHES o = Some cl ->
  (o = "["%char /\ cl = "]"%char) \/ (o = "{"%char /\ cl = "}"%char)
  \/ (o = "("%char /\ cl = ")"%char).
Proof.
  unfold _BRACKET_MATCHES.
  destruct (ascii_eqb o "[") eqn:H1.
  { apply bool_decide_eq_true_1 in H1. intros [= <-]. now left. }
  destruct (ascii_eqb o "{") eqn:H2.
  { apply bool_decide_eq_true_1 in H2. intros [= <-]. right. now left. }
  destruct (ascii_eqb o "(") eqn:H3; [|discriminate].
  apply bool_decide_eq_true_1 in H3. intros [= <-]. right. now right.
Qed.

(** A text between matching brackets, with an inside that is not empty
    and has no capital letter, is parsed from its inside. *)
Lemma parse_between_brackets (o cl : ascii) inner :
  _BRACKET_MATCHES o = Some cl ->
  inner <> [] ->
  Forall (fun x => is_upper x = false) inner ->
  parse_blank_space (Some (o :: inner ++ [cl]))
  = parse_inner (o :: inner ++ [cl]) inner (negb (ascii_eqb o "[")).
Proof.
  intros Hm Hne Hup. unfold parse_blank_space.
  pose proof (len_nonneg inner) as Hlen.
  assert (Hl : len (o :: inner ++ [cl]) = len inner + 2)
    by (rewrite len_cons, len_app, len_cons, len_nil; lia).
  rewrite lower_id.
  2:{ destruct (bracket_cases o cl Hm) as [[-> ->]|[[-> ->]|[-> ->]]];
        (constructor; [reflexivity|]; apply Forall_app; split; [exact Hup|];
         constructor; [reflexivity|constructor]). }
  rewrite Hl.
  destruct (Z.eqb_spec (len inner + 2) 0); [lia|].
  destruct (Z.eqb_spec (len inner + 2) 1); [lia|].
  rewrite getitem_head, bind_ok, Hm.
  rewrite (getitem_last (o :: inner) cl : getitem (o :: inner ++ [cl]) (-1) = _), bind_ok.
  unfold ascii_eqb at 1. rewrite bool_decide_eq_true_2 by reflexivity.
  cbn [negb]. rewrite py_slice_inner.
  destruct (Z.eqb_spec (len inner) 0) as [H0|_]; [now apply len_zero in H0|].
  reflexivity.
Qed.

Lemma letter_not_comma c : c ∈ all_character_set -> c <> ","%char.
Proof. intros Hc ->. apply letter_spec in Hc. discriminate. Qed.

End DefaultBounds.

(** X28: the default bounds depend on the kind of bracket.  Letters
    between brackets with no bounds written parse to the class of these
    letters with the bounds 1 and 1 inside [[ ]], and with the bounds 1
    and [-1], no upper bound, inside the brackets of a filter. *)
Theorem X28_default_bounds (o cl : ascii) (ls : str)
    (Hbracket : _BRACKET_MATCHES o = Some cl)
    (Hletters : all_letters ls)
    (Hnonempty : ls <> []) :
  parse_blank_space (Some (o :: ls ++ [cl]))
  = Ok (Some (BlankSpace.Build (list_to_set ls) 1
                (if ascii_eqb o "[" then 1 else -1) false true)).
Proof.
  rewrite parse_between_brackets
    by (try assumption; now apply letters_no_upper).
  destruct ls as [|c ls']; [contradiction|].
  pose proof (Forall_inv Hletters) as Hc.
  unfold parse_inner.
  rewrite parse_min_plain, bind_ok by now apply lower_not_digit, letter_lower.
  rewrite parse_max_plain, bind_ok by now apply letter_not_comma.
  rewrite (parse_chars_letters _ [] (c :: ls')); try assumption; try discriminate.
  - now destruct (ascii_eqb o "[").
  - destruct (ascii_eqb o "["); simpl; lia.
Qed.

Lemma X28_default_bounds_witness :
  parse_blank_space (Some ("{"%char :: py "ab" ++ ["}"%char]))
  = Ok (Some (BlankSpace.Build (list_to_set (py "ab")) 1
                (if ascii_eqb "{" "[" then 1 else -1) false true)).
Proof.
  apply (X28_default_bounds "{" "}" (py "ab")).
  - reflexivity.
  - repeat constructor; now apply letter_spec.
  - discriminate.
Defined.


(** ** Determinant words and the rendering of plain words *)

Section Determinant.

Implicit Types (spaces : list BlankSpace) (s : BlankSpace).

Lemma determinant_bounds spaces :
  forallb BlankSpace.is_determinant spaces = true ->
  Forall (fun s => 0 <= BlankSpace.min_blanks s) spaces ->
  has_unbounded spaces = false /\ sum_max spaces = sum_min spaces
  /\ Forall (fun s => -1 <= BlankSpace.max_blanks s) spaces.
Proof.
  intros Hdet Hmin. revert Hdet.
  induction Hmin as [|s spaces Hs _ IH]; [intros _; repeat split; constructor|].
  cbn [forallb]. intros H. apply andb_true_iff in H. destruct H as [Hd Hrest].
  destruct (IH Hrest) as (IH1 & IH2 & IH3).
  unfold BlankSpace.is_determinant in Hd. apply andb_true_iff in Hd.
  destruct Hd as [_ Heq]. apply Z.eqb_eq in Heq.
  change (has_unbounded (s :: spaces))
    with ((BlankSpace.max_blanks s =? -1) || has_unbounded spaces).
  change (sum_min (s :: spaces)) with (BlankSpace.min_blanks s + sum_min spaces).
  change (sum_max (s :: spaces)) with (BlankSpace.max_blanks s + sum_max spaces).
  rewrite IH1, IH2.
  destruct (Z.eqb_spec (BlankSpace.max_blanks s) (-1)); [lia|].
  repeat split; [lia|]. constructor; [lia|exact IH3].
Qed.

Lemma repr_bare_space c :
  plain_char c = true -> BlankSpace.__repr__ (bare_space c) = [c].
Proof.
  unfold plain_char, bare_space. intros H.
  destruct (ascii_eqb c "_") eqn:Hu.
  - apply bool_decide_eq_true_1 in Hu. subst c. vm_compute. reflexivity.
  - unfold BlankSpace.__repr__, BlankSpace.negated.
    cbn [BlankSpace.bracketed BlankSpace._negated BlankSpace.possible_characters negb andb].
    rewrite size_singleton. change (Z.of_nat 1 =? 1) with true. cbv iota.
    now rewrite elements_singleton.
Qed.

Lemma join_repr_plain (text : str) :
  Forall (fun c => plain_char c = true) text ->
  join (map BlankSpace.__repr__ (map bare_space text)) = text.
Proof.
  induction 1 as [|c text Hc _ IH]; [reflexivity|].
  cbn [map]. unfold join in *. cbn [concat]. now rewrite repr_bare_space, IH.
Qed.

Lemma plain_not_upper c : plain_char c = true -> is_upper c = false.
Proof.
  unfold plain_char. intros H. apply orb_true_iff in H. destruct H as [H|H].
  - apply bool_decide_eq_true_1 in H. now subst c.
  - now apply lower_not_upper.
Qed.

End Determinant.

(** X29: a determinant word has one length.  When every space is
    determinant (one character, equal bounds) and no minimum is negative,
    the summed bounds are equal and are a number: the minimum and the
    maximum of [_calc_length_bounds] are the same sum. *)
Theorem X29_determinant_word_length (w : UnknownWord)
    (Hdet : UnknownWord.is_determinant w = true)
    (Hmin : Forall (fun s => 0 <= BlankSpace.min_blanks s) (UnknownWord.spaces w)) :
  UnknownWord._calc_length_bounds w
  = (sum_min (UnknownWord.spaces w), sum_min (UnknownWord.spaces w)).
Proof.
  destruct (determinant_bounds _ Hdet Hmin) as (Hu & Hsum & Hmax).
  now rewrite (calc_eq w Hmax), Hu, Hsum.
Qed.

Lemma X29_determinant_word_length_witness :
  let w := UnknownWord.Build
             [BlankSpace.Build {[ "a"%char ]} 2 2 false true;
              BlankSpace.Build {[ "b"%char ]} 1 1 false false] None false in
  UnknownWord._calc_length_bounds w
  = (sum_min (UnknownWord.spaces w), sum_min (UnknownWord.spaces w)).
Proof.
  intros w. apply (X29_determinant_word_length w).
  - vm_compute. reflexivity.
  - repeat constructor; simpl; lia.
Defined.

(** X30: plain words make the round trip.  The word with one bare space
    per character of a text of lower-case letters and underscores, and no
    filter, is rendered by [__repr__] as that text, and
    [parse_unknown_word] reads the rendering back to the same word. *)
Theorem X30_plain_word_roundtrip (budget : nat) (text : str)
    (Hnonempty : text <> [])
    (Hplain : Forall (fun c => plain_char c = true) text)
    (Hbudget : (length text < budget)%nat) :
  let w := UnknownWord.Build (map bare_space text) None false in
  UnknownWord.__repr__ w = text
  /\ parse_unknown_word budget (Some (UnknownWord.__repr__ w)) = Some (Ok (Some w)).
Proof.
  intros w.
  assert (Hrepr : UnknownWord.__repr__ w = text).
  { unfold UnknownWord.__repr__, w. cbn [UnknownWord.spaces UnknownWord.filter].
    now apply join_repr_plain. }
  split; [exact Hrepr|]. rewrite Hrepr.
  assert (Hlower : lower text = text).
  { apply lower_id. eapply Forall_impl; [exact Hplain|]. apply plain_not_upper. }
  unfold parse_unknown_word.
  destruct (Z.eqb_spec (len text) 0) as [H0|_]; [now apply len_zero in H0|].
  rewrite Hlower.
  pose proof (plain_steps text text [] None false Hplain budget [] []) as H.
  rewrite app_nil_r in H. cbn [app] in H. change (len []) with 0 in H.
  rewrite H.
  destruct (Nat.leb_spec budget (length text)) as [|_]; [lia|].
  destruct (budget - length text)%nat as [|k] eqn:Hk; [lia|].
  cbn [parse_loop].
  destruct (Z.ltb_spec (0 + len text) (len text)) as [|_]; [lia|].
  unfold build_unknown_word.
  rewrite <- (map_map bare_space Some), mapM_id_Some.
  unfold UnknownWord.__init__, deepcopy. now rewrite map_id.
Qed.

Lemma X30_plain_word_roundtrip_witness :
  let w := UnknownWord.Build (map bare_space (py "a_c")) None false in
  UnknownWord.__repr__ w = py "a_c"
  /\ parse_unknown_word 4 (Some (UnknownWord.__repr__ w)) = Some (Ok (Some w)).
Proof.
  apply (X30_plain_word_roundtrip 4 (py "a_c")).
  - discriminate.
  - repeat constructor.
  - simpl. lia.
Defined.
